(** * vers: version resolution and multi-ecosystem formatting

    A shallow embedding of the Go package [vers] (files [version.go],
    [git.go] and [types.go]) together with the properties its
    specification states about it.

    Conventions of the embedding.
    - A Go [string] is a [string] of bytes.
    - A [uint64] is an [N] below [2^64]; arithmetic that can overflow has its
      wrap-around written out ([wrap64]).  An [int64] is a [Z].
    - A Go function returning [(T, error)] returns [result T]; a function that
      also queries the repository returns [M T], which additionally records
      the queries that were issued, in order.
    - The collaborators that are not part of the package (the Go standard
      library, [blang/semver], [go-git]) are modelled by the behaviour the
      package relies on; each such definition says so. *)

From Stdlib Require Import Bool Arith NArith ZArith Lia List.
From Stdlib Require Import Ascii String DecimalString DecimalN DecimalFacts.
Import ListNotations.

Open Scope list_scope.
Open Scope string_scope.

Set Implicit Arguments.

(* ================================================================== *)
(** * Errors and results *)
(* ================================================================== *)

(** Go [error] values.  [Errorf] is an error made by [fmt.Errorf] or
    [errors.New] without a wrapped cause, [Wrapf ctx e] is
    [fmt.Errorf(ctx + ": %w", e)].  The remaining constructors are the
    sentinels and the formatted messages the package distinguishes. *)
Inductive error : Type :=
| Errorf (msg : string)
| Wrapf (ctx : string) (cause : error)
| ErrExactly3Parts (version : string)      (* "version must have exactly 3 parts: %q" *)
| ErrInvalidPrereleaseType (preType : string) (* "invalid prerelease type: %q" *)
| ErrParsingBaseVersion (base : string) (cause : error)
| ErrParsingReleasePrefix (prefix : string) (cause : error)
| ErrObjectNotFound                        (* plumbing.ErrObjectNotFound *)
| ErrCollaborator (msg : string)           (* any other error of go-git or the OS *)
| ErrExit                                  (* an exec.ExitError *)
| ErrSyntax (fn input : string)            (* strconv.ErrSyntax *)
| ErrRange (fn input : string)             (* strconv.ErrRange *)
| PanicNilDereference.                     (* run-time panic: nil pointer *)

Inductive result (A : Type) : Type :=
| Ok (a : A)
| Err (e : error).
Arguments Ok {A} a.
Arguments Err {A} e.

Definition rbind {A B} (r : result A) (f : A -> result B) : result B :=
  match r with
  | Ok a => f a
  | Err e => Err e
  end.

Definition rwrap {A} (ctx : error -> error) (r : result A) : result A :=
  match r with
  | Ok a => Ok a
  | Err e => Err (ctx e)
  end.

Definition is_ok {A} (r : result A) : bool :=
  match r with Ok _ => true | Err _ => false end.

Declare Scope result_scope.
Delimit Scope result_scope with result.
Notation "x <- r ;; k" := (rbind r (fun x => k))
  (at level 61, r at next level, right associativity) : result_scope.
Notation "' pat <- r ;; k" := (rbind r (fun x => let pat := x in k))
  (at level 61, pat pattern, r at next level, right associativity) : result_scope.

(* ================================================================== *)
(** * The Go standard library, as far as the package uses it *)
(* ================================================================== *)

Module GoLib.

(** ** Bytes and character classes *)

Definition isDigit (c : ascii) : bool :=
  let n := N_of_ascii c in ((48 <=? n) && (n <=? 57))%N.

Definition isLower (c : ascii) : bool :=
  let n := N_of_ascii c in ((97 <=? n) && (n <=? 122))%N.

Definition isUpper (c : ascii) : bool :=
  let n := N_of_ascii c in ((65 <=? n) && (n <=? 90))%N.

(** [\w] of package [regexp]: [[0-9A-Za-z_]]. *)
Definition isWord (c : ascii) : bool :=
  isDigit c || isLower c || isUpper c || Ascii.eqb c "_".

(** [[0-9a-f]]. *)
Definition isLowerHex (c : ascii) : bool :=
  let n := N_of_ascii c in
  isDigit c || ((97 <=? n) && (n <=? 102))%N.

(** ** Slicing *)

(** [s[n:]] (the whole of [s] is dropped when [n] exceeds its length; the
    package never slices past the end where this model is used). *)
Fixpoint drop (n : nat) (s : string) : string :=
  match n, s with
  | O, _ => s
  | S _, EmptyString => EmptyString
  | S n', String _ s' => drop n' s'
  end.

(** [s[:n]]. *)
Fixpoint take (n : nat) (s : string) : string :=
  match n, s with
  | O, _ => EmptyString
  | S _, EmptyString => EmptyString
  | S n', String c s' => String c (take n' s')
  end.

Fixpoint forallb (p : ascii -> bool) (s : string) : bool :=
  match s with
  | EmptyString => true
  | String c s' => p c && forallb p s'
  end.

Fixpoint takeWhile (p : ascii -> bool) (s : string) : string :=
  match s with
  | EmptyString => EmptyString
  | String c s' => if p c then String c (takeWhile p s') else EmptyString
  end.

Fixpoint dropWhile (p : ascii -> bool) (s : string) : string :=
  match s with
  | EmptyString => EmptyString
  | String c s' => if p c then dropWhile p s' else s
  end.

(** ** Package [strings] *)

Definition HasPrefix (s pre : string) : bool := String.prefix pre s.

Definition TrimPrefix (s pre : string) : string :=
  if HasPrefix s pre then drop (String.length pre) s else s.

(** [strings.Index(s, sub)], [None] for [-1]. *)
Fixpoint Index (s sub : string) : option nat :=
  if HasPrefix s sub then Some O
  else match s with
       | EmptyString => None
       | String _ s' => option_map S (Index s' sub)
       end.

Definition Contains (s sub : string) : bool :=
  match Index s sub with Some _ => true | None => false end.

(** [strings.IndexRune(s, c)] for an ASCII [c]. *)
Fixpoint IndexRune (s : string) (c : ascii) : option nat :=
  match s with
  | EmptyString => None
  | String d s' => if Ascii.eqb d c then Some O else option_map S (IndexRune s' c)
  end.

(** [strings.Replace(s, old, "", 1)]: the first occurrence of [old] is
    deleted. *)
Fixpoint ReplaceFirst (s old : string) : string :=
  if HasPrefix s old then drop (String.length old) s
  else match s with
       | EmptyString => EmptyString
       | String c s' => String c (ReplaceFirst s' old)
       end.

(** The loop of [strings.genSplit] for a non-empty separator: at most
    [n] cuts, the rest of the string is the last piece. *)
Fixpoint genSplit (n : nat) (s sep : string) : list string :=
  match n with
  | O => [s]
  | S n' =>
      match Index s sep with
      | None => [s]
      | Some m => take m s :: genSplit n' (drop (m + String.length sep) s) sep
      end
  end.

(** [strings.SplitN(s, sep, n)] for [n >= 0] and a non-empty [sep]:
    [n == 0] gives no piece, and [n] is capped by [len(s) + 1]. *)
Definition SplitN (s sep : string) (n : nat) : list string :=
  match n with
  | O => []
  | S _ => genSplit (Nat.min n (String.length s + 1) - 1) s sep
  end.

(** [strings.Split(s, sep)] for a non-empty [sep]: [Count(s, sep) + 1]
    pieces, that is, [s] is cut at every separator; there are at most
    [len(s)] of them. *)
Definition Split (s sep : string) : list string :=
  genSplit (String.length s) s sep.

(** ** Package [path] *)

(** [strings.LastIndex(s, "/")]. *)
Fixpoint LastIndexSlash (s : string) : option nat :=
  match s with
  | EmptyString => None
  | String c s' =>
      match LastIndexSlash s' with
      | Some i => Some (S i)
      | None => if Ascii.eqb c "/" then Some O else None
      end
  end.

(** [path.Split]: the text up to and including the final slash, and the
    text after it. *)
Definition path_Split (p : string) : string * string :=
  match LastIndexSlash p with
  | None => (EmptyString, p)
  | Some i => (take (S i) p, drop (S i) p)
  end.

(** ** Package [strconv] and the [%d] verb *)

Definition uint64_max : N := 18446744073709551615.

(** A [uint64] operation result, reduced modulo [2^64]. *)
Definition wrap64 (n : N) : N := (n mod 2 ^ 64)%N.

(** [strconv.ParseUint(s, 10, 64)]. *)
Definition ParseUint (s : string) : result N :=
  match s with
  | EmptyString => Err (ErrSyntax "ParseUint" s)
  | _ =>
      match NilEmpty.uint_of_string s with
      | None => Err (ErrSyntax "ParseUint" s)
      | Some d =>
          let v := N.of_uint d in
          if (v <=? uint64_max)%N then Ok v else Err (ErrRange "ParseUint" s)
      end
  end.

(** [%d] of a [uint64] / [strconv.FormatUint(n, 10)]. *)
Definition FormatUint (n : N) : string :=
  NilEmpty.string_of_uint (N.to_uint n).

(** [%d] of an [int64] / [strconv.FormatInt(z, 10)]. *)
Definition FormatInt (z : Z) : string :=
  NilEmpty.string_of_int (Z.to_int z).

End GoLib.

(* ================================================================== *)
(** * [github.com/blang/semver]: versions and [Parse] *)
(* ================================================================== *)

Module semver.

Import GoLib.

Record PRVersion : Type := mkPR {
  VersionStr : string;
  VersionNum : N;      (* uint64 *)
  IsNum : bool
}.

Record Version : Type := mkVersion {
  Major : N;           (* uint64 *)
  Minor : N;
  Patch : N;
  Pre : list PRVersion;
  Build : list string
}.

(** [containsOnly(s, numbers)]. *)
Definition onlyNumbers (s : string) : bool := forallb isDigit s.

(** [containsOnly(s, alphanum)], [alphanum] being the letters, the digits
    and the hyphen. *)
Definition onlyAlphanum (s : string) : bool :=
  forallb (fun c => isDigit c || isLower c || isUpper c || Ascii.eqb c "-") s.

Definition hasLeadingZeroes (s : string) : bool :=
  match s with
  | String "0" (String _ _) => true
  | _ => false
  end.

(** The three steps [Parse] performs on each of major, minor and patch
    ([what] names the component in the messages). *)
Definition parseNumber (what s : string) : result N :=
  if negb (onlyNumbers s) then
    Err (Errorf ("Invalid character(s) found in number: " ++ what))
  else if hasLeadingZeroes s then
    Err (Errorf ("Number must not contain leading zeroes: " ++ what))
  else ParseUint s.

Definition NewPRVersion (s : string) : result PRVersion :=
  match s with
  | EmptyString => Err (Errorf "Prerelease is empty")
  | _ =>
      if onlyNumbers s then
        if hasLeadingZeroes s then
          Err (Errorf "Numeric PreRelease version must not contain leading zeroes")
        else (num <- ParseUint s ;; Ok (mkPR "" num true))%result
      else if onlyAlphanum s then Ok (mkPR s 0 false)
      else Err (Errorf "Invalid character(s) found in prerelease")
  end.

Fixpoint parsePre (l : list string) : result (list PRVersion) :=
  match l with
  | [] => Ok []
  | s :: l' =>
      (pr <- NewPRVersion s ;;
       rest <- parsePre l' ;;
       Ok (pr :: rest))%result
  end.

Fixpoint parseBuild (l : list string) : result (list string) :=
  match l with
  | [] => Ok []
  | s :: l' =>
      match s with
      | EmptyString => Err (Errorf "Build meta data is empty")
      | _ =>
          if onlyAlphanum s then
            (rest <- parseBuild l' ;; Ok (s :: rest))%result
          else Err (Errorf "Invalid character(s) found in build meta data")
      end
  end.

(** [semver.Parse]. *)
Definition Parse (s : string) : result Version :=
  match s with
  | EmptyString => Err (Errorf "Version string empty")
  | _ =>
      match SplitN s "." 3 with
      | [p0; p1; p2] =>
          (major <- parseNumber "major" p0 ;;
           minor <- parseNumber "minor" p1 ;;
           let '(build, patchStr) :=
             match IndexRune p2 "+" with
             | Some i => (Split (drop (S i) p2) ".", take i p2)
             | None => ([], p2)
             end in
           let '(prerelease, patchStr) :=
             match IndexRune patchStr "-" with
             | Some i => (Split (drop (S i) patchStr) ".", take i patchStr)
             | None => ([], patchStr)
             end in
           patch <- parseNumber "patch" patchStr ;;
           pre <- parsePre prerelease ;;
           bld <- parseBuild build ;;
           Ok (mkVersion major minor patch pre bld))%result
      | _ => Err (Errorf "No Major.Minor.Patch elements found")
      end
  end.

End semver.

(* ================================================================== *)
(** * [go-git]: the repository the package queries *)
(* ================================================================== *)

Module git.

Import GoLib.

(** A [plumbing.Hash], by its 40 hexadecimal digits ([Hash.String()]). *)
Definition Hash := string.

Definition hash_eqb (a b : Hash) : bool := String.eqb a b.

Inductive ReferenceType := InvalidReference | HashReference | SymbolicReference.

(** A [plumbing.Reference]; [RefName] is the full name ([refs/tags/...]). *)
Record Reference : Type := mkReference {
  RefType : ReferenceType;
  RefName : string;
  RefHash : Hash
}.

(** [ReferenceName.Short()] of a tag reference. *)
Definition Short (name : string) : string := TrimPrefix name "refs/tags/".

(** An [object.Commit], as far as the package reads it: its hash, the
    hashes of its parents and the committer time (Unix seconds, UTC). *)
Record Commit : Type := mkCommit {
  CommitHash : Hash;
  ParentHashes : list Hash;
  CommitterWhen : Z
}.

(** Outcome of running [git diff-files]. *)
Inductive CmdOutcome :=
| CmdOutput (out : string)
| CmdExitError
| CmdFailed (e : error).

Record Worktree : Type := mkWorktree {
  FilesystemRoot : string;
  Status : result bool          (* [Status()], then [IsClean()] *)
}.

(** The state of a repository and of its working tree, as the queries of
    the package observe it. *)
Record Repository : Type := mkRepository {
  revisions : string -> result Hash;            (* [ResolveRevision] *)
  objects : list (Hash * (list Hash * Z));      (* commit objects in the store *)
  tagRefs : result (list Reference);            (* [Tags()], in iteration order *)
  tagObjects : Hash -> result Hash;             (* [TagObject(h)], its [Target] *)
  worktree : result Worktree;                   (* [Worktree()] *)
  storerIsFilesystem : bool;                    (* the storer is a filesystem.Storage *)
  updateIndexOk : bool;                         (* [git update-index -q --refresh] *)
  diffFiles : CmdOutcome                        (* [git diff-files ...] *)
}.

Fixpoint lookupObject (store : list (Hash * (list Hash * Z))) (h : Hash)
  : option Commit :=
  match store with
  | [] => None
  | (k, (ps, t)) :: store' =>
      if hash_eqb k h then Some (mkCommit h ps t) else lookupObject store' h
  end.

(** The queries the package issues, for the record of a run. *)
Inductive event : Type :=
| EvRegexpCompile (pattern : string)
| EvResolveRevision (rev : string)
| EvCommitObject (h : Hash)
| EvTags
| EvTagObject (h : Hash)
| EvWalkObject (h : Hash)       (* object lookup by the commit iterator *)
| EvWorktree
| EvStatus
| EvExec (cmd : string).

End git.

(* ================================================================== *)
(** * Computations that query the repository *)
(* ================================================================== *)

(** A computation returns the queries it issued, in order, and its result. *)
Definition M (A : Type) : Type := list git.event * result A.

Definition ret {A} (a : A) : M A := ([], Ok a).
Definition fail {A} (e : error) : M A := ([], Err e).
Definition lift {A} (r : result A) : M A := ([], r).
Definition emit {A} (ev : git.event) (r : result A) : M A := ([ev], r).

Definition bind {A B} (m : M A) (f : A -> M B) : M B :=
  match m with
  | (t, Err e) => (t, Err e)
  | (t, Ok a) => let '(t', r) := f a in ((t ++ t')%list, r)
  end.

(** [if err != nil { return ..., wrap(err) }]. *)
Definition wrap {A} (ctx : error -> error) (m : M A) : M A :=
  (fst m, rwrap ctx (snd m)).

Definition trace_of {A} (m : M A) : list git.event := fst m.
Definition result_of {A} (m : M A) : result A := snd m.

Declare Scope M_scope.
Delimit Scope M_scope with M.
Notation "x <- m ;; k" := (bind m (fun x => k))
  (at level 61, m at next level, right associativity) : M_scope.
Notation "' pat <- m ;; k" := (bind m (fun x => let pat := x in k))
  (at level 61, pat pattern, m at next level, right associativity) : M_scope.

Module gitops.

Import GoLib git.

(** ** Repository queries *)

Definition ResolveRevision (repo : Repository) (rev : string) : M Hash :=
  emit (EvResolveRevision rev) (revisions repo rev).

Definition CommitObject (repo : Repository) (h : Hash) : M Commit :=
  emit (EvCommitObject h)
       (match lookupObject (objects repo) h with
        | Some c => Ok c
        | None => Err ErrObjectNotFound
        end).

Definition Tags (repo : Repository) : M (list Reference) :=
  emit EvTags (tagRefs repo).

Definition TagObject (repo : Repository) (h : Hash) : M Hash :=
  emit (EvTagObject h) (tagObjects repo h).

(** [ReferenceIter.ForEach(cb)].  The callbacks of the package either
    return [nil], or store a value in a captured variable and return
    [storer.ErrStop], or return an error: [cb] returns [None], [Some a],
    or fails, and the loop returns what the captured variable holds. *)
Fixpoint refsForEach {A} (refs : list Reference)
         (cb : Reference -> M (option A)) : M (option A) :=
  match refs with
  | [] => ret None
  | r :: refs' =>
      (x <- cb r ;;
       match x with
       | Some a => ret (Some a)
       | None => refsForEach refs' cb
       end)%M
  end.

(** ** The pre-order commit iterator ([object.NewCommitPreorderIter])

    Its state: the hashes already yielded, a stack of iterators over the
    parents still to be looked at (top of the stack first), and the
    start commit until it has been yielded. *)
Record commitPreIterator : Type := mkIter {
  seen : list Hash;
  stack : list (list Hash);
  start : option Commit
}.

Definition NewCommitPreorderIter (c : Commit) : commitPreIterator :=
  mkIter [] [] (Some c).

Definition isSeen (sn : list Hash) (h : Hash) : bool :=
  existsb (hash_eqb h) sn.

(** [filteredParentIter]: the parents not seen yet, in order. *)
Definition filteredParentIter (c : Commit) (sn : list Hash) : list Hash :=
  filter (fun h => negb (isSeen sn h)) (ParentHashes c).

(** One turn of the loop of [commitPreIterator.Next]. *)
Inductive turn : Type :=
| Yield (c : Commit) (w : commitPreIterator)
| Again (w : commitPreIterator)
| EOF.

(** The end of a turn, once the next candidate [c] is known. *)
Definition visit (c : Commit) (sn : list Hash) (stk : list (list Hash)) : turn :=
  if isSeen sn (CommitHash c) then Again (mkIter sn stk None)
  else
    let sn' := CommitHash c :: sn in
    let stk' :=
      match ParentHashes c with
      | [] => stk
      | _ :: _ => filteredParentIter c sn' :: stk
      end in
    Yield c (mkIter sn' stk' None).

Definition nextTurn (repo : Repository) (w : commitPreIterator) : M turn :=
  match start w with
  | Some c => ret (visit c (seen w) (stack w))
  | None =>
      match stack w with
      | [] => ret EOF
      | [] :: stk => ret (Again (mkIter (seen w) stk None))
      | (h :: hs) :: stk =>
          (c <- emit (EvWalkObject h)
                     (match lookupObject (objects repo) h with
                      | Some c => Ok c
                      | None => Err ErrObjectNotFound
                      end) ;;
           ret (visit c (seen w) (hs :: stk)))%M
      end
  end.

(** [commitPreIterator.ForEach(cb)], with the loop of [Next] unfolded into
    it; [cb] as for [refsForEach].  [fuel] bounds the number of turns;
    [walkFuel] below is always enough. *)
Fixpoint commitForEach {A} (repo : Repository) (fuel : nat)
         (w : commitPreIterator) (cb : Commit -> M (option A)) : M (option A) :=
  match fuel with
  | O => fail (Errorf "commit walk: out of fuel")
  | S fuel' =>
      (t <- nextTurn repo w ;;
       match t with
       | EOF => ret None
       | Again w' => commitForEach repo fuel' w' cb
       | Yield c w' =>
           x <- cb c ;;
           match x with
           | Some a => ret (Some a)
           | None => commitForEach repo fuel' w' cb
           end
       end)%M
  end.

(** A bound on the turns left: every commit of the store not yet seen
    weighs two turns and one per parent, every stacked iterator one turn
    and one per hash, the start commit one more than a stored commit. *)
Fixpoint unseenWeight (store : list (Hash * (list Hash * Z))) (sn : list Hash) : nat :=
  match store with
  | [] => 0
  | (k, (ps, _)) :: store' =>
      (if isSeen sn k then 0 else 2 + List.length ps) + unseenWeight store' sn
  end.

Fixpoint stackWeight (stk : list (list Hash)) : nat :=
  match stk with
  | [] => 0
  | it :: stk' => 1 + List.length it + stackWeight stk'
  end.

Definition turnsLeft (repo : Repository) (w : commitPreIterator) : nat :=
  unseenWeight (objects repo) (seen w) + stackWeight (stack w)
  + match start w with
    | Some c => 3 + List.length (ParentHashes c)
    | None => 0
    end.

Definition walkFuel (repo : Repository) (w : commitPreIterator) : nat :=
  S (turnsLeft repo w).

End gitops.

(* ================================================================== *)
(** * The three regular expressions of [version.go] *)
(* ================================================================== *)

(** Package [regexp] is not modelled in general: each of the three
    expressions of the package is given as the matcher it denotes under
    leftmost-first matching.  All three only test bytes for membership in
    ASCII classes, so matching bytes and matching runes agree on them. *)
Module regexps.

Import GoLib.

Definition newline : ascii := ascii_of_nat 10.

(** The expression of [convertPatchToPython], [^(\d+)(R)$] with [R] the
    dot-star, under [FindStringSubmatch]: the two groups.
    The first takes the longest run of leading digits, which must not be
    empty; the second must reach the end of the text, and a dot does not
    match a newline. *)
Definition patchRe_FindStringSubmatch (s : string) : option (string * string) :=
  let digits := takeWhile isDigit s in
  let rest := dropWhile isDigit s in
  match digits with
  | EmptyString => None
  | _ => if forallb (fun c => negb (Ascii.eqb c newline)) rest
         then Some (digits, rest) else None
  end.

(** Does "\+[0-9a-f]{8}\b" match at the start of [s]?  The word boundary
    after eight word characters asks for the end of the text or a
    non-word character. *)
Definition hashRe_matchHere (s : string) : bool :=
  match s with
  | String "+" s' =>
      (8 <=? String.length s')%nat
      && forallb isLowerHex (take 8 s')
      && match drop 8 s' with
         | EmptyString => true
         | String c _ => negb (isWord c)
         end
  | _ => false
  end.

(** [FindAllString(s, n)] for "\+[0-9a-f]{8}\b": the first [n] matches
    from left to right.  A match is nine bytes long and only its first
    byte is a plus sign, so no other match starts inside it and scanning
    on byte by byte finds exactly the non-overlapping matches. *)
Fixpoint hashRe_FindAllString (s : string) (n : nat) : list string :=
  match n with
  | O => []
  | S n' =>
      match s with
      | EmptyString => []
      | String _ s' =>
          if hashRe_matchHere s
          then take 9 s :: hashRe_FindAllString s' n'
          else hashRe_FindAllString s' n
      end
  end.

(** Does "\W(\d+)(\W|$)" match at the start of [s]?  If so, group 1.  The
    digits of a match are a whole run of digits: the run is followed by
    the end of the text or by a non-word character. *)
Definition numRe_matchHere (s : string) : option string :=
  match s with
  | String c s' =>
      if isWord c then None
      else
        match takeWhile isDigit s', dropWhile isDigit s' with
        | EmptyString, _ => None
        | digits, EmptyString => Some digits
        | digits, String d _ => if isWord d then None else Some digits
        end
  | EmptyString => None
  end.

(** [FindStringSubmatch] for "\W(\d+)(\W|$)": group 1 of the leftmost
    match. *)
Fixpoint numRe_FindStringSubmatch (s : string) : option string :=
  match numRe_matchHere s with
  | Some digits => Some digits
  | None =>
      match s with
      | EmptyString => None
      | String _ s' => numRe_FindStringSubmatch s'
      end
  end.

End regexps.

(* ================================================================== *)
(** * Package [vers] *)
(* ================================================================== *)

Module vers.

Import GoLib semver git gitops regexps.

(** ** [types.go] *)

Record LanguageVersions : Type := mkLanguageVersions {
  SemVer : string;
  Python : string;
  JavaScript : string;
  DotNet : string;
  Go : string
}.

Record Options : Type := mkOptions {
  Repository : option git.Repository;
  Commitish : string;
  OmitCommitHash : bool;
  ReleasePrefix : string;
  IsPreRelease : bool;
  TagFilter : option (string -> bool);
  TagPattern : string
}.

(** [Timestamp] is kept as [Timestamp.UTC().Unix()], the only way the
    package reads it. *)
Record VersionComponents : Type := mkVersionComponents {
  Semver : semver.Version;
  Dirty : bool;
  ShortHash : string;
  Timestamp : Z;
  IsExact : bool
}.

(** ** [git.go] *)

Definition stripModuleTagPrefixes (tag : string) : string :=
  let '(_, versionComponent) := path_Split tag in
  TrimPrefix versionComponent "v".

(** The callback of [isExactTag]. *)
Definition exactTagVisit (repo : git.Repository) (hash : Hash)
           (isPrerelease : bool) (tagFilter : option (string -> bool))
           (ref : Reference) : M (option Reference) :=
  match RefType ref with
  | HashReference =>
      let refName := RefName ref in
      if negb isPrerelease && (Contains refName "beta" || Contains refName "rc")
      then ret None
      else if match tagFilter with
              | Some f => negb (f (TrimPrefix refName "refs/tags/"))
              | None => false
              end
      then ret None
      else
        match TagObject repo (RefHash ref) with
        | (t, Ok target) =>
            (* annotated tag *)
            (t, Ok (if hash_eqb target hash then Some ref else None))
        | (t, Err ErrObjectNotFound) =>
            (* lightweight tag *)
            (t, Ok (if hash_eqb (RefHash ref) hash then Some ref else None))
        | (t, Err e) => (t, Err e)
        end
  | _ => ret None
  end.

(** [isExactTag]; the Go function returns [(exactTag != nil, exactTag, err)]. *)
Definition isExactTag (repo : git.Repository) (hash : Hash)
           (isPrerelease : bool) (tagFilter : option (string -> bool))
  : M (option Reference) :=
  (tags <- wrap (Wrapf "listing tags") (Tags repo) ;;
   refsForEach tags (exactTagVisit repo hash isPrerelease tagFilter))%M.

(** [mostRecentTag]; returns [(mostRecentTag != nil, mostRecentTag, err)]. *)
Definition mostRecentTag (repo : git.Repository) (ref : Hash)
           (isPrerelease : bool) (tagFilter : option (string -> bool))
  : M (option Reference) :=
  (commit <- wrap (Wrapf "getting commit object") (CommitObject repo ref) ;;
   let walker := NewCommitPreorderIter commit in
   commitForEach repo (walkFuel repo walker) walker
     (fun c => isExactTag repo (CommitHash c) isPrerelease tagFilter))%M.

Definition determineBaseVersion (repo : git.Repository) (revision : Hash)
           (isPrerelease : bool) (tagFilter : option (string -> bool))
  : M (string * bool) :=
  (commit <- wrap (Wrapf "getting commit object") (CommitObject repo revision) ;;
   exact <- wrap (Wrapf "checking exact tag")
                 (isExactTag repo (CommitHash commit) isPrerelease tagFilter) ;;
   match exact with
   | Some exactMatch =>
       ret (stripModuleTagPrefixes (Short (RefName exactMatch)), true)
   | None =>
       recent <- wrap (Wrapf "finding recent tag")
                      (mostRecentTag repo (CommitHash commit) isPrerelease tagFilter) ;;
       match recent with
       | Some recentMatch =>
           ret (stripModuleTagPrefixes (Short (RefName recentMatch)), false)
       | None => ret ("0.0.0", false)
       end
   end)%M.

(** [checkDirtyWithGitCommand]; the outcomes of the two commands are part
    of the repository state. *)
Definition checkDirtyWithGitCommand (repo : git.Repository) (repoPath : string)
  : M bool :=
  (refreshed <- emit (EvExec "git update-index -q --refresh")
                     (Ok (updateIndexOk repo)) ;;
   if negb refreshed then ret true
   else
     emit (EvExec "git diff-files --name-status --ignore-space-at-eol")
          (match diffFiles repo with
           | CmdOutput output => Ok (0 <? String.length output)%nat
           | CmdExitError => Ok true
           | CmdFailed e => Err e
           end))%M.

Definition workTreeIsDirty (repo : git.Repository) : M bool :=
  (workTree <- wrap (Wrapf "getting worktree") (emit EvWorktree (worktree repo)) ;;
   if storerIsFilesystem repo
   then checkDirtyWithGitCommand repo (FilesystemRoot workTree)
   else
     clean <- wrap (Wrapf "getting git status") (emit EvStatus (Status workTree)) ;;
     ret (negb clean))%M.

(** The increment of [getVersionComponents] for a commit that is not an
    exact tag match. *)
Definition bumpVersion (version : Version) : Version :=
  let version :=
    if (Major version =? 0)%N
    then mkVersion (Major version) (Minor version)
                   (wrap64 (Patch version + 1))
                   (Pre version) (Build version)
    else mkVersion (Major version) (wrap64 (Minor version + 1)) 0
                   (Pre version) (Build version) in
  mkVersion (Major version) (Minor version) (Patch version)
            [mkPR "alpha" 0 false] (Build version).

Definition getVersionComponents (opts : Options) : M VersionComponents :=
  match Repository opts with
  | None => fail PanicNilDereference
  | Some repo =>
      (revision <- wrap (Wrapf "resolving commitish")
                        (ResolveRevision repo (Commitish opts)) ;;
       commit <- wrap (Wrapf "getting commit object")
                      (CommitObject repo revision) ;;
       ' (baseVersion, isExact) <-
           wrap (Wrapf "determining base version")
                (determineBaseVersion repo revision (IsPreRelease opts)
                                      (TagFilter opts)) ;;
       version <- lift (rwrap (ErrParsingBaseVersion baseVersion)
                              (Parse baseVersion)) ;;
       (* Increment version for non-exact matches *)
       let version := if negb isExact then bumpVersion version else version in
       (* Apply release prefix override *)
       version <-
         (if String.eqb (ReleasePrefix opts) "" then ret version
          else
            newVersion <- lift (rwrap (ErrParsingReleasePrefix (ReleasePrefix opts))
                                      (Parse (ReleasePrefix opts))) ;;
            ret (mkVersion (Major newVersion) (Minor newVersion)
                           (Patch newVersion) (Pre version) (Build version))) ;;
       isDirty <- wrap (Wrapf "checking if worktree is dirty")
                       (workTreeIsDirty repo) ;;
       ret (mkVersionComponents version isDirty (take 8 revision)
                                (CommitterWhen commit) isExact))%M
  end.

(** ** [version.go] *)

Definition buildPreVersionStrings (genericVersion : Version)
           (components : VersionComponents) (opts : Options)
  : result (string * string) :=
  match Pre genericVersion with
  | [] => Ok ("", "")
  | pre0 :: preRest =>
      let preSuffix :=
        if negb (IsExact components)
        then "." ++ FormatInt (Timestamp components)
        else match preRest with
             | pre1 :: _ => "." ++ FormatUint (VersionNum pre1)
             | [] => ""
             end in
      let pythonPreSuffix :=
        if String.eqb preSuffix "" then "0"
        else drop 1 preSuffix (* Remove leading "." *) in
      let shortHash :=
        if negb (OmitCommitHash opts) && negb (IsPreRelease opts)
        then "+" ++ ShortHash components
        else "" in
      let preType := VersionStr pre0 in
      if String.eqb preType "dev" then
        Ok ("-dev" ++ preSuffix ++ shortHash, "dev" ++ pythonPreSuffix)
      else if String.eqb preType "alpha" then
        Ok ("-alpha" ++ preSuffix ++ shortHash, "a" ++ pythonPreSuffix)
      else if String.eqb preType "beta" then
        Ok ("-beta" ++ preSuffix ++ shortHash, "b" ++ pythonPreSuffix)
      else if String.eqb preType "rc" then
        Ok ("-rc" ++ preSuffix ++ shortHash, "rc" ++ pythonPreSuffix)
      else Err (ErrInvalidPrereleaseType preType)
  end.

(** The [genericVersion] that [buildLanguageVersions] assembles: a single
    prerelease identifier gets the commit timestamp, as text, for a
    second one. *)
Definition genericVersionOf (components : VersionComponents) : Version :=
  let v := Semver components in
  mkVersion (Major v) (Minor v) (Patch v)
            (match Pre v with
             | [] => []
             | [pre0] => [pre0; mkPR (FormatInt (Timestamp components)) 0 false]
             | _ :: _ :: _ => Pre v
             end)
            (Build v).

Definition buildLanguageVersions (components : VersionComponents) (opts : Options)
  : result LanguageVersions :=
  let genericVersion := genericVersionOf components in
  let baseVersion :=
    FormatUint (Major genericVersion) ++ "." ++
    FormatUint (Minor genericVersion) ++ "." ++
    FormatUint (Patch genericVersion) in
  (' (preVersion, pythonPreVersion) <-
     buildPreVersionStrings genericVersion components opts ;;
   (* Add dirty suffix if needed *)
   let '(preVersion, pythonPreVersion) :=
     if Dirty components then
       let separator := if String.eqb preVersion "" then "+" else "." in
       (preVersion ++ separator ++ "dirty", pythonPreVersion ++ "+dirty")
     else (preVersion, pythonPreVersion) in
   let version := baseVersion ++ preVersion in
   let pythonVersion := baseVersion ++ pythonPreVersion in
   Ok (mkLanguageVersions version pythonVersion ("v" ++ version) version
                          ("v" ++ version)))%result.

Definition getPythonPrePrefix (preVersion : string) : string * string :=
  if HasPrefix preVersion "-dev" then ("dev", drop 4 preVersion)
  else if HasPrefix preVersion "-alpha" then ("a", drop 6 preVersion)
  else if HasPrefix preVersion "-beta" then ("b", drop 5 preVersion)
  else if HasPrefix preVersion "-rc" then ("rc", drop 3 preVersion)
  else ("", preVersion).

Definition getPythonPreVersion (preVersion : string) : result string :=
  if String.eqb preVersion "" then Ok ""
  else
    let '(prefix, remaining) := getPythonPrePrefix preVersion in
    let isDirty := Contains preVersion "dirty" in
    let remaining :=
      if isDirty then ReplaceFirst remaining "dirty" else remaining in
    (* Remove hash to avoid confusion with build numbers *)
    let hashMatches := hashRe_FindAllString remaining 5 in
    let remaining :=
      match hashMatches with
      | [] => remaining
      | _ :: _ => ReplaceFirst remaining (List.last hashMatches "")
      end in
    (* Extract version number *)
    let nums := numRe_FindStringSubmatch remaining in
    let pythonPreSuffix :=
      match nums with
      | Some group1 => group1
      | None => "0" (* Default for PEP440 compliance *)
      end in
    let pythonPreVersion :=
      if String.eqb prefix "" then "" else prefix ++ pythonPreSuffix in
    let pythonPreVersion :=
      if isDirty then pythonPreVersion ++ "+dirty" else pythonPreVersion in
    Ok pythonPreVersion.

Definition convertPatchToPython (patch : string) : result string :=
  match patchRe_FindStringSubmatch patch with
  | None => Ok patch
  | Some (version, pre) =>
      (pythonPre <- getPythonPreVersion pre ;;
       Ok (version ++ pythonPre))%result
  end.

Definition CalculateFromString (version : string) : result LanguageVersions :=
  (* Strip leading "v" if present *)
  let normalised := TrimPrefix version "v" in
  match SplitN normalised "." 3 with
  | [major; minor; patch] =>
      (pythonPatch <- rwrap (Wrapf "converting patch for Python")
                            (convertPatchToPython patch) ;;
       let genericVersion := major ++ "." ++ minor ++ "." ++ patch in
       let pythonVersion := major ++ "." ++ minor ++ "." ++ pythonPatch in
       Ok (mkLanguageVersions genericVersion pythonVersion
                              ("v" ++ genericVersion) genericVersion
                              ("v" ++ genericVersion)))%result
  | _ => Err (ErrExactly3Parts version)
  end.

Definition GenerateFallbackVersion : LanguageVersions :=
  mkLanguageVersions "0.0.0-dev" "0.0.0.dev0" "v0.0.0-dev" "0.0.0-dev"
                     "v0.0.0-dev".

(** [Calculate].  Package [regexp] is a parameter: [regexp_Compile] tells
    whether a pattern is well formed and, if so, gives its [MatchString]. *)
Section Calculate.

Variable regexp_Compile : string -> result (string -> bool).

Definition Calculate (opts : Options) : M LanguageVersions :=
  match Repository opts with
  | None => fail (Errorf "repository is required")
  | Some _ =>
      let opts :=
        if String.eqb (Commitish opts) ""
        then mkOptions (Repository opts) "HEAD" (OmitCommitHash opts)
                       (ReleasePrefix opts) (IsPreRelease opts)
                       (TagFilter opts) (TagPattern opts)
        else opts in
      (* Apply tag pattern filter if specified *)
      (opts <-
         (if negb (String.eqb (TagPattern opts) "")
             && match TagFilter opts with None => true | Some _ => false end
          then
            re <- wrap (Wrapf "invalid tag pattern")
                       (emit (EvRegexpCompile (TagPattern opts))
                             (regexp_Compile (TagPattern opts))) ;;
            ret (mkOptions (Repository opts) (Commitish opts)
                           (OmitCommitHash opts) (ReleasePrefix opts)
                           (IsPreRelease opts) (Some re) (TagPattern opts))
          else ret opts) ;;
       components <- wrap (Wrapf "calculating version components")
                          (getVersionComponents opts) ;;
       lift (buildLanguageVersions components opts))%M
  end.

End Calculate.

End vers.

(* ================================================================== *)
(** * The command line ([cmd]): what is routed to the converter *)
(* ================================================================== *)

(** The source holds two [main] packages.  Both decide with
    [isVersionString] whether the argument is a version to convert with
    [CalculateFromString] or a revision to resolve with [Calculate].
    [cmd] is the first of them, [cmd2] the second. *)
Module cmd.

Import GoLib.

(** [isVersionString]: a dot, a digit after an optional "v", and at least
    three parts. *)
Definition isVersionString (input : string) : bool :=
  if Contains input "." then
    let trimmed := TrimPrefix input "v" in
    match trimmed with
    | String c _ =>
        if isDigit c then
          let parts := Split trimmed "." in
          (3 <=? List.length parts)%nat
        else false
    | EmptyString => false
    end
  else false.

End cmd.

Module cmd2.

Import GoLib.

(** ** More of package [strings] *)

(** [strings.IndexAny(s, chars)] for ASCII [chars]. *)
Fixpoint IndexAny (s : string) (chars : list ascii) : option nat :=
  match s with
  | EmptyString => None
  | String c s' =>
      if existsb (Ascii.eqb c) chars then Some O
      else option_map S (IndexAny s' chars)
  end.

Definition isASCII (c : ascii) : bool := (N_of_ascii c <? 128)%N.

Definition asciiLower (c : ascii) : ascii :=
  if isUpper c then ascii_of_N (N_of_ascii c + 32) else c.

(** The UTF-8 encodings of the Kelvin sign and of the long s, the only
    runes outside ASCII that fold to an ASCII letter (k and s). *)
Definition kelvinSign : string :=
  String (ascii_of_nat 226) (String (ascii_of_nat 132) (String (ascii_of_nat 170) "")).
Definition longS : string :=
  String (ascii_of_nat 197) (String (ascii_of_nat 191) "").

(** [strings.EqualFold(s, t)] for an ASCII [t]: rune by rune, two ASCII
    bytes match when they are equal up to the case of a letter, and a rune
    of [s] outside ASCII matches only as the Kelvin sign against k or K,
    or as the long s against s or S. *)
Fixpoint EqualFold (s t : string) : bool :=
  match t with
  | EmptyString => match s with EmptyString => true | _ => false end
  | String tr t' =>
      match s with
      | EmptyString => false
      | String sr s' =>
          if isASCII sr then
            Ascii.eqb (asciiLower sr) (asciiLower tr) && EqualFold s' t'
          else if Ascii.eqb (asciiLower tr) "k" && HasPrefix s kelvinSign then
            EqualFold (drop 3 s) t'
          else if Ascii.eqb (asciiLower tr) "s" && HasPrefix s longS then
            EqualFold (drop 2 s) t'
          else false
      end
  end.

(** [isNumeric]: not empty, digits only.  (The loop ranges over runes; a
    rune outside ASCII is no digit, as is none of its bytes.) *)
Definition isNumeric (s : string) : bool :=
  match s with
  | EmptyString => false
  | _ => forallb isDigit s
  end.

(** [isHexString]: not empty, hexadecimal digits of either case only.  (No
    rune outside ASCII has a lower case in [0-9a-f].) *)
Definition isHexString (s : string) : bool :=
  match s with
  | EmptyString => false
  | _ =>
      forallb (fun c =>
                 let n := N_of_ascii c in
                 isLowerHex c || ((65 <=? n) && (n <=? 70))%N) s
  end.

Definition commonRefs : list string :=
  ["HEAD"; "head"; "main"; "master"; "develop"; "dev"; "trunk";
   "origin"; "upstream"].

Definition isGitReference (input : string) : bool :=
  if existsb (EqualFold input) commonRefs then true
  else if Contains input "/" then true
  else if (7 <=? String.length input)%nat && (String.length input <=? 40)%nat
          && isHexString input then true
  else if HasPrefix input "refs/" then true
  else if Contains input "~" || Contains input "^" then true
  else false.

(** [isVersionString] of the second package. *)
Definition isVersionString (input : string) : bool :=
  if isGitReference input then false
  else
    let trimmed := TrimPrefix input "v" in
    if String.eqb trimmed input && HasPrefix input "v" then false
    else if negb (Contains trimmed ".") then false
    else
      let parts := Split trimmed "." in
      if (List.length parts <? 2)%nat then false
      else
        let part0 := nth 0 parts "" in
        let part1 := nth 1 parts "" in
        if String.eqb part0 "" || negb (isNumeric part0) then false
        else if String.eqb part1 "" || negb (isNumeric part1) then false
        else if (3 <=? List.length parts)%nat
                && negb (String.eqb (nth 2 parts "") "") then
          let patchPart := nth 2 parts "" in
          let patchPart :=
            match IndexAny patchPart ["-"%char; "+"%char] with
            | Some idx => take idx patchPart
            | None => patchPart
            end in
          isNumeric patchPart
        else true.

End cmd2.

(* ================================================================== *)
(** * Vocabulary of the properties *)
(* ================================================================== *)

Module props.

Import GoLib semver git gitops regexps vers.

(** ** Options *)

Definition withReleasePrefix (opts : Options) (prefix : string) : Options :=
  mkOptions (Repository opts) (Commitish opts) (OmitCommitHash opts) prefix
            (IsPreRelease opts) (TagFilter opts) (TagPattern opts).

Definition withTagFilter (opts : Options) (f : option (string -> bool)) : Options :=
  mkOptions (Repository opts) (Commitish opts) (OmitCommitHash opts)
            (ReleasePrefix opts) (IsPreRelease opts) f (TagPattern opts).

Definition withTagPattern (opts : Options) (pattern : string) : Options :=
  mkOptions (Repository opts) (Commitish opts) (OmitCommitHash opts)
            (ReleasePrefix opts) (IsPreRelease opts) (TagFilter opts) pattern.

(** The revision [Calculate] resolves: [HEAD] when none is given. *)
Definition commitishOf (opts : Options) : string :=
  if String.eqb (Commitish opts) "" then "HEAD" else Commitish opts.

(** The filter in force once [Calculate] has looked at [TagFilter] and
    [TagPattern]. *)
Definition activeFilter (compile : string -> result (string -> bool))
           (opts : Options) : result (option (string -> bool)) :=
  match TagFilter opts with
  | Some f => Ok (Some f)
  | None =>
      if String.eqb (TagPattern opts) "" then Ok None
      else rbind (rwrap (Wrapf "invalid tag pattern") (compile (TagPattern opts)))
                 (fun re => Ok (Some re))
  end.

(** The options [Calculate] passes on: the revision defaulted, the filter
    in force. *)
Definition effectiveOptions (opts : Options) (filter : option (string -> bool))
  : Options :=
  mkOptions (Repository opts) (commitishOf opts) (OmitCommitHash opts)
            (ReleasePrefix opts) (IsPreRelease opts) filter (TagPattern opts).

(** A run that issued [ev] first and then went on as [m]. *)
Definition after {A} (ev : event) (m : M A) : M A :=
  ((ev :: fst m)%list, snd m).

(** ** Version components *)

(** [c] with the numeric triple of [nv]; everything else as in [c]. *)
Definition overrideTriple (nv : Version) (c : VersionComponents) : VersionComponents :=
  mkVersionComponents
    (mkVersion (Major nv) (Minor nv) (Patch nv)
               (Pre (Semver c)) (Build (Semver c)))
    (Dirty c) (ShortHash c) (Timestamp c) (IsExact c).

Definition mapM {A B} (f : A -> B) (m : M A) : M B :=
  (fst m, match snd m with Ok a => Ok (f a) | Err e => Err e end).

Definition alphaPre : list PRVersion := [mkPR "alpha" 0 false].

(** The prerelease kinds, each with its PEP440 token. *)
Definition prereleaseKinds : list (string * string) :=
  [("dev", "dev"); ("alpha", "a"); ("beta", "b"); ("rc", "rc")].

(** The suffix that follows the kind in the generic string, as the
    formatter computes it from the components. *)
Definition preSuffixOf (components : VersionComponents) : string :=
  if negb (IsExact components) then "." ++ FormatInt (Timestamp components)
  else match Pre (Semver components) with
       | _ :: pre1 :: _ => "." ++ FormatUint (VersionNum pre1)
       | _ => ".0"
       end.

Definition shortHashOf (components : VersionComponents) (opts : Options) : string :=
  if negb (OmitCommitHash opts) && negb (IsPreRelease opts)
  then "+" ++ ShortHash components else "".

(** ** Commit ancestry *)

(** [h] is [root] or one of its ancestors in the store. *)
Inductive reachable (store : list (Hash * (list Hash * Z))) (root : Hash)
  : Hash -> Prop :=
| reach_root : reachable store root root
| reach_parent h c p :
    reachable store root h ->
    lookupObject store h = Some c ->
    In p (ParentHashes c) ->
    reachable store root p.

(** From state [w] the iterator yields the commits [l], in this order, and
    is then in state [w']. *)
Inductive yields (repo : git.Repository)
  : commitPreIterator -> list Commit -> commitPreIterator -> Prop :=
| yields_nil w : yields repo w [] w
| yields_again w w1 l w' :
    result_of (nextTurn repo w) = Ok (Again w1) ->
    yields repo w1 l w' ->
    yields repo w l w'
| yields_cons w c w1 l w' :
    result_of (nextTurn repo w) = Ok (Yield c w1) ->
    yields repo w1 l w' ->
    yields repo w (c :: l) w'.

(** What the walk holds is reachable: the start commit is a stored,
    reachable commit, and the stacked hashes are parents of commits
    yielded before. *)
Definition walkInv (repo : git.Repository) (root : Hash) (w : commitPreIterator)
  : Prop :=
  (forall it h, In it (stack w) -> In h it -> reachable (objects repo) root h)
  /\ (forall c, start w = Some c ->
                reachable (objects repo) root (CommitHash c)
                /\ lookupObject (objects repo) (CommitHash c) = Some c).

(** Parents after children: what is stacked is a parent of a commit
    yielded before. *)
Definition pendingFrom (prev : list Commit) (w : commitPreIterator) : Prop :=
  forall it h, In it (stack w) -> In h it ->
               exists child, In child prev /\ In h (ParentHashes child).

(** Nothing is left out: a parent of a seen commit is seen or stacked. *)
Definition nothingLost (repo : git.Repository) (root : Hash)
           (w : commitPreIterator) : Prop :=
  match start w with
  | Some c => CommitHash c = root /\ seen w = [] /\ stack w = []
  | None =>
      In root (seen w)
      /\ forall h c p, In h (seen w) -> lookupObject (objects repo) h = Some c ->
                       In p (ParentHashes c) ->
                       In p (seen w) \/ exists it, In it (stack w) /\ In p it
  end.

(** [l] is the whole traversal from [commit]: the iterator yields [l] and
    is then at its end. *)
Definition traversal (repo : git.Repository) (commit : Commit) (l : list Commit)
  : Prop :=
  exists w', yields repo (NewCommitPreorderIter commit) l w'
             /\ result_of (nextTurn repo w') = Ok EOF.

(** The exact, visible, filter-passing tag the resolver finds on [h]. *)
Definition tagAt (repo : git.Repository) (isPrerelease : bool)
           (tagFilter : option (string -> bool)) (h : Hash)
  : result (option Reference) :=
  result_of (isExactTag repo h isPrerelease tagFilter).

(** The tag of the first commit of [l] that bears one. *)
Fixpoint firstTagged (repo : git.Repository) (isPrerelease : bool)
         (tagFilter : option (string -> bool)) (l : list Commit)
  : option Reference :=
  match l with
  | [] => None
  | c :: l' =>
      match tagAt repo isPrerelease tagFilter (CommitHash c) with
      | Ok (Some ref) => Some ref
      | _ => firstTagged repo isPrerelease tagFilter l'
      end
  end.

(** ** Strings *)

(** A decimal number: a non-empty string of digits. *)
Definition isNumber (s : string) : bool :=
  negb (String.eqb s "") && forallb isDigit s.

Definition notChar (c : ascii) (s : string) : bool :=
  forallb (fun d => negb (Ascii.eqb d c)) s.

(** A short commit hash: eight lower-case hexadecimal digits. *)
Definition isShortHash (s : string) : bool :=
  Nat.eqb (String.length s) 8 && forallb isLowerHex s.

(** Empty, or beginning with a non-word character. *)
Definition startsOffWord (s : string) : bool :=
  match s with
  | EmptyString => true
  | String c _ => negb (isWord c)
  end.

(** The stages of the back-conversion after the kind has been split off:
    the hash stage, and the assembly of the result. *)
Definition stripHash (remaining : string) : string :=
  match hashRe_FindAllString remaining 5 with
  | [] => remaining
  | (_ :: _) as hashMatches => ReplaceFirst remaining (List.last hashMatches "")
  end.

Definition pep440Ordinal (remaining : string) : string :=
  match numRe_FindStringSubmatch remaining with
  | Some group1 => group1
  | None => "0"
  end.

Definition pep440Assemble (prefix : string) (isDirty : bool) (ordinal : string)
  : string :=
  (if String.eqb prefix "" then "" else prefix ++ ordinal)
  ++ (if isDirty then "+dirty" else "").

(** The PEP440 string of a conversion, if it succeeds. *)
Definition Python_of (version : string) : option string :=
  match CalculateFromString version with
  | Ok lv => Some (Python lv)
  | Err _ => None
  end.

(** ** Concrete repositories *)

Definition hashA : Hash := "aaaaaaaa11111111111111111111111111111111".
Definition hashB : Hash := "bbbbbbbb22222222222222222222222222222222".

Definition onlyHEAD (h : Hash) (rev : string) : result Hash :=
  if String.eqb rev "HEAD" then Ok h
  else Err (ErrCollaborator "reference not found").

(** Two commits, [hashB] the child of [hashA]; one lightweight tag [tag]
    on [hashA]; [HEAD] at [head]; an in-memory store whose working tree is
    clean or not. *)
Definition twoCommits (tag : string) (head : Hash) (clean : bool) : git.Repository :=
  mkRepository (onlyHEAD head)
               [(hashB, ([hashA], 1700000000%Z)); (hashA, ([], 1600000000%Z))]
               (Ok [mkReference HashReference ("refs/tags/" ++ tag) hashA])
               (fun _ => Err ErrObjectNotFound)
               (Ok (mkWorktree "/" (Ok clean)))
               false true (CmdOutput "").

Definition tagV100 : Reference :=
  mkReference HashReference "refs/tags/v1.0.0" hashA.

(** A single commit and no tag at all. *)
Definition oneCommit : git.Repository :=
  mkRepository (onlyHEAD hashA)
               [(hashA, ([], 1600000000%Z))]
               (Ok [])
               (fun _ => Err ErrObjectNotFound)
               (Ok (mkWorktree "/" (Ok true)))
               false true (CmdOutput "").

Definition plainOptions (repo : git.Repository) : Options :=
  mkOptions (Some repo) "HEAD" false "" false None "".

(** A stand-in for [regexp.Compile] that, like it, rejects the pattern used
    by the test suite (a character class that is never closed), and takes
    any other pattern for one that matches everything. *)
Definition stubCompile (pattern : string) : result (string -> bool) :=
  if String.eqb pattern "[invalid regex"
  then Err (Errorf "error parsing regexp: missing closing ]")
  else Ok (fun _ => true).

(** Options that carry both a filter and the ill-formed pattern. *)
Definition filterAndBadPattern : Options :=
  mkOptions (Some (twoCommits "v1.0.0" hashA true)) "HEAD" false "" false
            (Some (fun _ : string => true)) "[invalid regex".

(** Options that carry the ill-formed pattern only. *)
Definition badPatternOnly : Options :=
  mkOptions (Some (twoCommits "v1.0.0" hashA true)) "HEAD" false "" false
            None "[invalid regex".

End props.

(* ================================================================== *)
(** * Further vocabulary: tags, separators, formatted strings *)
(* ================================================================== *)

Module xprops.

Import GoLib semver git gitops regexps vers props.

(** The number of bytes [c] in [s]. *)
Fixpoint countChar (c : ascii) (s : string) : nat :=
  match s with
  | EmptyString => O
  | String d s' => (if Ascii.eqb d c then 1 else 0) + countChar c s'
  end.

(** The kinds of prerelease the formatter knows. *)
Definition knownKind (kind : string) : bool :=
  existsb (fun kp => String.eqb (fst kp) kind) prereleaseKinds.

(** The back-conversion recognises no kind at the start of [pre]. *)
Definition noKindPrefix (pre : string) : bool :=
  negb (HasPrefix pre "-dev") && negb (HasPrefix pre "-alpha")
  && negb (HasPrefix pre "-beta") && negb (HasPrefix pre "-rc").

(** ** Tags *)

(** A tag reference the resolver looks at: a hash reference that is not
    hidden as a beta or release candidate and that the filter, given the
    short name, lets through. *)
Definition tagConsidered (isPrerelease : bool)
           (tagFilter : option (string -> bool)) (ref : Reference) : bool :=
  match RefType ref with
  | HashReference =>
      negb (negb isPrerelease
            && (Contains (RefName ref) "beta" || Contains (RefName ref) "rc"))
      && match tagFilter with
         | Some f => f (TrimPrefix (RefName ref) "refs/tags/")
         | None => true
         end
  | _ => false
  end.

(** The commit a tag stands for: the target of the tag object when the
    reference points at one (an annotated tag), else the hash of the
    reference itself (a lightweight tag). *)
Definition tagTarget (repo : git.Repository) (ref : Reference) : result Hash :=
  match tagObjects repo (RefHash ref) with
  | Ok target => Ok target
  | Err ErrObjectNotFound => Ok (RefHash ref)
  | Err e => Err e
  end.

Definition tagPointsAt (repo : git.Repository) (hash : Hash) (ref : Reference)
  : bool :=
  match tagTarget repo ref with
  | Ok target => hash_eqb target hash
  | Err _ => false
  end.

(** ** Formatted strings *)

Definition baseOf (components : VersionComponents) : string :=
  FormatUint (Major (Semver components)) ++ "." ++
  FormatUint (Minor (Semver components)) ++ "." ++
  FormatUint (Patch (Semver components)).

(** The five strings that go with a generic string [v] and a PEP440
    string [py]. *)
Definition languageVersionsOf (v py : string) : LanguageVersions :=
  mkLanguageVersions v py ("v" ++ v) v ("v" ++ v).

(** Components with another short hash. *)
Definition withShortHash (c : VersionComponents) (h : string) : VersionComponents :=
  mkVersionComponents (Semver c) (Dirty c) h (Timestamp c) (IsExact c).

Definition isExecEvent (ev : event) : bool :=
  match ev with EvExec _ => true | _ => false end.

Definition isStatusEvent (ev : event) : bool :=
  match ev with EvStatus => true | _ => false end.

End xprops.

(* ================================================================== *)
(** * Properties *)
(* ================================================================== *)

Import GoLib semver git gitops regexps vers props.

Unset Implicit Arguments.

(** ** Results and runs *)

Lemma result_of_bind {A B} (m : M A) (f : A -> M B) :
  result_of (bind m f)
  = match result_of m with
    | Ok a => result_of (f a)
    | Err e => Err e
    end.
Proof.
  destruct m as [t [a|e]]; simpl; auto.
  destruct (f a); reflexivity.
Qed.

Lemma result_of_wrap {A} ctx (m : M A) :
  result_of (wrap ctx m) = rwrap ctx (result_of m).
Proof. reflexivity. Qed.

Lemma result_of_lift {A} (r : result A) : result_of (lift r) = r.
Proof. reflexivity. Qed.

Lemma result_of_emit {A} ev (r : result A) : result_of (emit ev r) = r.
Proof. reflexivity. Qed.

Lemma result_of_ret {A} (a : A) : result_of (ret a) = Ok a.
Proof. reflexivity. Qed.

Lemma bind_ret_l {A B} (a : A) (f : A -> M B) : bind (ret a) f = f a.
Proof. unfold bind, ret. destruct (f a); reflexivity. Qed.

Lemma bind_fail {A B} e (f : A -> M B) : bind (fail e) f = fail e.
Proof. reflexivity. Qed.

Lemma bind_lift_ok {A B} (a : A) (f : A -> M B) : bind (lift (Ok a)) f = f a.
Proof. apply bind_ret_l. Qed.

Lemma bind_assoc {A B C} (m : M A) (f : A -> M B) (g : B -> M C) :
  bind (bind m f) g = bind m (fun a => bind (f a) g).
Proof.
  destruct m as [t [a|e]]; simpl; auto.
  destruct (f a) as [t1 [b|e1]]; simpl; auto.
  destruct (g b) as [t2 r]. rewrite app_assoc. reflexivity.
Qed.

(** Reads the result of a run off the results of its parts. *)
Ltac run_results :=
  repeat first
    [ rewrite result_of_bind
    | rewrite result_of_wrap
    | rewrite result_of_lift
    | rewrite result_of_emit
    | rewrite result_of_ret ].

(** ** [Calculate] without a repository *)

(** C10.  [Calculate] called with a nil [Repository] fails with
    "repository is required": no pattern is compiled and no query reaches
    a repository (the record of the run is empty), and no
    [LanguageVersions] is returned.  This holds whatever the other
    options and the regular-expression engine are. *)
Theorem Calculate_nil_repository :
  forall (compile : string -> result (string -> bool))
         commitish omit prefix pre filter pattern,
    Calculate compile (mkOptions None commitish omit prefix pre filter pattern)
    = ([], Err (Errorf "repository is required")).
Proof. reflexivity. Qed.

(** ** The converter on its test cases and on short inputs *)

Lemma SplitN_3_length s : (List.length (SplitN s "." 3) <= 3)%nat.
Proof.
  unfold SplitN.
  destruct (Nat.min 3 (String.length s + 1) - 1)%nat as [|[|n]] eqn:E.
  - simpl. lia.
  - simpl. destruct (Index s "."); simpl; lia.
  - assert (n = 0)%nat by lia. subst n. simpl.
    destruct (Index s "."); simpl; try lia.
    destruct (Index _ "."); simpl; lia.
Qed.

(** C4.  [CalculateFromString "1.2.3"] is the five strings of the test
    suite, and every input that, a single leading "v" stripped, splits on
    "." into fewer than three parts fails with the "must have exactly 3
    parts" error, which carries no result. *)
Theorem CalculateFromString_three_parts :
  CalculateFromString "1.2.3"
  = Ok (mkLanguageVersions "1.2.3" "1.2.3" "v1.2.3" "1.2.3" "v1.2.3")
  /\ forall version,
      (List.length (SplitN (TrimPrefix version "v") "." 3) < 3)%nat ->
      CalculateFromString version = Err (ErrExactly3Parts version).
Proof.
  split; [reflexivity|].
  intros version H. unfold CalculateFromString.
  destruct (SplitN (TrimPrefix version "v") "." 3) as [|a [|b [|c [|d l]]]];
    simpl in H; try reflexivity; lia.
Qed.

Lemma CalculateFromString_three_parts_witness :
  (List.length (SplitN (TrimPrefix "1.2" "v") "." 3) < 3)%nat
  /\ CalculateFromString "1.2" = Err (ErrExactly3Parts "1.2").
Proof.
  split.
  - simpl. lia.
  - apply (proj2 CalculateFromString_three_parts). simpl. lia.
Defined.


(** ** The cases of the package's test suite *)

Example test_stripModuleTagPrefixes :
  stripModuleTagPrefixes "v0.0.0" = "0.0.0"
  /\ stripModuleTagPrefixes "sdk/v2.1.0" = "2.1.0"
  /\ stripModuleTagPrefixes "sdk/nodejs/v2.1.0" = "2.1.0".
Proof. repeat split; reflexivity. Qed.

Example test_CalculateFromString_v_prefix :
  CalculateFromString "v1.2.3"
  = Ok (mkLanguageVersions "1.2.3" "1.2.3" "v1.2.3" "1.2.3" "v1.2.3").
Proof. reflexivity. Qed.

Example test_CalculateFromString_prerelease :
  CalculateFromString "1.2.3-alpha.1"
  = Ok (mkLanguageVersions "1.2.3-alpha.1" "1.2.3a1" "v1.2.3-alpha.1"
                           "1.2.3-alpha.1" "v1.2.3-alpha.1").
Proof. reflexivity. Qed.

Example test_CalculateFromString_empty :
  CalculateFromString "" = Err (ErrExactly3Parts "").
Proof. reflexivity. Qed.

(** "Repo with no tags". *)
Example test_Calculate_no_tags :
  result_of (Calculate stubCompile (plainOptions oneCommit))
  = Ok (mkLanguageVersions "0.0.1-alpha.1600000000+aaaaaaaa" "0.0.1a1600000000"
                           "v0.0.1-alpha.1600000000+aaaaaaaa"
                           "0.0.1-alpha.1600000000+aaaaaaaa"
                           "v0.0.1-alpha.1600000000+aaaaaaaa").
Proof. vm_compute. reflexivity. Qed.

(** "Repo with exact tag". *)
Example test_Calculate_exact_tag :
  result_of (Calculate stubCompile (plainOptions (twoCommits "v1.0.0" hashA true)))
  = Ok (mkLanguageVersions "1.0.0" "1.0.0" "v1.0.0" "1.0.0" "v1.0.0").
Proof. vm_compute. reflexivity. Qed.

(** "Repo with commit after tag". *)
Example test_Calculate_commit_after_tag :
  result_of (Calculate stubCompile (plainOptions (twoCommits "v1.0.0" hashB true)))
  = Ok (mkLanguageVersions "1.1.0-alpha.1700000000+bbbbbbbb" "1.1.0a1700000000"
                           "v1.1.0-alpha.1700000000+bbbbbbbb"
                           "1.1.0-alpha.1700000000+bbbbbbbb"
                           "v1.1.0-alpha.1700000000+bbbbbbbb").
Proof. vm_compute. reflexivity. Qed.

(** "Repo with pre-release tag". *)
Example test_Calculate_prerelease_tag :
  result_of (Calculate stubCompile
               (mkOptions (Some (twoCommits "v1.0.0-alpha.1" hashA true)) "HEAD"
                          false "" true None ""))
  = Ok (mkLanguageVersions "1.0.0-alpha.1" "1.0.0a1" "v1.0.0-alpha.1"
                           "1.0.0-alpha.1" "v1.0.0-alpha.1").
Proof. vm_compute. reflexivity. Qed.

(** "Repo with release prefix override". *)
Example test_Calculate_release_prefix :
  result_of (Calculate stubCompile
               (withReleasePrefix (plainOptions oneCommit) "2.0.0"))
  = Ok (mkLanguageVersions "2.0.0-alpha.1600000000+aaaaaaaa" "2.0.0a1600000000"
                           "v2.0.0-alpha.1600000000+aaaaaaaa"
                           "2.0.0-alpha.1600000000+aaaaaaaa"
                           "v2.0.0-alpha.1600000000+aaaaaaaa").
Proof. vm_compute. reflexivity. Qed.

(** "Invalid tag pattern". *)
Example test_Calculate_invalid_pattern :
  result_of (Calculate stubCompile badPatternOnly)
  = Err (Wrapf "invalid tag pattern"
               (Errorf "error parsing regexp: missing closing ]")).
Proof. reflexivity. Qed.

Example test_GenerateFallbackVersion :
  GenerateFallbackVersion
  = mkLanguageVersions "0.0.0-dev" "0.0.0.dev0" "v0.0.0-dev" "0.0.0-dev"
                       "v0.0.0-dev".
Proof. reflexivity. Qed.


(** ** Tag filter and tag pattern *)

(** An ill-formed pattern is not looked at when a filter is supplied too:
    the call succeeds.  (And with neither a filter nor a pattern, no
    filter is in force.) *)
Lemma invalid_pattern_ignored_with_filter :
  is_ok (stubCompile (TagPattern filterAndBadPattern)) = false
  /\ result_of (Calculate stubCompile filterAndBadPattern)
     = Ok (mkLanguageVersions "1.0.0" "1.0.0" "v1.0.0" "1.0.0" "v1.0.0")
  /\ ~ In (EvRegexpCompile "[invalid regex")
          (trace_of (Calculate stubCompile filterAndBadPattern))
  /\ activeFilter stubCompile (plainOptions (twoCommits "v1.0.0" hashA true))
     = Ok None.
Proof.
  split; [reflexivity|]. split; [vm_compute; reflexivity|].
  split; [|reflexivity].
  vm_compute. intros H.
  repeat (destruct H as [H|H]; [discriminate H|]). exact H.
Qed.

(** C8, as the code has it.  For options with a repository:
    - a supplied [TagFilter] is the filter in force, and [TagPattern] is
      then not compiled, be it well formed or not;
    - without a filter and without a pattern the engine is not consulted
      and no filter is in force;
    - without a filter, a well-formed pattern is compiled first and is the
      filter in force;
    - without a filter, an ill-formed pattern makes the call fail with
      "invalid tag pattern", and the compilation is all that has happened:
      no query has reached the repository. *)
Theorem Calculate_filter_or_pattern :
  forall compile opts repo,
    Repository opts = Some repo ->
    (forall f, TagFilter opts = Some f ->
       forall compile' pattern',
         Calculate compile opts = Calculate compile' (withTagPattern opts pattern'))
    /\ (TagFilter opts = None -> TagPattern opts = "" ->
        forall compile', Calculate compile opts = Calculate compile' opts)
    /\ (TagFilter opts = None -> TagPattern opts <> "" ->
        forall re, compile (TagPattern opts) = Ok re ->
          Calculate compile opts
          = after (EvRegexpCompile (TagPattern opts))
                  (Calculate compile (withTagFilter opts (Some re))))
    /\ (TagFilter opts = None -> TagPattern opts <> "" ->
        forall e, compile (TagPattern opts) = Err e ->
          Calculate compile opts
          = ([EvRegexpCompile (TagPattern opts)],
             Err (Wrapf "invalid tag pattern" e))).
Proof.
  intros compile [r c o p i f pat] repo Hrepo. simpl in Hrepo. subst r.
  unfold Calculate, withTagPattern, withTagFilter. simpl.
  repeat split.
  - intros g Hg compile' pattern'. subst f.
    destruct (String.eqb c ""); simpl;
      rewrite !andb_false_r, !bind_ret_l; reflexivity.
  - intros Hf Hp compile'. subst f pat.
    destruct (String.eqb c ""); reflexivity.
  - intros Hf Hp re Hre. subst f.
    apply String.eqb_neq in Hp.
    destruct (String.eqb c ""); simpl; rewrite Hp, Hre; simpl;
      destruct (getVersionComponents _) as [t [a|e]]; reflexivity.
  - intros Hf Hp e He. subst f.
    apply String.eqb_neq in Hp.
    destruct (String.eqb c ""); simpl; rewrite Hp, He; reflexivity.
Qed.

Lemma Calculate_filter_or_pattern_witness :
  Calculate stubCompile badPatternOnly
  = ([EvRegexpCompile "[invalid regex"],
     Err (Wrapf "invalid tag pattern"
                (Errorf "error parsing regexp: missing closing ]"))).
Proof.
  refine (proj2 (proj2 (proj2
            (@Calculate_filter_or_pattern stubCompile badPatternOnly
               (twoCommits "v1.0.0" hashA true) eq_refl))) eq_refl _ _ eq_refl).
  discriminate.
Defined.


(** ** The version bumper *)

(** What [getVersionComponents] returns once its queries have answered. *)
Lemma getVersionComponents_result :
  forall opts repo revision commit base isExact v d,
    Repository opts = Some repo ->
    revisions repo (Commitish opts) = Ok revision ->
    lookupObject (objects repo) revision = Some commit ->
    result_of (determineBaseVersion repo revision (IsPreRelease opts)
                                    (TagFilter opts)) = Ok (base, isExact) ->
    Parse base = Ok v ->
    result_of (workTreeIsDirty repo) = Ok d ->
    result_of (getVersionComponents opts)
    = rbind (if String.eqb (ReleasePrefix opts) "" then
               Ok (if negb isExact then bumpVersion v else v)
             else
               rbind (rwrap (ErrParsingReleasePrefix (ReleasePrefix opts))
                            (Parse (ReleasePrefix opts)))
                     (fun nv =>
                        let v' := if negb isExact then bumpVersion v else v in
                        Ok (mkVersion (Major nv) (Minor nv) (Patch nv)
                                      (Pre v') (Build v'))))
            (fun version =>
               Ok (mkVersionComponents version d (take 8 revision)
                                       (CommitterWhen commit) isExact)).
Proof.
  intros opts repo revision commit base isExact v d Hrepo Hrev Hobj Hbase Hparse Hdirty.
  unfold getVersionComponents. rewrite Hrepo.
  run_results. unfold ResolveRevision, CommitObject. run_results.
  rewrite Hrev. cbn [rwrap]. run_results.
  rewrite Hobj. cbn [rwrap]. run_results.
  rewrite Hbase. cbn [rwrap]. run_results.
  rewrite Hparse. cbn [rwrap].
  destruct (String.eqb (ReleasePrefix opts) "").
  - run_results. rewrite Hdirty. reflexivity.
  - run_results. destruct (Parse (ReleasePrefix opts)) as [nv|e]; cbn [rwrap rbind].
    + run_results. rewrite Hdirty. reflexivity.
    + reflexivity.
Qed.

(** A base version whose patch is the largest [uint64], on an ancestor of
    the commit: the bump wraps the patch to 0. *)
Lemma bump_wraps_at_uint64_max :
  Parse "0.0.18446744073709551615"
  = Ok (mkVersion 0 0 18446744073709551615 [] [])
  /\ result_of (determineBaseVersion
                  (twoCommits "v0.0.18446744073709551615" hashB true)
                  hashB false None)
     = Ok ("0.0.18446744073709551615", false)
  /\ result_of (getVersionComponents
                  (plainOptions (twoCommits "v0.0.18446744073709551615" hashB true)))
     = Ok (mkVersionComponents (mkVersion 0 0 0 alphaPre [])
                               false "bbbbbbbb" 1700000000 false)
  /\ Patch (mkVersion 0 0 0 alphaPre [])
     <> (Patch (mkVersion 0 0 18446744073709551615 [] []) + 1)%N.
Proof. repeat split; try (vm_compute; reflexivity). discriminate. Qed.

(** C1, as the code has it.  Once the base version has been parsed: for a
    commit that is not an exact match, a major of 0 leaves major and minor
    alone and increments the patch, and any other major is kept, the minor
    is incremented and the patch becomes 0; the increments are those of a
    [uint64], so modulo 2^64, which is the plain successor below the
    largest [uint64]; the prerelease becomes the single identifier alpha.
    For an exact match the parsed version is returned as it is.  (No
    release prefix is given.) *)
Theorem bump_policy :
  forall opts repo revision commit base isExact v d,
    Repository opts = Some repo ->
    ReleasePrefix opts = "" ->
    revisions repo (Commitish opts) = Ok revision ->
    lookupObject (objects repo) revision = Some commit ->
    result_of (determineBaseVersion repo revision (IsPreRelease opts)
                                    (TagFilter opts)) = Ok (base, isExact) ->
    Parse base = Ok v ->
    result_of (workTreeIsDirty repo) = Ok d ->
    exists c,
      result_of (getVersionComponents opts) = Ok c
      /\ IsExact c = isExact
      /\ (isExact = true -> Semver c = v)
      /\ (isExact = false ->
          Pre (Semver c) = [mkPR "alpha" 0 false]
          /\ Major (Semver c) = Major v
          /\ (Major v = 0%N ->
              Minor (Semver c) = Minor v
              /\ Patch (Semver c) = wrap64 (Patch v + 1)
              /\ ((Patch v < uint64_max)%N ->
                  Patch (Semver c) = (Patch v + 1)%N))
          /\ ((1 <= Major v)%N ->
              Minor (Semver c) = wrap64 (Minor v + 1)
              /\ Patch (Semver c) = 0%N
              /\ ((Minor v < uint64_max)%N ->
                  Minor (Semver c) = (Minor v + 1)%N))).
Proof.
  intros opts repo revision commit base isExact v d
         Hrepo Hprefix Hrev Hobj Hbase Hparse Hdirty.
  rewrite (getVersionComponents_result _ _ _ _ _ _ _ _ Hrepo Hrev Hobj Hbase Hparse Hdirty).
  rewrite Hprefix. simpl.
  eexists. split; [reflexivity|]. simpl.
  split; [reflexivity|]. split.
  - intros ->. reflexivity.
  - intros ->. simpl. unfold bumpVersion.
    assert (W : forall n, (n < uint64_max)%N -> wrap64 (n + 1) = (n + 1)%N).
    { intros n Hn. unfold wrap64. apply N.mod_small.
      unfold uint64_max in Hn. change (2 ^ 64)%N with 18446744073709551616%N. lia. }
    destruct (N.eqb_spec (Major v) 0) as [E|E]; simpl.
    + repeat split; auto; lia.
    + repeat split; auto; lia.
Qed.

Lemma bump_policy_witness :
  exists c,
    result_of (getVersionComponents (plainOptions (twoCommits "v1.0.0" hashB true)))
    = Ok c
    /\ IsExact c = false
    /\ Semver c = mkVersion 1 1 0 alphaPre [].
Proof.
  destruct (@bump_policy (plainOptions (twoCommits "v1.0.0" hashB true))
              (twoCommits "v1.0.0" hashB true) hashB
              (mkCommit hashB [hashA] 1700000000) "1.0.0" false
              (mkVersion 1 0 0 [] []) false
              eq_refl eq_refl eq_refl eq_refl eq_refl eq_refl eq_refl)
    as [c [Hc [Hex [_ Hbump]]]].
  exists c. split; [exact Hc|]. split; [exact Hex|].
  destruct (Hbump eq_refl) as [Hpre [Hmaj [_ Hge1]]].
  destruct (Hge1 ltac:(simpl; lia)) as [Hmin [Hpat _]].
  destruct c as [[ma mi pa pr bu] dd sh ts ex]. simpl in *.
  vm_compute in Hc. injection Hc as <- <- <- <- <- <- <- <- <-.
  reflexivity.
Defined.

(** ** The release prefix *)

(** C7.  When a release prefix is supplied and parses, the components are
    those computed without it, with major, minor and patch replaced by the
    triple of the prefix: whether or not the match was exact, and leaving
    the prerelease that the bump step produced and the dirty flag as they
    are without a prefix.  The queries issued are the same. *)
Theorem release_prefix_override :
  forall opts nv,
    ReleasePrefix opts <> "" ->
    Parse (ReleasePrefix opts) = Ok nv ->
    getVersionComponents opts
    = mapM (overrideTriple nv) (getVersionComponents (withReleasePrefix opts ""))
    /\ forall c0,
        result_of (getVersionComponents (withReleasePrefix opts "")) = Ok c0 ->
        exists c,
          result_of (getVersionComponents opts) = Ok c
          /\ Major (Semver c) = Major nv
          /\ Minor (Semver c) = Minor nv
          /\ Patch (Semver c) = Patch nv
          /\ Pre (Semver c) = Pre (Semver c0)
          /\ Dirty c = Dirty c0
          /\ IsExact c = IsExact c0.
Proof.
  intros opts nv Hne Hparse.
  assert (E : getVersionComponents opts
              = mapM (overrideTriple nv)
                     (getVersionComponents (withReleasePrefix opts ""))).
  { apply String.eqb_neq in Hne.
    unfold getVersionComponents, withReleasePrefix.
    cbn [Repository Commitish IsPreRelease TagFilter ReleasePrefix].
    destruct (Repository opts) as [repo|]; [|reflexivity].
    rewrite Hne, Hparse. cbn [rwrap String.eqb].
    unfold ResolveRevision, CommitObject, emit, wrap. cbn [fst snd].
    destruct (revisions repo (Commitish opts)) as [revision|e1]; [|reflexivity].
    cbn [rwrap bind].
    destruct (lookupObject (objects repo) revision) as [commit|]; [|reflexivity].
    cbn [rwrap bind].
    destruct (determineBaseVersion _ _ _ _) as [t3 [[base isExact]|e3]];
      [|reflexivity].
    cbn [rwrap bind fst snd].
    destruct (Parse base) as [v|e4]; [|reflexivity].
    cbn [rwrap bind fst snd lift ret].
    destruct (workTreeIsDirty repo) as [t5 [d|e5]]; reflexivity. }
  split; [exact E|].
  intros c0 Hc0. rewrite E. unfold mapM, result_of in *. simpl.
  rewrite Hc0. eexists. split; [reflexivity|]. simpl. repeat split.
Qed.

Lemma release_prefix_override_witness :
  getVersionComponents
    (withReleasePrefix (plainOptions (twoCommits "v1.0.0" hashB true)) "2.0.0")
  = mapM (overrideTriple (mkVersion 2 0 0 [] []))
         (getVersionComponents (plainOptions (twoCommits "v1.0.0" hashB true))).
Proof.
  refine (proj1 (@release_prefix_override
                   (withReleasePrefix (plainOptions (twoCommits "v1.0.0" hashB true)) "2.0.0")
                   (mkVersion 2 0 0 [] []) _ eq_refl)).
  discriminate.
Defined.


(** ** The formatter's prerelease suffix *)

Lemma drop_1_dot s : drop 1 ("." ++ s) = s.
Proof. reflexivity. Qed.

(** The two strings the formatter builds for a prerelease of a known
    kind: the suffix is never empty, because a single prerelease
    identifier is first given a second one whose number is 0. *)
Lemma buildPreVersionStrings_of_components :
  forall components opts pre0 rest kind pk,
    Pre (Semver components) = pre0 :: rest ->
    VersionStr pre0 = kind ->
    In (kind, pk) prereleaseKinds ->
    buildPreVersionStrings (genericVersionOf components) components opts
    = Ok ("-" ++ kind ++ preSuffixOf components ++ shortHashOf components opts,
          pk ++ drop 1 (preSuffixOf components)).
Proof.
  intros components opts pre0 rest kind pk Hpre Hkind Hin.
  unfold buildPreVersionStrings, genericVersionOf, preSuffixOf, shortHashOf.
  rewrite Hpre. cbn [Pre].
  assert (E : match rest with
              | [] => [pre0; mkPR (FormatInt (Timestamp components)) 0 false]
              | _ :: _ => pre0 :: rest
              end
              = pre0 :: match rest with
                        | [] => [mkPR (FormatInt (Timestamp components)) 0 false]
                        | _ :: _ => rest
                        end) by (destruct rest; reflexivity).
  rewrite E. clear E. rewrite Hkind.
  set (sfx := if negb (IsExact components) then _ else _).
  set (sfx' := if negb (IsExact components) then _ else _).
  assert (Es : sfx = sfx').
  { unfold sfx, sfx'. destruct (IsExact components); cbn [negb]; [|reflexivity].
    destruct rest; reflexivity. }
  assert (En : String.eqb sfx "" = false).
  { rewrite Es. unfold sfx'. destruct (IsExact components); cbn [negb].
    - destruct rest; reflexivity.
    - reflexivity. }
  rewrite En, Es.
  simpl in Hin.
  destruct Hin as [H|[H|[H|[H|[]]]]]; injection H as <- <-; reflexivity.
Qed.

(** The parts of the suffix rule that hold: not exact, the suffix is a dot
    and the commit's Unix time; exact with a second, numeric identifier,
    a dot and that number. *)
Lemma preSuffix_not_exact components :
  IsExact components = false ->
  preSuffixOf components = "." ++ FormatInt (Timestamp components).
Proof. unfold preSuffixOf. intros ->. reflexivity. Qed.

Lemma preSuffix_exact_ordinal components pre0 n rest :
  IsExact components = true ->
  Pre (Semver components) = pre0 :: mkPR "" n true :: rest ->
  preSuffixOf components = "." ++ FormatUint n.
Proof. unfold preSuffixOf. intros -> ->. reflexivity. Qed.

(** The part that does not: exact with a single identifier, the suffix is
    ".0", not empty. *)
Lemma preSuffix_exact_single components pre0 :
  IsExact components = true ->
  Pre (Semver components) = [pre0] ->
  preSuffixOf components = ".0".
Proof. unfold preSuffixOf. intros -> ->. reflexivity. Qed.

(** C6, at the input where the code leaves it.  A commit that carries the
    exact tag v1.2.3-alpha, a prerelease of one identifier: the match is
    exact, and the generic string is 1.2.3-alpha.0 followed by the hash,
    where an empty suffix would give 1.2.3-alpha followed by the hash. *)
Theorem exact_single_prerelease_gets_zero :
  result_of (determineBaseVersion (twoCommits "v1.2.3-alpha" hashA true)
                                  hashA false None)
  = Ok ("1.2.3-alpha", true)
  /\ result_of (Calculate stubCompile
                  (plainOptions (twoCommits "v1.2.3-alpha" hashA true)))
     = Ok (mkLanguageVersions "1.2.3-alpha.0+aaaaaaaa" "1.2.3a0"
                              "v1.2.3-alpha.0+aaaaaaaa"
                              "1.2.3-alpha.0+aaaaaaaa"
                              "v1.2.3-alpha.0+aaaaaaaa").
Proof. split; vm_compute; reflexivity. Qed.


(** ** Strings: slicing, searching, splitting *)

Lemma length_app (a b : string) :
  String.length (a ++ b) = (String.length a + String.length b)%nat.
Proof. induction a; simpl; auto. Qed.

Lemma app_assoc_s (a b c : string) : (a ++ b) ++ c = a ++ (b ++ c).
Proof. induction a; simpl; congruence. Qed.

Lemma app_nil_r_s (a : string) : a ++ "" = a.
Proof. induction a; simpl; congruence. Qed.

Lemma take_app (a b : string) : take (String.length a) (a ++ b) = a.
Proof. induction a; simpl; [destruct b; reflexivity | congruence]. Qed.

Lemma drop_app (a b : string) : drop (String.length a) (a ++ b) = b.
Proof. induction a; simpl; auto. Qed.

Lemma forallb_app p (a b : string) :
  forallb p (a ++ b) = forallb p a && forallb p b.
Proof. induction a; simpl; auto. rewrite IHa, andb_assoc. reflexivity. Qed.

Lemma forallb_impl (p q : ascii -> bool) s :
  (forall c, p c = true -> q c = true) ->
  forallb p s = true -> forallb q s = true.
Proof.
  intros Hpq. induction s; simpl; auto.
  intros H. apply andb_true_iff in H as [H1 H2].
  rewrite (Hpq _ H1), (IHs H2). reflexivity.
Qed.

Lemma isNumber_digits s : isNumber s = true -> forallb isDigit s = true.
Proof. unfold isNumber. intros H. apply andb_true_iff in H. tauto. Qed.

Lemma isNumber_cons s :
  isNumber s = true ->
  exists c s', s = String c s' /\ isDigit c = true /\ forallb isDigit s' = true.
Proof.
  unfold isNumber. destruct s as [|c s']; simpl; [discriminate|].
  intros H. apply andb_true_iff in H. exists c, s'. tauto.
Qed.

(** A digit is none of the other characters the package looks for. *)
Lemma isDigit_not c d :
  isDigit c = true -> isDigit d = false -> Ascii.eqb c d = false.
Proof.
  intros Hc Hd. destruct (Ascii.eqb_spec c d); [congruence | reflexivity].
Qed.

Lemma digits_notChar d s :
  isDigit d = false -> forallb isDigit s = true -> notChar d s = true.
Proof.
  intros Hd. unfold notChar. apply forallb_impl.
  intros c Hc. rewrite (isDigit_not _ _ Hc Hd). reflexivity.
Qed.

Lemma isDigit_isWord c : isDigit c = true -> isWord c = true.
Proof. unfold isWord. intros ->. reflexivity. Qed.

Lemma takeWhile_all p s : forallb p s = true -> takeWhile p s = s.
Proof.
  induction s; simpl; auto. intros H. apply andb_true_iff in H as [H1 H2].
  rewrite H1, (IHs H2). reflexivity.
Qed.

Lemma dropWhile_all p s : forallb p s = true -> dropWhile p s = "".
Proof.
  induction s; simpl; auto. intros H. apply andb_true_iff in H as [H1 H2].
  rewrite H1. auto.
Qed.

Lemma takeWhile_app p a c b :
  forallb p a = true -> p c = false -> takeWhile p (a ++ String c b) = a.
Proof.
  intros Ha Hc. induction a; simpl in *.
  - rewrite Hc. reflexivity.
  - apply andb_true_iff in Ha as [H1 H2]. rewrite H1, (IHa H2). reflexivity.
Qed.

Lemma dropWhile_app p a c b :
  forallb p a = true -> p c = false ->
  dropWhile p (a ++ String c b) = String c b.
Proof.
  intros Ha Hc. induction a; simpl in *.
  - rewrite Hc. reflexivity.
  - apply andb_true_iff in Ha as [H1 H2]. rewrite H1. auto.
Qed.

(** [HasPrefix] with a one-byte prefix. *)
Lemma HasPrefix_char c d s :
  HasPrefix (String c s) (String d "") = Ascii.eqb d c.
Proof.
  unfold HasPrefix. simpl.
  destruct (ascii_dec d c) as [E|E].
  - subst. rewrite Ascii.eqb_refl. destruct s; reflexivity.
  - symmetry. apply Ascii.eqb_neq. exact E.
Qed.

(** The first separator of [a ++ sep ++ b] when [a] has none. *)
Lemma Index_char_app c a b :
  notChar c a = true ->
  Index (a ++ String c b) (String c "") = Some (String.length a).
Proof.
  unfold notChar. induction a as [|x a IH]; intros Ha.
  - cbn [append Index]. rewrite HasPrefix_char, Ascii.eqb_refl. reflexivity.
  - cbn [append Index]. rewrite HasPrefix_char.
    cbn [forallb] in Ha. apply andb_true_iff in Ha as [H1 H2].
    apply negb_true_iff in H1. rewrite Ascii.eqb_sym, H1.
    rewrite (IH H2). reflexivity.
Qed.


(** Splitting [a.b.rest] in three. *)
Lemma SplitN_3 a b rest :
  notChar "." a = true -> notChar "." b = true ->
  SplitN (a ++ "." ++ b ++ "." ++ rest) "." 3 = [a; b; rest].
Proof.
  intros Ha Hb. unfold SplitN.
  assert (L : (Nat.min 3 (String.length (a ++ "." ++ b ++ "." ++ rest) + 1) - 1
               = 2)%nat).
  { rewrite !length_app. cbn [String.length]. lia. }
  rewrite L. cbn [genSplit].
  change ("." ++ b ++ "." ++ rest) with (String "." (b ++ "." ++ rest)).
  rewrite (Index_char_app _ _ _ Ha).
  rewrite take_app.
  replace (String.length a + String.length ".")%nat
    with (String.length (a ++ ".")) by (rewrite length_app; reflexivity).
  replace (a ++ String "." (b ++ "." ++ rest))
    with ((a ++ ".") ++ (b ++ "." ++ rest))
    by (rewrite app_assoc_s; reflexivity).
  rewrite drop_app.
  change ("." ++ rest) with (String "." rest).
  rewrite (Index_char_app _ _ _ Hb), take_app.
  replace (String.length b + String.length ".")%nat
    with (String.length (b ++ ".")) by (rewrite length_app; reflexivity).
  replace (b ++ String "." rest) with ((b ++ ".") ++ rest)
    by (rewrite app_assoc_s; reflexivity).
  rewrite drop_app. reflexivity.
Qed.

Lemma TrimPrefix_v_digit c s :
  isDigit c = true -> TrimPrefix (String c s) "v" = String c s.
Proof.
  intros Hc. unfold TrimPrefix. rewrite HasPrefix_char.
  rewrite Ascii.eqb_sym, (isDigit_not _ "v" Hc); reflexivity.
Qed.


(** ** The PEP440 conversion of a prerelease with an ordinal *)

Lemma isDigit_newline : isDigit newline = false.
Proof. reflexivity. Qed.

(** No text of digits holds the word "dirty". *)
Lemma Index_dirty_digits s :
  forallb isDigit s = true -> Index s "dirty" = None.
Proof.
  induction s as [|c s IH]; intros H; [reflexivity|].
  cbn [forallb] in H. apply andb_true_iff in H as [Hc Hs].
  cbn [Index]. rewrite (IH Hs).
  unfold HasPrefix. cbn [String.prefix].
  destruct (ascii_dec "d" c) as [E|E]; [|reflexivity].
  subst c. discriminate Hc.
Qed.

(** A text without a plus sign holds no hash token. *)
Lemma hashRe_none s n :
  notChar "+" s = true -> hashRe_FindAllString s n = [].
Proof.
  unfold notChar. revert n. induction s as [|c s IH]; intros n H.
  - destruct n; reflexivity.
  - cbn [forallb] in H. apply andb_true_iff in H as [Hc Hs].
    apply negb_true_iff in Hc.
    destruct n as [|n]; [reflexivity|].
    cbn [hashRe_FindAllString].
    assert (E : hashRe_matchHere (String c s) = false).
    { unfold hashRe_matchHere.
      destruct (Ascii.eqb_spec c "+") as [->|Hne]; [discriminate Hc|].
      destruct c as [[] [] [] [] [] [] [] []]; try reflexivity.
      exfalso. apply Hne. reflexivity. }
    rewrite E. apply IH. exact Hs.
Qed.

(** The ordinal of ".n". *)
Lemma numRe_dot_number n :
  isNumber n = true -> numRe_FindStringSubmatch (String "." n) = Some n.
Proof.
  intros Hn. pose proof (isNumber_digits _ Hn) as Hd.
  destruct (isNumber_cons _ Hn) as [c [n' [-> _]]].
  cbn [numRe_FindStringSubmatch].
  unfold numRe_matchHere.
  change (isWord ".") with false. cbv iota.
  rewrite (takeWhile_all _ _ Hd), (dropWhile_all _ _ Hd). reflexivity.
Qed.

(** The back-conversion, stage by stage: the kind is split off, then the
    word "dirty" is deleted, then the hash, and the ordinal is read from
    what is left. *)
Lemma getPythonPreVersion_stages pre prefix remaining :
  String.eqb pre "" = false ->
  getPythonPrePrefix pre = (prefix, remaining) ->
  getPythonPreVersion pre
  = Ok (pep440Assemble prefix (Contains pre "dirty")
          (pep440Ordinal
             (stripHash (if Contains pre "dirty"
                         then ReplaceFirst remaining "dirty"
                         else remaining)))).
Proof.
  intros Hne Hpre. unfold getPythonPreVersion. rewrite Hne, Hpre.
  unfold pep440Assemble, pep440Ordinal, stripHash.
  destruct (Contains pre "dirty");
    destruct (hashRe_FindAllString _ 5); destruct (String.eqb prefix "");
    cbn [append]; rewrite ?app_nil_r_s; reflexivity.
Qed.

Lemma Contains_cons c s old :
  HasPrefix (String c s) old = false ->
  Contains (String c s) old = Contains s old.
Proof.
  intros H. unfold Contains. cbn [Index]. rewrite H.
  destruct (Index s old); reflexivity.
Qed.

Lemma stripHash_none s : notChar "+" s = true -> stripHash s = s.
Proof. intros H. unfold stripHash. rewrite (hashRe_none _ _ H). reflexivity. Qed.

(** The back-conversion of "-kind.n". *)
Lemma getPythonPreVersion_kind_ordinal kind pk n :
  In (kind, pk) prereleaseKinds ->
  isNumber n = true ->
  getPythonPreVersion ("-" ++ kind ++ "." ++ n) = Ok (pk ++ n).
Proof.
  intros Hin Hn. pose proof (isNumber_digits _ Hn) as Hd.
  assert (Hplus : notChar "+" (String "." n) = true).
  { unfold notChar. cbn [forallb]. apply andb_true_iff. split; [reflexivity|].
    apply (digits_notChar "+"); [reflexivity | exact Hd]. }
  assert (Hdirty : Contains n "dirty" = false).
  { unfold Contains. rewrite (Index_dirty_digits _ Hd). reflexivity. }
  simpl in Hin.
  destruct Hin as [H|[H|[H|[H|[]]]]]; injection H as <- <-;
    cbn [append];
    (erewrite getPythonPreVersion_stages; [|reflexivity|reflexivity]);
    cbn [drop];
    repeat (rewrite Contains_cons by reflexivity);
    rewrite Hdirty, (stripHash_none _ Hplus);
    unfold pep440Ordinal; rewrite (numRe_dot_number _ Hn);
    unfold pep440Assemble; cbn [String.eqb Ascii.eqb Bool.eqb append];
    rewrite app_nil_r_s; reflexivity.
Qed.

(** The patch expression on "Z-rest". *)
Lemma patchRe_number_dash Z rest :
  isNumber Z = true ->
  notChar newline rest = true ->
  patchRe_FindStringSubmatch (Z ++ String "-" rest) = Some (Z, String "-" rest).
Proof.
  intros HZ Hrest. pose proof (isNumber_digits _ HZ) as Hd.
  unfold patchRe_FindStringSubmatch.
  rewrite (takeWhile_app _ _ _ _ Hd) by reflexivity.
  rewrite (dropWhile_app _ _ _ _ Hd) by reflexivity.
  destruct (isNumber_cons _ HZ) as [c [Z' [-> _]]].
  cbn [forallb]. change (negb (Ascii.eqb "-" newline)) with true.
  cbn [andb]. unfold notChar in Hrest. rewrite Hrest. reflexivity.
Qed.

(** C3.  For every version string X.Y.Z-kind.n, with X, Y, Z and n decimal
    numbers and kind one of dev, alpha, beta, rc, [CalculateFromString]
    succeeds and its PEP440 string is X.Y.Z followed by the token of the
    kind (dev, a, b, rc) and by n as written; the other four strings keep
    the input.  In particular 1.2.3-alpha.1 gives 1.2.3a1, 1.2.3-beta.2
    gives 1.2.3b2 and 1.2.3-rc.1 gives 1.2.3rc1. *)
Theorem pep440_kind_and_ordinal :
  (forall X Y Z n kind pk,
      isNumber X = true -> isNumber Y = true -> isNumber Z = true ->
      isNumber n = true ->
      In (kind, pk) prereleaseKinds ->
      let v := X ++ "." ++ Y ++ "." ++ Z ++ "-" ++ kind ++ "." ++ n in
      CalculateFromString v
      = Ok (mkLanguageVersions v (X ++ "." ++ Y ++ "." ++ Z ++ pk ++ n)
                               ("v" ++ v) v ("v" ++ v)))
  /\ Python_of "1.2.3-alpha.1" = Some "1.2.3a1"
  /\ Python_of "1.2.3-beta.2" = Some "1.2.3b2"
  /\ Python_of "1.2.3-rc.1" = Some "1.2.3rc1".
Proof.
  split; [|repeat split; reflexivity].
  intros X Y Z n kind pk HX HY HZ Hn Hin v.
  pose proof (isNumber_digits _ HX) as HdX.
  pose proof (isNumber_digits _ HY) as HdY.
  pose proof (isNumber_digits _ Hn) as Hdn.
  unfold CalculateFromString.
  assert (Etrim : TrimPrefix v "v" = v).
  { unfold v. destruct (isNumber_cons _ HX) as [c [X' [-> [Hc _]]]].
    apply TrimPrefix_v_digit. exact Hc. }
  rewrite Etrim. unfold v.
  rewrite SplitN_3
    by (apply digits_notChar; [reflexivity | assumption]).
  assert (Hrest : notChar newline (kind ++ "." ++ n) = true).
  { unfold notChar. rewrite forallb_app. apply andb_true_iff. split.
    - simpl in Hin.
      destruct Hin as [H|[H|[H|[H|[]]]]]; injection H as <- <-; reflexivity.
    - cbn [append forallb]. apply andb_true_iff. split; [reflexivity|].
      apply (digits_notChar newline); [reflexivity | exact Hdn]. }
  change ("-" ++ kind ++ "." ++ n) with (String "-" (kind ++ "." ++ n)).
  unfold convertPatchToPython.
  rewrite (patchRe_number_dash _ _ HZ Hrest).
  change (String "-" (kind ++ "." ++ n)) with ("-" ++ kind ++ "." ++ n).
  rewrite (getPythonPreVersion_kind_ordinal _ _ _ Hin Hn).
  reflexivity.
Qed.

Lemma pep440_kind_and_ordinal_witness :
  CalculateFromString "10.20.30-beta.42"
  = Ok (mkLanguageVersions "10.20.30-beta.42" "10.20.30b42"
                           "v10.20.30-beta.42" "10.20.30-beta.42"
                           "v10.20.30-beta.42").
Proof.
  refine (proj1 pep440_kind_and_ordinal "10" "20" "30" "42" "beta" "b"
                eq_refl eq_refl eq_refl eq_refl _).
  simpl. tauto.
Defined.


(** ** The hash stage of the back-conversion *)

(** Two hash tokens in one tail: only the last one is deleted, and the
    digits of the first are read as the ordinal. *)
Lemma first_of_two_hashes_read_as_ordinal :
  isShortHash "11111111" = true
  /\ hashRe_FindAllString "+11111111+22222222" 5 = ["+11111111"; "+22222222"]
  /\ getPythonPreVersion "-rc+11111111+22222222" = Ok "rc11111111"
  /\ Python_of "1.2.3-rc+11111111+22222222" = Some "1.2.3rc11111111".
Proof. repeat split; reflexivity. Qed.

Lemma HasPrefix_app p t : HasPrefix (p ++ t) p = true.
Proof.
  unfold HasPrefix. induction p as [|c p IH]; cbn [append String.prefix].
  - destruct t; reflexivity.
  - destruct (ascii_dec c c); [exact IH | congruence].
Qed.

Lemma HasPrefix_cons_ne c s d old :
  Ascii.eqb c d = false -> HasPrefix (String c s) (String d old) = false.
Proof.
  intros H. unfold HasPrefix. cbn [String.prefix].
  destruct (ascii_dec d c) as [E|E]; [|reflexivity].
  subst. rewrite Ascii.eqb_refl in H. discriminate.
Qed.

(** A separator that does not occur in [old] cuts every occurrence. *)
Lemma HasPrefix_sep old a x c :
  notChar x old = true ->
  HasPrefix (a ++ String x c) old = HasPrefix a old.
Proof.
  unfold notChar, HasPrefix. revert a.
  induction old as [|o old IH]; intros a Hx.
  - destruct a; reflexivity.
  - cbn [forallb] in Hx. apply andb_true_iff in Hx as [Ho Hold].
    apply negb_true_iff in Ho.
    destruct a as [|y a]; cbn [append String.prefix].
    + destruct (ascii_dec o x) as [E|E]; [|reflexivity].
      subst. rewrite Ascii.eqb_refl in Ho. discriminate.
    + destruct (ascii_dec o y); [apply IH; exact Hold | reflexivity].
Qed.

Lemma HasPrefix_sep_head old x c :
  old <> "" -> notChar x old = true -> HasPrefix (String x c) old = false.
Proof.
  intros Hne Hx. change (String x c) with ("" ++ String x c).
  rewrite (HasPrefix_sep _ _ _ _ Hx). destruct old; [congruence | reflexivity].
Qed.

Lemma Contains_false_Index s old : Contains s old = false -> Index s old = None.
Proof. unfold Contains. destruct (Index s old); [discriminate | reflexivity]. Qed.

Lemma Contains_false_head s old : Contains s old = false -> HasPrefix s old = false.
Proof.
  unfold Contains. destruct s; cbn [Index];
    destruct (HasPrefix _ old); [discriminate | reflexivity | discriminate | reflexivity].
Qed.

Lemma Contains_false_tail c s old :
  Contains (String c s) old = false -> Contains s old = false.
Proof.
  unfold Contains. cbn [Index]. destruct (HasPrefix _ old); [discriminate|].
  destruct (Index s old); [discriminate | reflexivity].
Qed.

Lemma Contains_sep old a x c :
  old <> "" -> notChar x old = true -> Contains a old = false ->
  Contains (a ++ String x c) old = Contains c old
  /\ ReplaceFirst (a ++ String x c) old = a ++ String x (ReplaceFirst c old).
Proof.
  intros Hne Hx. induction a as [|y a IH]; intros Ha.
  - cbn [append]. split.
    + apply Contains_cons. apply HasPrefix_sep_head; assumption.
    + cbn [ReplaceFirst]. rewrite (HasPrefix_sep_head _ _ c Hne Hx). reflexivity.
  - pose proof (Contains_false_head _ _ Ha) as Hh.
    pose proof (Contains_false_tail _ _ _ Ha) as Ht.
    destruct (IH Ht) as [IH1 IH2].
    change (String y a ++ String x c) with (String y (a ++ String x c)).
    assert (E : HasPrefix (String y (a ++ String x c)) old = false).
    { change (String y (a ++ String x c)) with (String y a ++ String x c).
      rewrite (HasPrefix_sep _ _ _ _ Hx). exact Hh. }
    split.
    + rewrite (Contains_cons _ _ _ E). exact IH1.
    + cbn [ReplaceFirst]. rewrite E, IH2. reflexivity.
Qed.

Lemma ReplaceFirst_absent s old : Contains s old = false -> ReplaceFirst s old = s.
Proof.
  induction s as [|c s IH]; intros H.
  - cbn [ReplaceFirst]. rewrite (Contains_false_head _ _ H). reflexivity.
  - cbn [ReplaceFirst]. rewrite (Contains_false_head _ _ H).
    rewrite (IH (Contains_false_tail _ _ _ H)). reflexivity.
Qed.

Lemma HasPrefix_app_l a c old :
  HasPrefix a old = true -> HasPrefix (a ++ c) old = true.
Proof.
  unfold HasPrefix. revert a. induction old as [|o old IH]; intros a H.
  - destruct (a ++ c); reflexivity.
  - destruct a as [|y a]; cbn [append String.prefix] in *; [discriminate|].
    destruct (ascii_dec o y); [apply IH; exact H | discriminate].
Qed.

Lemma HasPrefix_length a old :
  HasPrefix a old = true -> a = old ++ drop (String.length old) a.
Proof.
  unfold HasPrefix. revert a. induction old as [|o old IH]; intros a H.
  - reflexivity.
  - destruct a as [|y a]; cbn [String.prefix] in H; [discriminate|].
    destruct (ascii_dec o y); [|discriminate]. subst y.
    cbn [String.length drop append]. f_equal. apply IH. exact H.
Qed.

Lemma drop_app_le n a c :
  (n <= String.length a)%nat -> drop n (a ++ c) = drop n a ++ c.
Proof.
  revert a. induction n as [|n IH]; intros a H; [reflexivity|].
  destruct a as [|y a]; cbn [String.length] in H; [lia|].
  cbn [append drop]. apply IH. lia.
Qed.

Lemma HasPrefix_le a old :
  HasPrefix a old = true -> (String.length old <= String.length a)%nat.
Proof.
  intros H. pose proof (HasPrefix_length _ _ H) as E.
  apply (f_equal String.length) in E. rewrite length_app in E. lia.
Qed.

Lemma HasPrefix_app_short s c old :
  (String.length old <= String.length s)%nat ->
  HasPrefix (s ++ c) old = HasPrefix s old.
Proof.
  unfold HasPrefix. revert s. induction old as [|o old IH]; intros s H.
  - destruct s; destruct c; reflexivity.
  - destruct s as [|y s]; cbn [String.length] in H; [lia|].
    cbn [append String.prefix].
    destruct (ascii_dec o y); [apply IH; lia | reflexivity].
Qed.

Lemma Contains_length a old :
  Contains a old = true -> (String.length old <= String.length a)%nat.
Proof.
  induction a as [|y a IH]; unfold Contains; cbn [Index]; intros H.
  - destruct (HasPrefix "" old) eqn:F; [|discriminate].
    apply HasPrefix_le in F. exact F.
  - destruct (HasPrefix (String y a) old) eqn:F.
    + apply HasPrefix_le in F. exact F.
    + assert (G : Contains a old = true)
        by (unfold Contains; destruct (Index a old); [reflexivity | discriminate]).
      specialize (IH G). cbn [String.length]. lia.
Qed.

Lemma Contains_cons_true c s old :
  Contains (String c s) old = true ->
  HasPrefix (String c s) old = false ->
  Contains s old = true.
Proof.
  unfold Contains. cbn [Index]. intros H E. rewrite E in H.
  destruct (Index s old); [reflexivity | discriminate].
Qed.

(** An occurrence inside [a] is the first one of [a ++ c] too. *)
Lemma Contains_app_l old a c :
  Contains a old = true ->
  Contains (a ++ c) old = true
  /\ ReplaceFirst (a ++ c) old = ReplaceFirst a old ++ c.
Proof.
  induction a as [|y a IH]; intros Ha.
  - pose proof (Contains_length _ _ Ha) as L.
    destruct old; cbn [String.length] in L; [|lia].
    split.
    + unfold Contains. destruct ("" ++ c); reflexivity.
    + cbn [append]. destruct c; reflexivity.
  - pose proof (Contains_length _ _ Ha) as L.
    change (String y a ++ c) with (String y (a ++ c)).
    assert (E' : HasPrefix (String y (a ++ c)) old = HasPrefix (String y a) old).
    { change (String y (a ++ c)) with (String y a ++ c).
      apply HasPrefix_app_short. exact L. }
    destruct (HasPrefix (String y a) old) eqn:E.
    + split.
      * unfold Contains. cbn [Index]. rewrite E'. reflexivity.
      * cbn [ReplaceFirst]. rewrite E, E'.
        change (String y (a ++ c)) with (String y a ++ c).
        apply drop_app_le. apply HasPrefix_le. exact E.
    + destruct (IH (Contains_cons_true _ _ _ Ha E)) as [IH1 IH2]. split.
      * rewrite (Contains_cons _ _ _ E'). exact IH1.
      * cbn [ReplaceFirst]. rewrite E, E', IH2. reflexivity.
Qed.

Lemma forallb_drop p n s : forallb p s = true -> forallb p (drop n s) = true.
Proof.
  revert s. induction n as [|n IH]; intros s H; [exact H|].
  destruct s as [|c s]; [reflexivity|].
  cbn [forallb] in H. apply andb_true_iff in H as [_ H]. apply IH. exact H.
Qed.

Lemma forallb_ReplaceFirst p s old :
  forallb p s = true -> forallb p (ReplaceFirst s old) = true.
Proof.
  induction s as [|c s IH]; intros H; cbn [ReplaceFirst].
  - destruct (HasPrefix "" old); [apply forallb_drop; exact H | exact H].
  - destruct (HasPrefix (String c s) old); [apply forallb_drop; exact H|].
    cbn [forallb] in *. apply andb_true_iff in H as [H1 H2].
    rewrite H1, (IH H2). reflexivity.
Qed.

(** The word "dirty" needs an "i"; hexadecimal digits have none, and no
    plus sign either. *)
Lemma Contains_dirty_no_i s : notChar "i" s = true -> Contains s "dirty" = false.
Proof.
  unfold notChar, Contains. induction s as [|c s IH]; intros H; [reflexivity|].
  cbn [forallb] in H. apply andb_true_iff in H as [_ Hs].
  cbn [Index].
  assert (E : HasPrefix (String c s) "dirty" = false).
  { unfold HasPrefix. cbn [String.prefix].
    destruct (ascii_dec "d" c); [|reflexivity].
    destruct s as [|c2 s]; [reflexivity|].
    cbn [forallb] in Hs. apply andb_true_iff in Hs as [Hc2 _].
    cbn [String.prefix].
    destruct (ascii_dec "i" c2) as [<-|]; [discriminate Hc2 | reflexivity]. }
  rewrite E. specialize (IH Hs). destruct (Index s "dirty"); [discriminate IH | reflexivity].
Qed.

Lemma isLowerHex_not c d :
  isLowerHex d = false -> isLowerHex c = true -> negb (Ascii.eqb c d) = true.
Proof.
  intros Hd Hc. destruct (Ascii.eqb_spec c d); [congruence | reflexivity].
Qed.

Lemma hex_notChar d s :
  isLowerHex d = false -> forallb isLowerHex s = true -> notChar d s = true.
Proof.
  intros Hd. unfold notChar. apply forallb_impl. intros c. apply isLowerHex_not. exact Hd.
Qed.

Lemma offWord_notChar_dirty x : isWord x = false -> notChar x "dirty" = true.
Proof.
  intros H. unfold notChar. cbn [forallb].
  repeat match goal with
         | |- context [Ascii.eqb ?c x] =>
             destruct (Ascii.eqb_spec c x) as [<-|]; [discriminate H|]
         end.
  reflexivity.
Qed.

Lemma isShortHash_parts h :
  isShortHash h = true -> String.length h = 8%nat /\ forallb isLowerHex h = true.
Proof.
  unfold isShortHash. intros H. apply andb_true_iff in H as [H1 H2].
  apply Nat.eqb_eq in H1. tauto.
Qed.

(** The dirty stage leaves the hash token where it is: with or without
    the token, the same text is left on either side of it. *)
Lemma dirty_stage_around_hash a h b :
  notChar "+" a = true -> isShortHash h = true ->
  notChar "+" b = true -> startsOffWord b = true ->
  let r := a ++ "+" ++ h ++ b in
  let r0 := a ++ b in
  Contains r "dirty" = Contains r0 "dirty"
  /\ exists a' b',
      notChar "+" a' = true /\ notChar "+" b' = true /\ startsOffWord b' = true
      /\ (if Contains r "dirty" then ReplaceFirst r "dirty" else r)
         = a' ++ "+" ++ h ++ b'
      /\ (if Contains r0 "dirty" then ReplaceFirst r0 "dirty" else r0)
         = a' ++ b'.
Proof.
  intros Ha Hh Hb Hw r r0. unfold r, r0.
  destruct (isShortHash_parts _ Hh) as [Hlen Hhex].
  assert (Hhd : Contains h "dirty" = false)
    by (apply Contains_dirty_no_i, hex_notChar; [reflexivity | exact Hhex]).
  assert (Hd : "dirty" <> "") by discriminate.
  destruct (Contains a "dirty") eqn:Da.
  - destruct (Contains_app_l _ _ ("+" ++ h ++ b) Da) as [C1 R1].
    destruct (Contains_app_l _ _ b Da) as [C0 R0].
    rewrite C1, C0. split; [reflexivity|].
    exists (ReplaceFirst a "dirty"), b.
    repeat split; auto. apply forallb_ReplaceFirst. exact Ha.
  - change ("+" ++ h ++ b) with (String "+" (h ++ b)).
    destruct (Contains_sep "dirty" a "+" (h ++ b) Hd eq_refl Da) as [C1 R1].
    rewrite C1, R1.
    destruct b as [|x b1].
    + rewrite !app_nil_r_s. rewrite Hhd, Da. split; [reflexivity|].
      exists a, "". rewrite !app_nil_r_s. repeat split; auto.
    + cbn [startsOffWord] in Hw. apply negb_true_iff in Hw.
      pose proof (offWord_notChar_dirty _ Hw) as Hx.
      destruct (Contains_sep "dirty" h x b1 Hd Hx Hhd) as [C2 R2].
      destruct (Contains_sep "dirty" a x b1 Hd Hx Da) as [C0 R0].
      rewrite C2, C0, R2, R0. split; [reflexivity|].
      destruct (Contains b1 "dirty").
      * exists a, (String x (ReplaceFirst b1 "dirty")).
        repeat split; auto.
        -- unfold notChar in *. cbn [forallb] in *.
           apply andb_true_iff in Hb as [Hb1 Hb2]. rewrite Hb1.
           apply forallb_ReplaceFirst. exact Hb2.
        -- cbn [startsOffWord]. rewrite Hw. reflexivity.
      * exists a, (String x b1). repeat split; auto.
        cbn [startsOffWord]. rewrite Hw. reflexivity.
Qed.

(** The hash stage deletes the one token. *)
Lemma hashRe_single a h b :
  notChar "+" a = true -> isShortHash h = true ->
  notChar "+" b = true -> startsOffWord b = true ->
  hashRe_FindAllString (a ++ "+" ++ h ++ b) 5 = ["+" ++ h].
Proof.
  intros Ha Hh Hb Hw. destruct (isShortHash_parts _ Hh) as [Hlen Hhex].
  unfold notChar in Ha. induction a as [|c a IH].
  - cbn [append hashRe_FindAllString].
    assert (E : hashRe_matchHere (String "+" (h ++ b)) = true).
    { unfold hashRe_matchHere.
      replace (take 8 (h ++ b)) with h
        by (rewrite <- Hlen; symmetry; apply take_app).
      replace (drop 8 (h ++ b)) with b
        by (rewrite <- Hlen; symmetry; apply drop_app).
      rewrite Hhex, length_app, Hlen. exact Hw. }
    rewrite E.
    replace (take 9 (String "+" (h ++ b))) with ("+" ++ h)
      by (change (take 9 (String "+" (h ++ b)))
            with (String "+" (take 8 (h ++ b)));
          rewrite <- Hlen, take_app; reflexivity).
    rewrite hashRe_none; [reflexivity|].
    unfold notChar. rewrite forallb_app. apply andb_true_iff. split; [|exact Hb].
    apply hex_notChar; [reflexivity | exact Hhex].
  - cbn [forallb] in Ha. apply andb_true_iff in Ha as [Hc Hs].
    apply negb_true_iff in Hc.
    change (String c a ++ "+" ++ h ++ b) with (String c (a ++ "+" ++ h ++ b)).
    cbn [hashRe_FindAllString].
    assert (E : hashRe_matchHere (String c (a ++ "+" ++ h ++ b)) = false).
    { unfold hashRe_matchHere.
      destruct (Ascii.eqb_spec c "+") as [->|Hne]; [discriminate Hc|].
      destruct c as [[] [] [] [] [] [] [] []]; try reflexivity.
      exfalso. apply Hne. reflexivity. }
    rewrite E. apply IH. exact Hs.
Qed.

Lemma ReplaceFirst_token a t b :
  notChar "+" a = true ->
  ReplaceFirst (a ++ String "+" t ++ b) (String "+" t) = a ++ b.
Proof.
  unfold notChar. induction a as [|c a IH]; intros Ha.
  - cbn [append]. cbn [ReplaceFirst].
    change (String "+" (t ++ b)) with (String "+" t ++ b).
    rewrite HasPrefix_app. apply drop_app.
  - cbn [forallb] in Ha. apply andb_true_iff in Ha as [Hc Hs].
    apply negb_true_iff in Hc.
    change (String c a ++ String "+" t ++ b)
      with (String c (a ++ String "+" t ++ b)).
    cbn [ReplaceFirst]. rewrite (HasPrefix_cons_ne _ _ _ _ Hc).
    rewrite (IH Hs). reflexivity.
Qed.

Lemma stripHash_single a h b :
  notChar "+" a = true -> isShortHash h = true ->
  notChar "+" b = true -> startsOffWord b = true ->
  stripHash (a ++ "+" ++ h ++ b) = a ++ b.
Proof.
  intros Ha Hh Hb Hw. unfold stripHash.
  rewrite (hashRe_single _ _ _ Ha Hh Hb Hw). cbn [List.last].
  change ("+" ++ h ++ b) with (String "+" (h ++ b)).
  change ("+" ++ h) with (String "+" h).
  change (String "+" (h ++ b)) with (String "+" h ++ b).
  apply ReplaceFirst_token. exact Ha.
Qed.

(** The kind is split off first, and is no part of the word "dirty". *)
Lemma kind_split_off kind pk rest :
  In (kind, pk) prereleaseKinds ->
  String.eqb ("-" ++ kind ++ rest) "" = false
  /\ getPythonPrePrefix ("-" ++ kind ++ rest) = (pk, rest)
  /\ Contains ("-" ++ kind ++ rest) "dirty" = Contains rest "dirty".
Proof.
  intros Hin. simpl in Hin.
  destruct Hin as [H|[H|[H|[H|[]]]]]; injection H as <- <-;
    cbn [append]; (split; [reflexivity|]); (split; [destruct rest; reflexivity|]);
    repeat (rewrite Contains_cons by reflexivity); reflexivity.
Qed.

Lemma getPythonPreVersion_kind kind pk rest :
  In (kind, pk) prereleaseKinds ->
  getPythonPreVersion ("-" ++ kind ++ rest)
  = Ok (pep440Assemble pk (Contains rest "dirty")
          (pep440Ordinal
             (stripHash (if Contains rest "dirty"
                         then ReplaceFirst rest "dirty" else rest)))).
Proof.
  intros Hin. destruct (kind_split_off kind pk rest Hin) as [Hne [Hpre Hd]].
  rewrite (getPythonPreVersion_stages _ _ _ Hne Hpre), Hd. reflexivity.
Qed.

(** C5, as the code has it.  The back-conversion works in this order: the
    kind is split off, the word "dirty" is deleted, one hash token (a plus
    sign, eight lower-case hexadecimal digits, a word boundary) is
    deleted, and then the first standalone number is the ordinal, "0" if
    there is none.  Hence, for every tail -kind a +hash b whose only plus
    sign is the one of the hash token, the result is built from the kind,
    from the ordinal of the tail without "dirty" and without the token,
    and from the dirty marker: it is the result for the tail -kind a b,
    and no digit of the hash is read as the ordinal. *)
Theorem single_hash_token_never_the_ordinal :
  (forall kind pk a h b,
      In (kind, pk) prereleaseKinds ->
      notChar "+" a = true -> isShortHash h = true ->
      notChar "+" b = true -> startsOffWord b = true ->
      let bare := a ++ b in
      let isDirty := Contains bare "dirty" in
      getPythonPreVersion ("-" ++ kind ++ a ++ "+" ++ h ++ b)
      = Ok (pep440Assemble pk isDirty
              (pep440Ordinal
                 (if isDirty then ReplaceFirst bare "dirty" else bare)))
      /\ getPythonPreVersion ("-" ++ kind ++ a ++ "+" ++ h ++ b)
         = getPythonPreVersion ("-" ++ kind ++ bare))
  /\ getPythonPreVersion "-rc.1+12ab34cd" = Ok "rc1"
  /\ getPythonPreVersion "-rc+12345678" = Ok "rc0"
  /\ getPythonPreVersion "-alpha.3+12345678.dirty" = Ok "a3+dirty".
Proof.
  split; [|repeat split; reflexivity].
  intros kind pk a h b Hin Ha Hh Hb Hw bare isDirty.
  destruct (dirty_stage_around_hash a h b Ha Hh Hb Hw)
    as [HC [a' [b' [Ha' [Hb' [Hw' [R1 R0]]]]]]].
  assert (Hplus : notChar "+" (a' ++ b') = true).
  { unfold notChar in *. rewrite forallb_app, Ha', Hb'. reflexivity. }
  assert (E1 : getPythonPreVersion ("-" ++ kind ++ a ++ "+" ++ h ++ b)
               = Ok (pep440Assemble pk isDirty (pep440Ordinal (a' ++ b')))).
  { rewrite (getPythonPreVersion_kind kind pk _ Hin).
    rewrite R1, HC, (stripHash_single _ _ _ Ha' Hh Hb' Hw'). reflexivity. }
  assert (E0 : getPythonPreVersion ("-" ++ kind ++ bare)
               = Ok (pep440Assemble pk isDirty (pep440Ordinal (a' ++ b')))).
  { rewrite (getPythonPreVersion_kind kind pk _ Hin).
    unfold bare. rewrite R0, (stripHash_none _ Hplus). reflexivity. }
  split.
  - rewrite E1. unfold isDirty, bare. rewrite R0. reflexivity.
  - rewrite E1, E0. reflexivity.
Qed.

Lemma single_hash_token_never_the_ordinal_witness :
  getPythonPreVersion ("-" ++ "beta" ++ ".7" ++ "+" ++ "12345678" ++ ".dirty")
  = getPythonPreVersion ("-" ++ "beta" ++ ".7" ++ ".dirty").
Proof.
  refine (proj2 (proj1 single_hash_token_never_the_ordinal
                       "beta" "b" ".7" "12345678" ".dirty"
                       _ eq_refl eq_refl eq_refl eq_refl)).
  simpl. tauto.
Defined.


(** ** Decimal numbers, printed and parsed *)

Lemma string_of_uint_digits d :
  forallb isDigit (NilEmpty.string_of_uint d) = true.
Proof. induction d; simpl; auto. Qed.

Lemma FormatUint_digits n : forallb isDigit (FormatUint n) = true.
Proof. apply string_of_uint_digits. Qed.

Lemma to_uint_unorm n : N.to_uint n = Decimal.unorm (N.to_uint n).
Proof.
  rewrite <- (DecimalN.Unsigned.of_to n) at 1.
  apply DecimalN.Unsigned.to_of.
Qed.

Lemma FormatUint_cons n :
  exists c s, FormatUint n = String c s /\ isDigit c = true.
Proof.
  pose proof (FormatUint_digits n) as H. unfold FormatUint in *.
  pose proof (DecimalFacts.unorm_nonnil (N.to_uint n)) as Hn.
  rewrite <- to_uint_unorm in Hn.
  destruct (N.to_uint n); simpl in *; try congruence;
    eexists; eexists; (split; [reflexivity | reflexivity]).
Qed.

Lemma FormatUint_isNumber n : isNumber (FormatUint n) = true.
Proof.
  unfold isNumber. rewrite FormatUint_digits.
  destruct (FormatUint_cons n) as [c [s [-> _]]]. reflexivity.
Qed.

Lemma FormatUint_no_leading_zero n : hasLeadingZeroes (FormatUint n) = false.
Proof.
  unfold FormatUint. rewrite to_uint_unorm.
  unfold Decimal.unorm.
  pose proof (DecimalFacts.nzhead_nonzero (N.to_uint n)) as Hz.
  destruct (Decimal.nzhead (N.to_uint n)) as [|u|u|u|u|u|u|u|u|u|u];
    try reflexivity.
  exfalso. apply (Hz u). reflexivity.
Qed.

Lemma ParseUint_FormatUint n :
  (n <= uint64_max)%N -> ParseUint (FormatUint n) = Ok n.
Proof.
  intros Hn. unfold ParseUint.
  destruct (FormatUint_cons n) as [c [s [E _]]]. rewrite E, <- E.
  unfold FormatUint. rewrite NilEmpty.usu, DecimalN.Unsigned.of_to.
  apply N.leb_le in Hn. rewrite Hn. reflexivity.
Qed.

Lemma parseNumber_FormatUint what n :
  (n <= uint64_max)%N -> parseNumber what (FormatUint n) = Ok n.
Proof.
  intros Hn. unfold parseNumber, onlyNumbers.
  rewrite FormatUint_digits, FormatUint_no_leading_zero. cbn [negb].
  apply ParseUint_FormatUint. exact Hn.
Qed.

Lemma IndexRune_none c s : notChar c s = true -> IndexRune s c = None.
Proof.
  unfold notChar. induction s as [|d s IH]; intros H; [reflexivity|].
  cbn [forallb] in H. apply andb_true_iff in H as [Hd Hs].
  apply negb_true_iff in Hd. cbn [IndexRune]. rewrite Hd, (IH Hs). reflexivity.
Qed.

(** [Parse] reads back a printed triple. *)
Lemma Parse_triple X Y Z :
  (X <= uint64_max)%N -> (Y <= uint64_max)%N -> (Z <= uint64_max)%N ->
  Parse (FormatUint X ++ "." ++ FormatUint Y ++ "." ++ FormatUint Z)
  = Ok (mkVersion X Y Z [] []).
Proof.
  intros HX HY HZ. unfold Parse.
  set (str := FormatUint X ++ "." ++ FormatUint Y ++ "." ++ FormatUint Z).
  assert (Hne : str <> "").
  { unfold str. destruct (FormatUint_cons X) as [c [s [-> _]]]. discriminate. }
  destruct str as [|c s] eqn:Estr; [congruence|]. rewrite <- Estr. unfold str.
  rewrite SplitN_3
    by (apply digits_notChar; [reflexivity | apply FormatUint_digits]).
  rewrite (parseNumber_FormatUint _ _ HX). cbn [rbind].
  rewrite (parseNumber_FormatUint _ _ HY). cbn [rbind].
  rewrite (IndexRune_none "+")
    by (apply digits_notChar; [reflexivity | apply FormatUint_digits]).
  rewrite (IndexRune_none "-")
    by (apply digits_notChar; [reflexivity | apply FormatUint_digits]).
  rewrite (parseNumber_FormatUint _ _ HZ). reflexivity.
Qed.

Lemma LastIndexSlash_none s : notChar "/" s = true -> LastIndexSlash s = None.
Proof.
  unfold notChar. induction s as [|d s IH]; intros H; [reflexivity|].
  cbn [forallb] in H. apply andb_true_iff in H as [Hd Hs].
  apply negb_true_iff in Hd. cbn [LastIndexSlash]. rewrite (IH Hs), Hd. reflexivity.
Qed.

(** The version of a tag named vX.Y.Z. *)
Lemma stripModuleTagPrefixes_triple X Y Z :
  stripModuleTagPrefixes
    ("v" ++ FormatUint X ++ "." ++ FormatUint Y ++ "." ++ FormatUint Z)
  = FormatUint X ++ "." ++ FormatUint Y ++ "." ++ FormatUint Z.
Proof.
  unfold stripModuleTagPrefixes, path_Split.
  rewrite LastIndexSlash_none.
  - unfold TrimPrefix. cbn [append]. rewrite HasPrefix_char. reflexivity.
  - pose proof (fun n => digits_notChar "/" _ eq_refl (FormatUint_digits n)) as D.
    unfold notChar in *.
    change ("v" ++ FormatUint X ++ "." ++ FormatUint Y ++ "." ++ FormatUint Z)
      with (String "v" (FormatUint X ++ String "." (FormatUint Y ++ String "." (FormatUint Z)))).
    cbn [forallb]. rewrite forallb_app. cbn [forallb].
    rewrite forallb_app. cbn [forallb]. rewrite !D. reflexivity.
Qed.

(** ** An exact tag *)

Lemma lookupObject_hash store h c :
  lookupObject store h = Some c -> CommitHash c = h.
Proof.
  induction store as [|[k [ps t]] store IH]; cbn [lookupObject]; [discriminate|].
  destruct (hash_eqb k h); [|exact IH].
  intros E. injection E as <-. reflexivity.
Qed.

(** The base version of a commit on which [isExactTag] finds a tag. *)
Lemma determineBaseVersion_exact repo revision commit isPrerelease filter ref :
  lookupObject (objects repo) revision = Some commit ->
  result_of (isExactTag repo revision isPrerelease filter) = Ok (Some ref) ->
  result_of (determineBaseVersion repo revision isPrerelease filter)
  = Ok (stripModuleTagPrefixes (Short (RefName ref)), true).
Proof.
  intros Hobj Hexact. unfold determineBaseVersion, CommitObject.
  run_results. rewrite Hobj. cbn [rwrap]. run_results.
  rewrite (lookupObject_hash _ _ _ Hobj), Hexact. reflexivity.
Qed.

(** What [Calculate] returns, given the filter in force. *)
Lemma Calculate_result compile opts repo filter :
  Repository opts = Some repo ->
  activeFilter compile opts = Ok filter ->
  let opts' := effectiveOptions opts filter in
  result_of (Calculate compile opts)
  = rbind (rwrap (Wrapf "calculating version components")
                 (result_of (getVersionComponents opts')))
          (fun components => buildLanguageVersions components opts').
Proof.
  intros Hr Hf opts'. destruct opts as [r c o p i f pat].
  cbn [Repository] in Hr. subst r.
  unfold opts', effectiveOptions, commitishOf, activeFilter in *. clear opts'.
  cbn [Commitish OmitCommitHash ReleasePrefix IsPreRelease TagFilter TagPattern] in *.
  unfold Calculate. cbn [Repository Commitish].
  destruct f as [g|].
  - injection Hf as <-.
    destruct (String.eqb c ""); cbn [TagPattern TagFilter];
      rewrite andb_false_r; run_results; reflexivity.
  - destruct (String.eqb pat "") eqn:Ep.
    + injection Hf as <-.
      destruct (String.eqb c ""); cbn [TagPattern TagFilter];
        rewrite Ep; cbn [negb andb]; run_results; reflexivity.
    + destruct (compile pat) as [re|e] eqn:Ec; cbn [rwrap rbind] in Hf;
        [|discriminate].
      injection Hf as <-.
      destruct (String.eqb c ""); cbn [TagPattern TagFilter];
        rewrite Ep; cbn [negb andb]; run_results; rewrite Ec;
        cbn [rwrap]; run_results; reflexivity.
Qed.

(** The five strings of a version without prerelease. *)
Lemma buildLanguageVersions_release components opts :
  Pre (Semver components) = [] ->
  let v := FormatUint (Major (Semver components)) ++ "." ++
           FormatUint (Minor (Semver components)) ++ "." ++
           FormatUint (Patch (Semver components)) ++
           (if Dirty components then "+dirty" else "") in
  buildLanguageVersions components opts
  = Ok (mkLanguageVersions v v ("v" ++ v) v ("v" ++ v)).
Proof.
  intros Hpre v. unfold v, buildLanguageVersions, buildPreVersionStrings,
    genericVersionOf.
  rewrite Hpre. cbn [Pre Major Minor Patch rbind].
  destruct (Dirty components); cbn [String.eqb append];
    rewrite ?app_nil_r_s, ?app_assoc_s; cbn [append];
    rewrite ?app_assoc_s; reflexivity.
Qed.

(** A dirty working tree on an exact tag: the generic string carries
    "+dirty".  (And with a release prefix, on a clean tree, it is the
    prefix.) *)
Lemma exact_tag_dirty_tree :
  result_of (isExactTag (twoCommits "v1.0.0" hashA false) hashA false None)
  = Ok (Some tagV100)
  /\ Short (RefName tagV100) = "v1.0.0"
  /\ result_of (Calculate stubCompile (plainOptions (twoCommits "v1.0.0" hashA false)))
     = Ok (mkLanguageVersions "1.0.0+dirty" "1.0.0+dirty" "v1.0.0+dirty"
                              "1.0.0+dirty" "v1.0.0+dirty")
  /\ "1.0.0+dirty" <> "1.0.0"
  /\ result_of (Calculate stubCompile
                  (withReleasePrefix (plainOptions (twoCommits "v1.0.0" hashA true))
                                     "2.0.0"))
     = Ok (mkLanguageVersions "2.0.0" "2.0.0" "v2.0.0" "2.0.0" "v2.0.0").
Proof.
  split; [vm_compute; reflexivity|]. split; [reflexivity|].
  split; [vm_compute; reflexivity|]. split; [discriminate|].
  vm_compute; reflexivity.
Qed.

(** C2, as the code has it.  When the resolver finds on the resolved
    commit an exact, visible tag named vX.Y.Z and no release prefix is
    given, every one of the five strings is built from X.Y.Z alone, with
    no prerelease token and no commit hash, whatever [OmitCommitHash] and
    [IsPreRelease] are; the generic string is X.Y.Z when the working tree
    is clean, and X.Y.Z+dirty when it is not. *)
Theorem exact_tag_generic_output :
  forall compile opts repo filter revision commit ref X Y Z dirty,
    Repository opts = Some repo ->
    ReleasePrefix opts = "" ->
    activeFilter compile opts = Ok filter ->
    revisions repo (commitishOf opts) = Ok revision ->
    lookupObject (objects repo) revision = Some commit ->
    result_of (isExactTag repo revision (IsPreRelease opts) filter) = Ok (Some ref) ->
    Short (RefName ref)
    = "v" ++ FormatUint X ++ "." ++ FormatUint Y ++ "." ++ FormatUint Z ->
    (X <= uint64_max)%N -> (Y <= uint64_max)%N -> (Z <= uint64_max)%N ->
    result_of (workTreeIsDirty repo) = Ok dirty ->
    let v := FormatUint X ++ "." ++ FormatUint Y ++ "." ++ FormatUint Z ++
             (if dirty then "+dirty" else "") in
    result_of (Calculate compile opts)
    = Ok (mkLanguageVersions v v ("v" ++ v) v ("v" ++ v)).
Proof.
  intros compile opts repo filter revision commit ref X Y Z dirty
         Hrepo Hprefix Hfilter Hrev Hobj Hexact Hname HX HY HZ Hdirty v.
  rewrite (Calculate_result compile opts repo filter Hrepo Hfilter).
  pose proof (determineBaseVersion_exact repo revision commit _ _ ref Hobj Hexact)
    as Hbase.
  rewrite Hname, stripModuleTagPrefixes_triple in Hbase.
  erewrite getVersionComponents_result;
    [ | exact Hrepo | exact Hrev | exact Hobj | exact Hbase
      | apply Parse_triple; assumption | exact Hdirty ].
  cbn [effectiveOptions ReleasePrefix]. rewrite Hprefix.
  cbn [String.eqb negb rbind rwrap].
  rewrite buildLanguageVersions_release by reflexivity.
  reflexivity.
Qed.

Lemma exact_tag_generic_output_witness :
  result_of (Calculate stubCompile (plainOptions (twoCommits "v1.0.0" hashA true)))
  = Ok (mkLanguageVersions "1.0.0" "1.0.0" "v1.0.0" "1.0.0" "v1.0.0").
Proof.
  exact (exact_tag_generic_output stubCompile
           (plainOptions (twoCommits "v1.0.0" hashA true))
           (twoCommits "v1.0.0" hashA true) None hashA
           (mkCommit hashA [] 1600000000) tagV100 1 0 0 false
           eq_refl eq_refl eq_refl eq_refl eq_refl eq_refl eq_refl
           ltac:(vm_compute; discriminate) ltac:(vm_compute; discriminate)
           ltac:(vm_compute; discriminate) eq_refl).
Defined.


(** ** The ancestry walk *)

Lemma isSeen_cons sn x k : isSeen (x :: sn) k = hash_eqb k x || isSeen sn k.
Proof. reflexivity. Qed.

Lemma unseenWeight_mono store sn h :
  (unseenWeight store (h :: sn) <= unseenWeight store sn)%nat.
Proof.
  induction store as [|[k [ps t]] store IH]; cbn [unseenWeight]; [lia|].
  rewrite isSeen_cons.
  destruct (hash_eqb k h), (isSeen sn k); cbn [orb]; lia.
Qed.

(** Visiting a stored commit for the first time pays for its turns. *)
Lemma unseenWeight_visit store sn h c :
  lookupObject store h = Some c ->
  isSeen sn h = false ->
  (unseenWeight store (h :: sn) + 2 + List.length (ParentHashes c)
   <= unseenWeight store sn)%nat.
Proof.
  intros Hc Hs.
  induction store as [|[k [ps t]] store IH]; cbn [lookupObject unseenWeight] in *;
    [discriminate|].
  rewrite isSeen_cons.
  destruct (hash_eqb k h) eqn:E.
  - injection Hc as <-. cbn [ParentHashes orb].
    apply String.eqb_eq in E. subst k. rewrite Hs.
    pose proof (unseenWeight_mono store sn h). lia.
  - specialize (IH Hc). cbn [orb]. destruct (isSeen sn k); lia.
Qed.

Lemma filteredParentIter_length c sn :
  (List.length (filteredParentIter c sn) <= List.length (ParentHashes c))%nat.
Proof. apply filter_length_le. Qed.

Lemma filteredParentIter_In c sn h :
  In h (filteredParentIter c sn) -> In h (ParentHashes c).
Proof. unfold filteredParentIter. intros H. apply filter_In in H. tauto. Qed.

(** What a turn can be. *)
Lemma nextTurn_cases repo w t :
  result_of (nextTurn repo w) = Ok t ->
  (exists c, start w = Some c /\ t = visit c (seen w) (stack w))
  \/ (start w = None /\ stack w = [] /\ t = EOF)
  \/ (exists stk, start w = None /\ stack w = [] :: stk
                  /\ t = Again (mkIter (seen w) stk None))
  \/ (exists h hs stk c,
         start w = None /\ stack w = (h :: hs) :: stk
         /\ lookupObject (objects repo) h = Some c
         /\ t = visit c (seen w) (hs :: stk)).
Proof.
  unfold nextTurn. destruct (start w) as [c|].
  - intros E. injection E as <-. left. eauto.
  - destruct (stack w) as [|[|h hs] stk].
    + intros E. injection E as <-. right. left. auto.
    + intros E. injection E as <-. right. right. left. eauto.
    + run_results.
      destruct (lookupObject (objects repo) h) as [c|] eqn:L; [|discriminate].
      intros E. injection E as <-. right. right. right. eauto 10.
Qed.

Lemma visit_cases c sn stk t :
  t = visit c sn stk ->
  (isSeen sn (CommitHash c) = true /\ t = Again (mkIter sn stk None))
  \/ (isSeen sn (CommitHash c) = false
      /\ exists stk',
          t = Yield c (mkIter (CommitHash c :: sn) stk' None)
          /\ (stackWeight stk' <= stackWeight stk + 1 + List.length (ParentHashes c))%nat
          /\ forall it, In it stk' ->
                        In it stk \/ forall h, In h it -> In h (ParentHashes c)).
Proof.
  intros ->. unfold visit. destruct (isSeen sn (CommitHash c)); [left; auto|].
  right. split; [reflexivity|].
  destruct (ParentHashes c) as [|p ps] eqn:P.
  - exists stk. split; [reflexivity|]. split; [lia|]. auto.
  - exists (filteredParentIter c (CommitHash c :: sn) :: stk).
    split; [reflexivity|]. split.
    + cbn [stackWeight]. pose proof (filteredParentIter_length c (CommitHash c :: sn)).
      rewrite P in H. lia.
    + intros it [<-|H]; [right|left; exact H].
      intros h Hh. rewrite <- P. eapply filteredParentIter_In. exact Hh.
Qed.

(** Every turn that goes on uses up some of [turnsLeft]. *)
Lemma turn_decreases repo w t w' :
  result_of (nextTurn repo w) = Ok t ->
  (t = Again w' \/ exists c, t = Yield c w') ->
  (turnsLeft repo w' < turnsLeft repo w)%nat.
Proof.
  intros Ht Hw'. unfold turnsLeft.
  destruct (nextTurn_cases repo w t Ht)
    as [[c [Hs E]] | [[_ [_ E]] | [[stk [Hs [Hk E]]] | [h [hs [stk [c [Hs [Hk [L E]]]]]]]]]].
  - rewrite Hs.
    destruct (visit_cases _ _ _ _ E) as [[_ ->] | [_ [stk' [-> [Hw _]]]]].
    + destruct Hw' as [Hw'|[c' Hw']]; [|discriminate].
      injection Hw' as <-. cbn [seen stack start]. lia.
    + destruct Hw' as [Hw'|[c' Hw']]; [discriminate|].
      injection Hw' as _ <-. cbn [seen stack start].
      pose proof (unseenWeight_mono (objects repo) (seen w) (CommitHash c)). lia.
  - subst t. destruct Hw' as [Hw'|[c' Hw']]; discriminate.
  - subst t. rewrite Hs, Hk.
    destruct Hw' as [Hw'|[c' Hw']]; [|discriminate].
    injection Hw' as <-. cbn [seen stack start stackWeight]. lia.
  - rewrite Hs, Hk.
    pose proof (lookupObject_hash _ _ _ L) as Hh.
    destruct (visit_cases _ _ _ _ E) as [[_ ->] | [Hns [stk' [-> [Hw _]]]]].
    + destruct Hw' as [Hw'|[c' Hw']]; [|discriminate].
      injection Hw' as <-. cbn [seen stack start stackWeight List.length]. lia.
    + destruct Hw' as [Hw'|[c' Hw']]; [discriminate|].
      injection Hw' as _ <-. cbn [seen stack start].
      rewrite Hh in *.
      pose proof (unseenWeight_visit _ _ _ _ L Hns).
      cbn [stackWeight List.length] in *. lia.
Qed.

Section Walk.

Variable repo : git.Repository.
Variable A : Type.
Variable cb : Commit -> M (option A).

(** The bound is enough: beyond [turnsLeft], more fuel changes nothing,
    neither the result of the walk nor the queries it issues. *)
Lemma commitForEach_fuel fuel1 :
  forall fuel2 w,
    (turnsLeft repo w < fuel1)%nat -> (turnsLeft repo w < fuel2)%nat ->
    commitForEach repo fuel1 w cb = commitForEach repo fuel2 w cb.
Proof.
  induction fuel1 as [|fuel1 IH]; intros fuel2 w H1 H2; [lia|].
  destruct fuel2 as [|fuel2]; [lia|].
  cbn [commitForEach].
  destruct (nextTurn repo w) as [tr [t|e]] eqn:E; [|reflexivity].
  assert (Ht : result_of (nextTurn repo w) = Ok t) by (rewrite E; reflexivity).
  destruct t as [c w'|w'|]; cbn [bind].
  - pose proof (turn_decreases repo w _ w' Ht (or_intror (ex_intro _ c eq_refl))).
    destruct (cb c) as [tc [[a|]|e]]; cbn [bind ret]; try reflexivity.
    rewrite (IH fuel2 w') by lia. reflexivity.
  - pose proof (turn_decreases repo w _ w' Ht (or_introl eq_refl)).
    rewrite (IH fuel2 w') by lia. reflexivity.
  - reflexivity.
Qed.

(** The walk stops at the first commit at which the callback stops. *)
Lemma commitForEach_first l a x w w' :
  yields repo w (l ++ [a]) w' ->
  (forall c, In c l -> result_of (cb c) = Ok None) ->
  result_of (cb a) = Ok (Some x) ->
  forall fuel, (turnsLeft repo w < fuel)%nat ->
  result_of (commitForEach repo fuel w cb) = Ok (Some x).
Proof.
  intros Hy. remember (l ++ [a])%list as L eqn:EL. revert l EL.
  induction Hy as [w | w w1 L w' Ht Hy IH | w c w1 L w' Ht Hy IH];
    intros l EL Hl Ha fuel Hfuel.
  - destruct l; discriminate EL.
  - destruct fuel as [|fuel]; [lia|].
    cbn [commitForEach]. run_results. rewrite Ht.
    apply (IH l EL Hl Ha).
    pose proof (turn_decreases repo w _ w1 Ht (or_introl eq_refl)). lia.
  - destruct fuel as [|fuel]; [lia|].
    cbn [commitForEach]. run_results. rewrite Ht. run_results.
    destruct l as [|c' l]; cbn [app] in EL; injection EL as <- EL.
    + rewrite Ha. reflexivity.
    + rewrite (Hl c (or_introl eq_refl)).
      apply (IH l EL); [intros; apply Hl; right; assumption | exact Ha |].
      pose proof (turn_decreases repo w _ w1 Ht (or_intror (ex_intro _ c eq_refl))).
      lia.
Qed.

Variable root : Hash.

Lemma walkInv_turn w t :
  walkInv repo root w ->
  result_of (nextTurn repo w) = Ok t ->
  match t with
  | EOF => True
  | Again w' => walkInv repo root w'
  | Yield c w' =>
      walkInv repo root w' /\ reachable (objects repo) root (CommitHash c)
      /\ lookupObject (objects repo) (CommitHash c) = Some c
  end.
Proof.
  intros [Hstk Hst] Ht.
  assert (V : forall c sn stk,
             reachable (objects repo) root (CommitHash c) ->
             lookupObject (objects repo) (CommitHash c) = Some c ->
             (forall it h, In it stk -> In h it -> reachable (objects repo) root h) ->
             match visit c sn stk with
             | EOF => True
             | Again w' => walkInv repo root w'
             | Yield c' w' =>
                 walkInv repo root w' /\ reachable (objects repo) root (CommitHash c')
                 /\ lookupObject (objects repo) (CommitHash c') = Some c'
             end).
  { intros c sn stk Hr Hl Hk.
    destruct (visit_cases c sn stk _ eq_refl) as [[_ ->] | [_ [stk' [-> [_ Hin]]]]].
    - split; cbn [stack start]; [exact Hk | discriminate].
    - split; [|split; assumption].
      split; cbn [stack start]; [|discriminate].
      intros it h Hit Hh. destruct (Hin it Hit) as [H|H].
      + eapply Hk; eassumption.
      + eapply reach_parent; [exact Hr | exact Hl | apply H; exact Hh]. }
  destruct (nextTurn_cases repo w t Ht)
    as [[c [Hs E]] | [[_ [_ E]] | [[stk [Hs [Hk E]]] | [h [hs [stk [c [Hs [Hk [L E]]]]]]]]]];
    subst t.
  - destruct (Hst c Hs) as [Hr Hl]. apply V; assumption.
  - exact I.
  - split; cbn [stack start]; [|discriminate].
    intros it h Hit Hh. apply (Hstk it h); [rewrite Hk; right; exact Hit | exact Hh].
  - pose proof (lookupObject_hash _ _ _ L) as Hh.
    assert (Hr : reachable (objects repo) root h)
      by (apply (Hstk (h :: hs) h); [rewrite Hk; left; reflexivity | left; reflexivity]).
    apply V.
    + rewrite Hh. exact Hr.
    + rewrite Hh. exact L.
    + intros it x [<-|Hit] Hx.
      * apply (Hstk (h :: hs) x); [rewrite Hk; left; reflexivity | right; exact Hx].
      * apply (Hstk it x); [rewrite Hk; right; exact Hit | exact Hx].
Qed.

(** Every commit the walk yields is an ancestor. *)
Lemma yields_reachable w l w' :
  yields repo w l w' -> walkInv repo root w ->
  forall c, In c l -> reachable (objects repo) root (CommitHash c).
Proof.
  induction 1 as [w | w w1 L w' Ht Hy IH | w c w1 L w' Ht Hy IH]; intros Hinv x Hx.
  - destruct Hx.
  - apply IH; [|exact Hx]. exact (walkInv_turn w _ Hinv Ht).
  - destruct (walkInv_turn w _ Hinv Ht) as [Hinv' [Hr _]].
    destruct Hx as [<-|Hx]; [exact Hr | apply IH; assumption].
Qed.

Hypothesis closed :
  forall h, reachable (objects repo) root h -> lookupObject (objects repo) h <> None.

Hypothesis no_stop :
  forall c, reachable (objects repo) root (CommitHash c) ->
            lookupObject (objects repo) (CommitHash c) = Some c ->
            result_of (cb c) = Ok None.

(** When every ancestor is stored and the callback stops at none of them,
    the walk comes to its end. *)
Lemma commitForEach_exhausts fuel :
  forall w, walkInv repo root w -> (turnsLeft repo w < fuel)%nat ->
            result_of (commitForEach repo fuel w cb) = Ok None.
Proof.
  induction fuel as [|fuel IH]; intros w Hinv Hfuel; [lia|].
  cbn [commitForEach]. run_results.
  assert (Hok : exists t, result_of (nextTurn repo w) = Ok t).
  { unfold nextTurn. destruct (start w); [eexists; reflexivity|].
    destruct (stack w) as [|[|h hs] stk] eqn:Hk; try (eexists; reflexivity).
    run_results.
    destruct (lookupObject (objects repo) h) eqn:L; [eexists; reflexivity|].
    exfalso. apply (closed h); [|exact L].
    destruct Hinv as [Hstk _]. apply (Hstk (h :: hs) h); [rewrite Hk|]; left; reflexivity. }
  destruct Hok as [t Ht]. rewrite Ht.
  pose proof (walkInv_turn w t Hinv Ht) as Hnext.
  destruct t as [c w'|w'|].
  - destruct Hnext as [Hinv' [Hr Hl]]. run_results. rewrite (no_stop c Hr Hl).
    apply IH; [exact Hinv'|].
    pose proof (turn_decreases repo w _ w' Ht (or_intror (ex_intro _ c eq_refl))). lia.
  - apply IH; [exact Hnext|].
    pose proof (turn_decreases repo w _ w' Ht (or_introl eq_refl)). lia.
  - reflexivity.
Qed.

End Walk.

Lemma walkInv_start repo commit :
  lookupObject (objects repo) (CommitHash commit) = Some commit ->
  walkInv repo (CommitHash commit) (NewCommitPreorderIter commit).
Proof.
  intros L. split; cbn [NewCommitPreorderIter stack start].
  - intros it h [].
  - intros c E. injection E as <-. split; [apply reach_root | exact L].
Qed.


(** ** The traversal order *)

(** What a turn does to the set of seen commits. *)
Lemma turn_seen repo w t :
  result_of (nextTurn repo w) = Ok t ->
  match t with
  | Yield c w' =>
      isSeen (seen w) (CommitHash c) = false
      /\ seen w' = CommitHash c :: seen w /\ start w' = None
  | Again w' => seen w' = seen w /\ start w' = None
  | EOF => start w = None /\ stack w = []
  end.
Proof.
  intros Ht.
  destruct (nextTurn_cases repo w t Ht)
    as [[c [Hs E]] | [[Hs [Hk E]] | [[stk [Hs [Hk E]]] | [h [hs [stk [c [Hs [Hk [L E]]]]]]]]]].
  - destruct (visit_cases _ _ _ _ E) as [[_ ->] | [Hns [stk' [-> _]]]];
      cbn [seen start]; auto.
  - subst t. auto.
  - subst t. cbn [seen start]. auto.
  - destruct (visit_cases _ _ _ _ E) as [[_ ->] | [Hns [stk' [-> _]]]];
      cbn [seen start]; auto.
Qed.

Lemma isSeen_true sn h : isSeen sn h = true <-> In h sn.
Proof.
  unfold isSeen. rewrite existsb_exists. split.
  - intros [x [Hx E]]. apply String.eqb_eq in E. subst. exact Hx.
  - intros H. exists h. split; [exact H | apply String.eqb_refl].
Qed.

(** The commits yielded are new, are seen afterwards, and are all that is
    added to the seen ones. *)
Lemma yields_seen repo w l w' :
  yields repo w l w' ->
  NoDup (map CommitHash l)
  /\ (forall c, In c l -> ~ In (CommitHash c) (seen w))
  /\ (forall h, In h (seen w') <-> In h (seen w) \/ In h (map CommitHash l)).
Proof.
  induction 1 as [w | w w1 L w' Ht Hy IH | w c w1 L w' Ht Hy IH].
  - split; [constructor|]. split; [intros c []|]. intros h. cbn [map In]. tauto.
  - destruct (turn_seen repo w _ Ht) as [Hs _]. rewrite Hs in IH. exact IH.
  - destruct (turn_seen repo w _ Ht) as [Hns [Hs _]].
    destruct IH as [Hnd [Hnew Hall]]. rewrite Hs in Hnew, Hall.
    assert (Hc : ~ In (CommitHash c) (seen w)).
    { intros H. apply isSeen_true in H. congruence. }
    split; [|split].
    + cbn [map]. constructor; [|exact Hnd].
      intros H. apply in_map_iff in H as [c' [E Hc']].
      apply (Hnew c' Hc'). left. symmetry. exact E.
    + intros x [<-|Hx]; [exact Hc|].
      intros H. apply (Hnew x Hx). right. exact H.
    + intros h. rewrite Hall. cbn [map In]. tauto.
Qed.

Lemma yields_split repo w l1 l2 w' :
  yields repo w (l1 ++ l2) w' ->
  exists w1, yields repo w l1 w1 /\ yields repo w1 l2 w'.
Proof.
  intros Hy. remember (l1 ++ l2)%list as L eqn:EL. revert l1 l2 EL.
  induction Hy as [w | w w1 L w' Ht Hy IH | w c w1 L w' Ht Hy IH]; intros l1 l2 EL.
  - destruct l1; [|discriminate]. cbn [app] in EL. subst l2.
    exists w. split; constructor.
  - destruct (IH l1 l2 EL) as [w2 [H1 H2]].
    exists w2. split; [eapply yields_again; eassumption | exact H2].
  - destruct l1 as [|c1 l1]; cbn [app] in EL.
    + exists w. split; [constructor|]. subst l2. eapply yields_cons; eassumption.
    + injection EL as <- EL. destruct (IH l1 l2 EL) as [w2 [H1 H2]].
      exists w2. split; [eapply yields_cons; eassumption | exact H2].
Qed.

(** First parent first: right after a commit whose first parent is new
    and stored, the iterator yields that parent. *)
Lemma first_parent_first repo w c w1 p ps cp :
  result_of (nextTurn repo w) = Ok (Yield c w1) ->
  ParentHashes c = p :: ps ->
  ~ In p (CommitHash c :: seen w) ->
  lookupObject (objects repo) p = Some cp ->
  exists w2, result_of (nextTurn repo w1) = Ok (Yield cp w2).
Proof.
  intros Ht Hp Hnew Lp.
  assert (Hns : isSeen (CommitHash c :: seen w) p = false).
  { destruct (isSeen (CommitHash c :: seen w) p) eqn:E; [|reflexivity].
    apply isSeen_true in E. contradiction. }
  assert (V : forall sn stk,
             sn = seen w ->
             visit c sn stk = Yield c w1 ->
             exists w2, result_of (nextTurn repo w1) = Ok (Yield cp w2)).
  { intros sn stk -> E. unfold visit in E.
    destruct (isSeen (seen w) (CommitHash c)); [discriminate|].
    rewrite Hp in E. injection E as <-.
    unfold nextTurn. cbn [start stack seen].
    unfold filteredParentIter. rewrite Hp. cbn [filter]. rewrite Hns. cbn [negb].
    run_results. rewrite Lp. cbn [rbind]. run_results.
    unfold visit. rewrite (lookupObject_hash _ _ _ Lp), Hns.
    eexists. reflexivity. }
  destruct (nextTurn_cases repo w _ Ht)
    as [[c0 [Hs E]] | [[_ [_ E]] | [[stk [Hs [Hk E]]] | [h [hs [stk [c0 [Hs [Hk [L E]]]]]]]]]];
    try discriminate.
  - assert (c0 = c).
    { destruct (visit_cases _ _ _ _ E) as [[_ E'] | [_ [stk' [E' _]]]];
        [discriminate E' | injection E' as -> _; reflexivity]. }
    subst c0. eapply V; [reflexivity | symmetry; exact E].
  - assert (c0 = c).
    { destruct (visit_cases _ _ _ _ E) as [[_ E'] | [_ [stk' [E' _]]]];
        [discriminate E' | injection E' as -> _; reflexivity]. }
    subst c0. eapply V; [reflexivity | symmetry; exact E].
Qed.

Section Order.

Variable repo : git.Repository.
Variable root : Hash.

Lemma pendingFrom_turn prev w t :
  pendingFrom prev w -> start w = None ->
  result_of (nextTurn repo w) = Ok t ->
  match t with
  | EOF => True
  | Again w' => pendingFrom prev w'
  | Yield c w' =>
      pendingFrom (prev ++ [c]) w'
      /\ exists child, In child prev /\ In (CommitHash c) (ParentHashes child)
  end.
Proof.
  intros Hp Hst Ht.
  destruct (nextTurn_cases repo w t Ht)
    as [[c [Hs E]] | [[_ [_ E]] | [[stk [Hs [Hk E]]] | [h [hs [stk [c [Hs [Hk [L E]]]]]]]]]];
    try congruence; subst t.
  - exact I.
  - intros it h Hit Hh. apply (Hp it h); [rewrite Hk; right; exact Hit | exact Hh].
  - pose proof (lookupObject_hash _ _ _ L) as Hh.
    assert (Hrest : forall it x, In it (hs :: stk) -> In x it ->
                                 exists child, In child prev /\ In x (ParentHashes child)).
    { intros it x [<-|Hit] Hx.
      - apply (Hp (h :: hs) x); [rewrite Hk; left; reflexivity | right; exact Hx].
      - apply (Hp it x); [rewrite Hk; right; exact Hit | exact Hx]. }
    destruct (visit_cases c (seen w) (hs :: stk) _ eq_refl)
      as [[_ ->] | [_ [stk' [-> [_ Hin]]]]].
    + exact Hrest.
    + split.
      * intros it x Hit Hx. cbn [stack] in Hit.
        destruct (Hin it Hit) as [H|H].
        -- destruct (Hrest it x H Hx) as [child [Hc Hx']].
           exists child. split; [apply in_or_app; left; exact Hc | exact Hx'].
        -- exists c. split; [apply in_or_app; right; left; reflexivity | apply H; exact Hx].
      * rewrite Hh. apply (Hp (h :: hs) h); [rewrite Hk|]; left; reflexivity.
Qed.

Lemma yields_parent_after_child prev w l w' :
  yields repo w l w' -> pendingFrom prev w -> start w = None ->
  forall l1 c l2, l = (l1 ++ c :: l2)%list ->
    exists child, In child (prev ++ l1) /\ In (CommitHash c) (ParentHashes child).
Proof.
  intros Hy. revert prev.
  induction Hy as [w | w w1 L w' Ht Hy IH | w c w1 L w' Ht Hy IH];
    intros prev Hp Hst l1 x l2 EL.
  - destruct l1; discriminate EL.
  - pose proof (pendingFrom_turn prev w _ Hp Hst Ht) as Hp'.
    destruct (turn_seen repo w _ Ht) as [_ Hst'].
    exact (IH prev Hp' Hst' l1 x l2 EL).
  - destruct (pendingFrom_turn prev w _ Hp Hst Ht) as [Hp' [child [Hc Hx]]].
    destruct (turn_seen repo w _ Ht) as [_ [_ Hst']].
    destruct l1 as [|c1 l1]; cbn [app] in EL; injection EL as <- EL.
    + exists child. rewrite List.app_nil_r. auto.
    + destruct (IH (prev ++ [c])%list Hp' Hst' l1 x l2 EL) as [ch [Hch Hx']].
      exists ch. split; [|exact Hx'].
      rewrite <- List.app_assoc in Hch. exact Hch.
Qed.

Lemma nothingLost_visit c sn stk rest :
  lookupObject (objects repo) (CommitHash c) = Some c ->
  In root sn \/ CommitHash c = root ->
  (forall h c' p, In h sn -> lookupObject (objects repo) h = Some c' ->
                  In p (ParentHashes c') ->
                  In p sn \/ p = CommitHash c \/ exists it, In it stk /\ In p it) ->
  rest = visit c sn stk ->
  match rest with
  | EOF => True
  | Again w' => isSeen sn (CommitHash c) = true /\ w' = mkIter sn stk None
  | Yield _ w' => nothingLost repo root w'
  end.
Proof.
  intros L Hroot Hold ->. unfold visit.
  destruct (isSeen sn (CommitHash c)) eqn:Hs; [auto|].
  unfold nothingLost. cbn [start seen stack].
  split; [destruct Hroot as [H|H]; [right; exact H | left; exact H]|].
  intros h c' p [<-|Hh] L' Hp.
  - rewrite L in L'. injection L' as <-.
    destruct (ParentHashes c) as [|q qs] eqn:P; [destruct Hp|].
    destruct (isSeen (CommitHash c :: sn) p) eqn:Sp.
    + left. apply isSeen_true. exact Sp.
    + right. exists (filteredParentIter c (CommitHash c :: sn)).
      split; [left; reflexivity|].
      unfold filteredParentIter. apply filter_In. rewrite P, Sp. auto.
  - destruct (Hold h c' p Hh L' Hp) as [H|[H|[it [Hit Hpit]]]].
    + left. right. exact H.
    + left. left. symmetry. exact H.
    + right. exists it. split; [|exact Hpit].
      destruct (ParentHashes c); [exact Hit | right; exact Hit].
Qed.

Lemma nothingLost_turn w t :
  nothingLost repo root w -> walkInv repo root w ->
  result_of (nextTurn repo w) = Ok t ->
  match t with
  | EOF => True
  | Again w' => nothingLost repo root w'
  | Yield _ w' => nothingLost repo root w'
  end.
Proof.
  intros Hn [_ Hst] Ht. unfold nothingLost in Hn.
  destruct (nextTurn_cases repo w t Ht)
    as [[c [Hs E]] | [[_ [_ E]] | [[stk [Hs [Hk E]]] | [h [hs [stk [c [Hs [Hk [L E]]]]]]]]]].
  - rewrite Hs in Hn. destruct Hn as [Hr [Hsn Hstk]].
    destruct (Hst c Hs) as [_ L].
    pose proof (nothingLost_visit c (seen w) (stack w) t L (or_intror Hr)) as V.
    rewrite Hsn in V, E.
    specialize (V (fun h c' p (H : In h []) _ _ => match H with end) E).
    destruct t as [c' w'|w'|]; [exact V | | exact I].
    destruct V as [V _]. cbn in V. discriminate.
  - subst t. exact I.
  - subst t. rewrite Hs in Hn. destruct Hn as [Hr Hcl].
    unfold nothingLost. cbn [start seen stack]. split; [exact Hr|].
    intros x c' p Hx L' Hp.
    destruct (Hcl x c' p Hx L' Hp) as [H|[it [Hit Hpit]]]; [left; exact H|].
    rewrite Hk in Hit. destruct Hit as [<-|Hit]; [destruct Hpit|].
    right. exists it. auto.
  - rewrite Hs in Hn. destruct Hn as [Hr Hcl].
    pose proof (lookupObject_hash _ _ _ L) as Hh.
    assert (L' : lookupObject (objects repo) (CommitHash c) = Some c)
      by (rewrite Hh; exact L).
    assert (Hold : forall x c' p, In x (seen w) ->
                     lookupObject (objects repo) x = Some c' ->
                     In p (ParentHashes c') ->
                     In p (seen w) \/ p = CommitHash c
                     \/ exists it, In it (hs :: stk) /\ In p it).
    { intros x c' p Hx Lx Hp.
      destruct (Hcl x c' p Hx Lx Hp) as [H|[it [Hit Hpit]]]; [left; exact H|].
      rewrite Hk in Hit. destruct Hit as [<-|Hit].
      - destruct Hpit as [<-|Hpit].
        + right. left. symmetry. exact Hh.
        + right. right. exists hs. split; [left; reflexivity | exact Hpit].
      - right. right. exists it. split; [right; exact Hit | exact Hpit]. }
    pose proof (nothingLost_visit c (seen w) (hs :: stk) t L' (or_introl Hr) Hold E) as V.
    destruct t as [c' w'|w'|]; [exact V | | exact I].
    destruct V as [Sc ->]. unfold nothingLost. cbn [start seen stack].
    split; [exact Hr|].
    intros x c' p Hx Lx Hp.
    destruct (Hold x c' p Hx Lx Hp) as [H|[H|H]]; [left; exact H | | right; exact H].
    left. subst p. apply isSeen_true. exact Sc.
Qed.

Lemma yields_nothingLost w l w' :
  yields repo w l w' -> nothingLost repo root w -> walkInv repo root w ->
  nothingLost repo root w' /\ walkInv repo root w'.
Proof.
  induction 1 as [w | w w1 L w' Ht Hy IH | w c w1 L w' Ht Hy IH]; intros Hn Hinv.
  - auto.
  - apply IH.
    + exact (nothingLost_turn w _ Hn Hinv Ht).
    + exact (walkInv_turn repo root w _ Hinv Ht).
  - apply IH.
    + exact (nothingLost_turn w _ Hn Hinv Ht).
    + exact (proj1 (walkInv_turn repo root w _ Hinv Ht)).
Qed.

(** At the end of the walk every ancestor has been seen. *)
Lemma nothingLost_end w :
  nothingLost repo root w -> result_of (nextTurn repo w) = Ok EOF ->
  forall h, reachable (objects repo) root h -> In h (seen w).
Proof.
  intros Hn Ht. destruct (turn_seen repo w _ Ht) as [Hs Hk].
  unfold nothingLost in Hn. rewrite Hs in Hn. destruct Hn as [Hr Hcl].
  intros h Hreach. induction Hreach as [|h c p _ IH L Hp]; [exact Hr|].
  destruct (Hcl h c p IH L Hp) as [H|[it [Hit _]]]; [exact H|].
  rewrite Hk in Hit. destruct Hit.
Qed.

End Order.


(** ** The whole traversal *)

Section Traversal.

Variable repo : git.Repository.
Variable revision : Hash.
Variable commit : Commit.

Hypothesis stored : lookupObject (objects repo) revision = Some commit.

Let walker := NewCommitPreorderIter commit.

Lemma walker_hash : CommitHash commit = revision.
Proof. exact (lookupObject_hash _ _ _ stored). Qed.

Lemma walker_inv : walkInv repo revision walker.
Proof.
  rewrite <- walker_hash. apply walkInv_start. rewrite walker_hash. exact stored.
Qed.

Lemma walker_first :
  result_of (nextTurn repo walker)
  = Ok (visit commit [] []).
Proof. reflexivity. Qed.

Lemma walker_nothingLost : nothingLost repo revision walker.
Proof. unfold nothingLost. cbn [walker NewCommitPreorderIter start seen stack].
       repeat split. apply walker_hash. Qed.

(** When every ancestor is in the store the walk comes to its end. *)
Lemma traversal_exists :
  (forall h, reachable (objects repo) revision h ->
             lookupObject (objects repo) h <> None) ->
  exists l, traversal repo commit l.
Proof.
  intros closed.
  assert (G : forall fuel w, walkInv repo revision w ->
                (turnsLeft repo w < fuel)%nat ->
                exists l w', yields repo w l w'
                             /\ result_of (nextTurn repo w') = Ok EOF).
  { induction fuel as [|fuel IH]; intros w Hinv Hfuel; [lia|].
    assert (Hok : exists t, result_of (nextTurn repo w) = Ok t).
    { unfold nextTurn. destruct (start w); [eexists; reflexivity|].
      destruct (stack w) as [|[|h hs] stk] eqn:Hk; try (eexists; reflexivity).
      run_results.
      destruct (lookupObject (objects repo) h) eqn:L; [eexists; reflexivity|].
      exfalso. apply (closed h); [|exact L].
      destruct Hinv as [Hstk _].
      apply (Hstk (h :: hs) h); [rewrite Hk|]; left; reflexivity. }
    destruct Hok as [t Ht].
    pose proof (walkInv_turn repo revision w t Hinv Ht) as Hnext.
    destruct t as [c w1|w1|].
    - destruct Hnext as [Hinv' _].
      destruct (IH w1 Hinv') as [l [w' [Hy He]]].
      { pose proof (turn_decreases repo w _ w1 Ht
                      (or_intror (ex_intro _ c eq_refl))). lia. }
      exists (c :: l), w'. split; [eapply yields_cons; eassumption | exact He].
    - destruct (IH w1 Hnext) as [l [w' [Hy He]]].
      { pose proof (turn_decreases repo w _ w1 Ht (or_introl eq_refl)). lia. }
      exists l, w'. split; [eapply yields_again; eassumption | exact He].
    - exists [], w. split; [constructor | exact Ht]. }
  destruct (G (walkFuel repo walker) walker walker_inv) as [l [w' H]].
  - unfold walkFuel. lia.
  - exists l, w'. exact H.
Qed.

(** The traversal is a pre-order of the ancestry: it starts with the
    commit, holds every ancestor exactly once and nothing else, and every
    later commit comes after one of its children. *)
Lemma traversal_is_preorder l :
  traversal repo commit l ->
  (exists l', l = commit :: l')
  /\ NoDup (map CommitHash l)
  /\ (forall h, reachable (objects repo) revision h <-> In h (map CommitHash l))
  /\ (forall l1 c l2, l = (l1 ++ c :: l2)%list -> l1 <> [] ->
        exists child, In child l1 /\ In (CommitHash c) (ParentHashes child)).
Proof.
  intros [w' [Hy He]].
  destruct (yields_seen repo walker l w' Hy) as [Hnd [_ Hall]].
  assert (Hhead : exists l' w1,
             l = commit :: l'
             /\ result_of (nextTurn repo walker) = Ok (Yield commit w1)
             /\ yields repo w1 l' w').
  { pose proof walker_first as WF. unfold walker in *.
    inversion Hy as [w E1 E2 | w w1 L w2 Ht Hy' | w c w1 L w2 Ht Hy']; subst.
    - rewrite WF in He. discriminate He.
    - rewrite WF in Ht. discriminate Ht.
    - rewrite WF in Ht. injection Ht as <- <-.
      eexists. eexists. split; [reflexivity|]. split; [exact WF | exact Hy']. }
  destruct Hhead as [l' [w1 [-> [Ht Hy']]]].
  split; [eexists; reflexivity|]. split; [exact Hnd|]. split.
  - intros h. split.
    + intros Hr.
      destruct (yields_nothingLost repo revision walker _ w' Hy
                  walker_nothingLost walker_inv) as [Hn _].
      pose proof (nothingLost_end repo revision w' Hn He h Hr) as Hs.
      apply Hall in Hs. destruct Hs as [[]|Hs]. exact Hs.
    + intros Hin. apply in_map_iff in Hin as [c [<- Hc]].
      exact (yields_reachable repo revision walker _ w' Hy walker_inv c Hc).
  - intros l1 c l2 EL Hne.
    destruct l1 as [|c1 l1]; [congruence|]. cbn [app] in EL. injection EL as <- EL.
    assert (Hp : pendingFrom [commit] w1).
    { pose proof walker_first as WF. unfold walker in *.
      assert (Ht' : visit commit [] [] = Yield commit w1)
        by (rewrite WF in Ht; congruence).
      destruct (visit_cases commit [] [] _ eq_refl)
        as [[Hs _] | [_ [stk' [E [_ Hin]]]]]; [discriminate Hs|].
      rewrite E in Ht'. injection Ht' as <-.
      intros it h Hit Hh. cbn [stack] in Hit.
      exists commit. split; [left; reflexivity|].
      destruct (Hin it Hit) as [[]|H]. apply H. exact Hh. }
    destruct (turn_seen repo walker _ Ht) as [_ [_ Hst]].
    exact (yields_parent_after_child repo [commit] w1 l' w' Hy' Hp Hst l1 c l2 EL).
Qed.

Variable A : Type.
Variable cb : Commit -> M (option A).

(** A walk over the whole traversal at no commit of which the callback
    stops. *)
Lemma commitForEach_all l w w' :
  yields repo w l w' ->
  result_of (nextTurn repo w') = Ok EOF ->
  (forall c, In c l -> result_of (cb c) = Ok None) ->
  forall fuel, (turnsLeft repo w < fuel)%nat ->
  result_of (commitForEach repo fuel w cb) = Ok None.
Proof.
  induction 1 as [w | w w1 L w' Ht Hy IH | w c w1 L w' Ht Hy IH];
    intros He Hl fuel Hfuel; (destruct fuel as [|fuel]; [lia|]);
    cbn [commitForEach]; run_results.
  - rewrite He. reflexivity.
  - rewrite Ht. apply (IH He Hl).
    pose proof (turn_decreases repo w _ w1 Ht (or_introl eq_refl)). lia.
  - rewrite Ht. run_results. rewrite (Hl c (or_introl eq_refl)).
    apply (IH He); [intros; apply Hl; right; assumption|].
    pose proof (turn_decreases repo w _ w1 Ht (or_intror (ex_intro _ c eq_refl))).
    lia.
Qed.

End Traversal.

Lemma firstTagged_split repo isPrerelease tagFilter l :
  (forall c, In c l -> exists r, tagAt repo isPrerelease tagFilter (CommitHash c) = Ok r) ->
  match firstTagged repo isPrerelease tagFilter l with
  | Some ref =>
      exists l1 a l2,
        l = (l1 ++ a :: l2)%list
        /\ (forall c, In c l1 ->
                      tagAt repo isPrerelease tagFilter (CommitHash c) = Ok None)
        /\ tagAt repo isPrerelease tagFilter (CommitHash a) = Ok (Some ref)
  | None =>
      forall c, In c l -> tagAt repo isPrerelease tagFilter (CommitHash c) = Ok None
  end.
Proof.
  induction l as [|c l IH]; intros Hok; cbn [firstTagged].
  - intros c [].
  - destruct (Hok c (or_introl eq_refl)) as [[ref|] E]; rewrite E.
    + exists [], c, l. split; [reflexivity|]. split; [intros x []|exact E].
    + specialize (IH (fun x Hx => Hok x (or_intror Hx))).
      destruct (firstTagged repo isPrerelease tagFilter l) as [ref|].
      * destruct IH as [l1 [a [l2 [-> [H1 H2]]]]].
        exists (c :: l1), a, l2. split; [reflexivity|]. split; [|exact H2].
        intros x [<-|Hx]; [exact E | apply H1; exact Hx].
      * intros x [<-|Hx]; [exact E | apply IH; exact Hx].
Qed.


(** ** The nearest tagged ancestor *)

Section Resolver.

Variable repo : git.Repository.
Variable isPrerelease : bool.
Variable tagFilter : option (string -> bool).
Variable revision : Hash.
Variable commit : Commit.

Hypothesis stored : lookupObject (objects repo) revision = Some commit.

Let walker := NewCommitPreorderIter commit.

Lemma mostRecentTag_walk :
  result_of (mostRecentTag repo revision isPrerelease tagFilter)
  = result_of (commitForEach repo (walkFuel repo walker) walker
                 (fun c => isExactTag repo (CommitHash c) isPrerelease tagFilter)).
Proof.
  unfold mostRecentTag, CommitObject. run_results. rewrite stored. reflexivity.
Qed.

Lemma determineBaseVersion_not_exact :
  tagAt repo isPrerelease tagFilter revision = Ok None ->
  result_of (determineBaseVersion repo revision isPrerelease tagFilter)
  = match result_of (mostRecentTag repo revision isPrerelease tagFilter) with
    | Ok (Some recentMatch) =>
        Ok (stripModuleTagPrefixes (Short (RefName recentMatch)), false)
    | Ok None => Ok ("0.0.0", false)
    | Err e => Err (Wrapf "finding recent tag" e)
    end.
Proof.
  unfold tagAt. intros Hexact. unfold determineBaseVersion, CommitObject.
  run_results. rewrite stored. cbn [rwrap]. run_results.
  rewrite (lookupObject_hash _ _ _ stored), Hexact. cbn [rwrap]. run_results.
  destruct (result_of (mostRecentTag repo revision isPrerelease tagFilter))
    as [[ref|]|e]; reflexivity.
Qed.

(** The first commit of the walk that bears a tag gives the base
    version, and it is an ancestor. *)
Lemma determineBaseVersion_first l a w' ref :
  tagAt repo isPrerelease tagFilter revision = Ok None ->
  yields repo walker (l ++ [a]) w' ->
  (forall c, In c l -> tagAt repo isPrerelease tagFilter (CommitHash c) = Ok None) ->
  tagAt repo isPrerelease tagFilter (CommitHash a) = Ok (Some ref) ->
  reachable (objects repo) revision (CommitHash a)
  /\ result_of (determineBaseVersion repo revision isPrerelease tagFilter)
     = Ok (stripModuleTagPrefixes (Short (RefName ref)), false).
Proof.
  intros Hexact Hy Hl Ha. split.
  - pose proof (lookupObject_hash _ _ _ stored) as Hh.
    rewrite <- Hh. apply (yields_reachable repo (CommitHash commit) walker _ w' Hy).
    + apply walkInv_start. rewrite Hh. exact stored.
    + apply in_or_app. right. left. reflexivity.
  - rewrite (determineBaseVersion_not_exact Hexact), mostRecentTag_walk.
    rewrite (commitForEach_first repo _
               (fun c => isExactTag repo (CommitHash c) isPrerelease tagFilter)
               l a ref walker w' Hy Hl Ha);
      [reflexivity | unfold walkFuel; lia].
Qed.

(** Without a tag on any ancestor the base version is 0.0.0. *)
Lemma determineBaseVersion_untagged :
  (forall h, reachable (objects repo) revision h ->
             lookupObject (objects repo) h <> None
             /\ tagAt repo isPrerelease tagFilter h = Ok None) ->
  result_of (determineBaseVersion repo revision isPrerelease tagFilter)
  = Ok ("0.0.0", false).
Proof.
  intros Hall.
  pose proof (lookupObject_hash _ _ _ stored) as Hh.
  rewrite (determineBaseVersion_not_exact (proj2 (Hall revision (reach_root _ _)))).
  rewrite mostRecentTag_walk.
  rewrite (commitForEach_exhausts repo _
             (fun c => isExactTag repo (CommitHash c) isPrerelease tagFilter)
             revision).
  - reflexivity.
  - intros h Hr. apply (Hall h Hr).
  - intros c Hr _. apply (Hall _ Hr).
  - rewrite <- Hh. apply walkInv_start. rewrite Hh. exact stored.
  - unfold walkFuel. lia.
Qed.

(** Over the whole traversal: the first tag in traversal order, or 0.0.0. *)
Lemma determineBaseVersion_traversal l :
  tagAt repo isPrerelease tagFilter revision = Ok None ->
  traversal repo commit l ->
  (forall c, In c l ->
             exists r, tagAt repo isPrerelease tagFilter (CommitHash c) = Ok r) ->
  result_of (determineBaseVersion repo revision isPrerelease tagFilter)
  = Ok (match firstTagged repo isPrerelease tagFilter l with
        | Some ref => (stripModuleTagPrefixes (Short (RefName ref)), false)
        | None => ("0.0.0", false)
        end).
Proof.
  intros Hexact [w' [Hy He]] Hok.
  pose proof (firstTagged_split repo isPrerelease tagFilter l Hok) as Hsplit.
  destruct (firstTagged repo isPrerelease tagFilter l) as [ref|].
  - destruct Hsplit as [l1 [a [l2 [-> [H1 H2]]]]].
    change (l1 ++ a :: l2)%list with (l1 ++ [a] ++ l2)%list in Hy.
    rewrite List.app_assoc in Hy.
    destruct (yields_split repo walker _ _ w' Hy) as [w1 [Hy1 _]].
    exact (proj2 (determineBaseVersion_first l1 a w1 ref Hexact Hy1 H1 H2)).
  - rewrite (determineBaseVersion_not_exact Hexact), mostRecentTag_walk.
    rewrite (commitForEach_all repo _
               (fun c => isExactTag repo (CommitHash c) isPrerelease tagFilter)
               l walker w' Hy He Hsplit);
      [reflexivity | unfold walkFuel; lia].
Qed.

End Resolver.

(** The five strings of a bumped version: the kind alpha, a dot and the
    Unix time of the commit, the hash unless omitted, the dirty marker. *)
Lemma buildLanguageVersions_bumped version d hash ts opts :
  Pre version = alphaPre ->
  let components := mkVersionComponents version d hash ts false in
  let base := FormatUint (Major version) ++ "." ++ FormatUint (Minor version)
              ++ "." ++ FormatUint (Patch version) in
  let v := base ++ "-alpha." ++ FormatInt ts ++ shortHashOf components opts
           ++ (if d then ".dirty" else "") in
  buildLanguageVersions components opts
  = Ok (mkLanguageVersions
          v (base ++ "a" ++ FormatInt ts ++ (if d then "+dirty" else ""))
          ("v" ++ v) v ("v" ++ v)).
Proof.
  intros Hpre components base v.
  unfold buildLanguageVersions.
  rewrite (buildPreVersionStrings_of_components components opts
             (mkPR "alpha" 0 false) [] "alpha" "a");
    [ | exact Hpre | reflexivity | simpl; tauto ].
  rewrite (preSuffix_not_exact components eq_refl).
  cbn [rbind Dirty components Timestamp genericVersionOf Major Minor Patch Semver].
  rewrite drop_1_dot.
  unfold v, base. destruct d; cbn [append String.eqb Ascii.eqb Bool.eqb];
    rewrite ?app_nil_r_s; rewrite ?app_assoc_s; cbn [append];
    rewrite ?app_assoc_s; cbn [append]; rewrite ?app_assoc_s; reflexivity.
Qed.

(** C9.  For a commit on which the resolver finds no exact tag:
    - the walk starts with the commit itself;
    - when the commits the pre-order iterator yields are, in order, some
      commits without a visible, filter-passing tag and then a commit with
      such a tag, that commit is an ancestor and the base version is its
      tag's version, with isExact false: the walk stops at the first tag;
    - hence, over the whole pre-order traversal of the ancestry, the base
      version is that of the first commit bearing such a tag, and 0.0.0
      when there is none, with isExact false;
    - when no commit reachable from it bears such a tag (all of them being
      in the store), the base version is 0.0.0 with isExact false, the
      bumped version is 0.0.1 with the prerelease alpha, and the strings
      carry the commit's Unix time as the suffix. *)
Theorem nearest_tagged_ancestor :
  forall repo isPrerelease tagFilter revision commit,
    lookupObject (objects repo) revision = Some commit ->
    tagAt repo isPrerelease tagFilter revision = Ok None ->
    let walker := NewCommitPreorderIter commit in
    (exists w1, yields repo walker [commit] w1)
    /\ (forall l a w' ref,
          yields repo walker (l ++ [a]) w' ->
          (forall c, In c l ->
                     tagAt repo isPrerelease tagFilter (CommitHash c) = Ok None) ->
          tagAt repo isPrerelease tagFilter (CommitHash a) = Ok (Some ref) ->
          reachable (objects repo) revision (CommitHash a)
          /\ result_of (determineBaseVersion repo revision isPrerelease tagFilter)
             = Ok (stripModuleTagPrefixes (Short (RefName ref)), false))
    /\ (forall l,
          traversal repo commit l ->
          (forall c, In c l ->
             exists r, tagAt repo isPrerelease tagFilter (CommitHash c) = Ok r) ->
          result_of (determineBaseVersion repo revision isPrerelease tagFilter)
          = Ok (match firstTagged repo isPrerelease tagFilter l with
                | Some ref => (stripModuleTagPrefixes (Short (RefName ref)), false)
                | None => ("0.0.0", false)
                end))
    /\ ((forall h, reachable (objects repo) revision h ->
                   lookupObject (objects repo) h <> None
                   /\ tagAt repo isPrerelease tagFilter h = Ok None) ->
        result_of (determineBaseVersion repo revision isPrerelease tagFilter)
        = Ok ("0.0.0", false)
        /\ forall compile opts dirty,
            Repository opts = Some repo ->
            ReleasePrefix opts = "" ->
            IsPreRelease opts = isPrerelease ->
            activeFilter compile opts = Ok tagFilter ->
            revisions repo (commitishOf opts) = Ok revision ->
            result_of (workTreeIsDirty repo) = Ok dirty ->
            let components :=
              mkVersionComponents (mkVersion 0 0 1 alphaPre []) dirty
                                  (take 8 revision) (CommitterWhen commit) false in
            let v := "0.0.1-alpha." ++ FormatInt (CommitterWhen commit)
                     ++ shortHashOf components opts
                     ++ (if dirty then ".dirty" else "") in
            result_of (getVersionComponents (effectiveOptions opts tagFilter))
            = Ok components
            /\ result_of (Calculate compile opts)
               = Ok (mkLanguageVersions
                       v ("0.0.1a" ++ FormatInt (CommitterWhen commit)
                          ++ (if dirty then "+dirty" else ""))
                       ("v" ++ v) v ("v" ++ v))).
Proof.
  intros repo isPrerelease tagFilter revision commit Hobj Hexact walker.
  split; [|split; [|split]].
  - eexists. eapply yields_cons; [|apply yields_nil].
    unfold walker, NewCommitPreorderIter, nextTurn. cbn [start seen stack].
    unfold visit. cbn [isSeen existsb]. reflexivity.
  - intros l a w' ref Hy Hl Ha.
    exact (determineBaseVersion_first repo isPrerelease tagFilter revision commit
             Hobj l a w' ref Hexact Hy Hl Ha).
  - intros l Ht Hok.
    exact (determineBaseVersion_traversal repo isPrerelease tagFilter revision
             commit Hobj l Hexact Ht Hok).
  - intros Hall.
    pose proof (determineBaseVersion_untagged repo isPrerelease tagFilter
                  revision commit Hobj Hall) as Hbase.
    split; [exact Hbase|].
    intros compile opts dirty Hrepo Hprefix Hpre Hfilter Hrev Hdirty components v.
    assert (Hc : result_of (getVersionComponents (effectiveOptions opts tagFilter))
                 = Ok components).
    { erewrite getVersionComponents_result;
        [ | exact Hrepo | exact Hrev | exact Hobj
          | cbn [effectiveOptions IsPreRelease TagFilter]; rewrite Hpre; exact Hbase
          | reflexivity | exact Hdirty ].
      cbn [effectiveOptions ReleasePrefix]. rewrite Hprefix. reflexivity. }
    split; [exact Hc|].
    rewrite (Calculate_result compile opts repo tagFilter Hrepo Hfilter), Hc.
    cbn [rwrap rbind]. unfold v, components.
    rewrite (buildLanguageVersions_bumped (mkVersion 0 0 1 alphaPre []) dirty
               (take 8 revision) (CommitterWhen commit)
               (effectiveOptions opts tagFilter) eq_refl).
    reflexivity.
Qed.

Lemma nearest_tagged_ancestor_witness :
  result_of (determineBaseVersion (twoCommits "v1.0.0" hashB true) hashB false None)
  = Ok ("1.0.0", false)
  /\ result_of (Calculate stubCompile (plainOptions oneCommit))
     = Ok (mkLanguageVersions "0.0.1-alpha.1600000000+aaaaaaaa" "0.0.1a1600000000"
                              "v0.0.1-alpha.1600000000+aaaaaaaa"
                              "0.0.1-alpha.1600000000+aaaaaaaa"
                              "v0.0.1-alpha.1600000000+aaaaaaaa").
Proof.
  split.
  - destruct (nearest_tagged_ancestor (twoCommits "v1.0.0" hashB true) false None
                hashB (mkCommit hashB [hashA] 1700000000) eq_refl eq_refl)
      as [_ [Hfirst _]].
    refine (proj2 (Hfirst [mkCommit hashB [hashA] 1700000000]
                          (mkCommit hashA [] 1600000000) _ tagV100 _ _ eq_refl)).
    + eapply yields_cons; [reflexivity|].
      eapply yields_cons; [reflexivity|].
      apply yields_nil.
    + intros c [<-|[]]. reflexivity.
  - destruct (nearest_tagged_ancestor oneCommit false None
                hashA (mkCommit hashA [] 1600000000) eq_refl eq_refl)
      as [_ [_ [_ Hnone]]].
    assert (Hall : forall h, reachable (objects oneCommit) hashA h ->
                             lookupObject (objects oneCommit) h <> None
                             /\ tagAt oneCommit false None h = Ok None).
    { assert (Hroot : forall h, reachable (objects oneCommit) hashA h -> h = hashA).
      { intros h Hr. induction Hr as [|h c p Hr IH L Hp]; [reflexivity|].
        subst h. injection L as <-. destruct Hp. }
      intros h Hr. rewrite (Hroot h Hr). split; [discriminate | reflexivity]. }
    destruct (Hnone Hall) as [_ Hcalc].
    exact (proj2 (Hcalc stubCompile (plainOptions oneCommit) false
                        eq_refl eq_refl eq_refl eq_refl eq_refl eq_refl)).
Defined.


(* ================================================================== *)
(** * The converter: which strings it accepts, and what it returns *)
(* ================================================================== *)

Import xprops.

(** [strings.Index] for a one-byte separator: the text before the first
    separator has none. *)
Lemma Index_char_cases c s :
  match Index s (String c "") with
  | None => notChar c s = true
  | Some m =>
      s = take m s ++ String c (drop (S m) s)
      /\ notChar c (take m s) = true
      /\ (m < String.length s)%nat
  end.
Proof.
  induction s as [|d s IH].
  - reflexivity.
  - cbn [Index]. rewrite HasPrefix_char.
    destruct (Ascii.eqb c d) eqn:E.
    + apply Ascii.eqb_eq in E. subst d. cbn. repeat split. lia.
    + destruct (Index s (String c "")) as [m|]; cbn [option_map].
      * destruct IH as [Hs [Hn Hl]]. cbn [take drop append String.length].
        repeat split.
        -- f_equal. exact Hs.
        -- unfold notChar. cbn [forallb]. rewrite Ascii.eqb_sym, E. exact Hn.
        -- lia.
      * unfold notChar. cbn [forallb]. rewrite Ascii.eqb_sym, E. exact IH.
Qed.

Lemma countChar_app c a b :
  countChar c (a ++ b) = (countChar c a + countChar c b)%nat.
Proof.
  induction a as [|d a IH]; [reflexivity|].
  cbn [append countChar]. rewrite IH. lia.
Qed.

Lemma countChar_notChar c s : notChar c s = true -> countChar c s = 0%nat.
Proof.
  induction s as [|d s IH]; [reflexivity|].
  unfold notChar. cbn [forallb countChar]. intros H.
  apply andb_true_iff in H. destruct H as [H1 H2].
  apply negb_true_iff in H1. rewrite H1. exact (IH H2).
Qed.

Lemma countChar_le c s : (countChar c s <= String.length s)%nat.
Proof.
  induction s as [|d s IH]; [apply Nat.le_refl|].
  cbn [countChar String.length]. destruct (Ascii.eqb d c); lia.
Qed.

(** The pieces of a split at a one-byte separator: one more than the
    separators that were cut at. *)
Lemma genSplit_length c n s :
  List.length (genSplit n s (String c ""))
  = S (Nat.min n (countChar c s)).
Proof.
  revert s. induction n as [|n IH]; intros s; [reflexivity|].
  cbn [genSplit]. pose proof (Index_char_cases c s) as H.
  destruct (Index s (String c "")) as [m|].
  - destruct H as [Hs [Hn _]]. cbn [List.length]. rewrite IH.
    cbn [String.length]. replace (m + 1)%nat with (S m) by lia.
    rewrite Hs at 2. rewrite countChar_app, (countChar_notChar _ _ Hn).
    cbn [countChar]. rewrite Ascii.eqb_refl. cbn [Nat.add]. reflexivity.
  - rewrite (countChar_notChar _ _ H). rewrite Nat.min_0_r. reflexivity.
Qed.

Lemma Split_length c s :
  List.length (Split s (String c "")) = S (countChar c s).
Proof.
  unfold Split. rewrite genSplit_length.
  pose proof (countChar_le c s). f_equal. lia.
Qed.

Lemma SplitN_3_pieces s :
  List.length (SplitN s "." 3) = S (Nat.min 2 (countChar "." s)).
Proof.
  unfold SplitN. rewrite genSplit_length.
  pose proof (countChar_le "." s). f_equal. lia.
Qed.

(** Cutting at the first two dots loses nothing: the three pieces, put
    together again with dots, are the text. *)
Lemma SplitN_3_join s a b c :
  SplitN s "." 3 = [a; b; c] -> s = a ++ "." ++ b ++ "." ++ c.
Proof.
  intros H. pose proof (SplitN_3_pieces s) as HL. rewrite H in HL.
  cbn [List.length] in HL.
  assert (Hc : (2 <= countChar "." s)%nat) by lia.
  pose proof (countChar_le "." s) as Hlen.
  unfold SplitN in H.
  replace (Nat.min 3 (String.length s + 1) - 1)%nat with 2%nat in H by lia.
  cbn [genSplit] in H.
  pose proof (Index_char_cases "." s) as H1.
  destruct (Index s ".") as [m|]; [|discriminate H].
  destruct H1 as [Hs [_ _]].
  cbn [String.length] in H. replace (m + 1)%nat with (S m) in H by lia.
  pose proof (Index_char_cases "." (drop (S m) s)) as H2.
  destruct (Index (drop (S m) s) ".") as [k|]; [|discriminate H].
  destruct H2 as [Hs2 [_ _]].
  cbn [String.length] in H. replace (k + 1)%nat with (S k) in H by lia.
  injection H as <- <- <-.
  rewrite Hs at 1. f_equal. cbn [append]. f_equal. exact Hs2.
Qed.

(** The back-conversion of a prerelease text never fails. *)
Lemma getPythonPreVersion_ok pre : exists py, getPythonPreVersion pre = Ok py.
Proof.
  unfold getPythonPreVersion.
  destruct (String.eqb pre ""); [eexists; reflexivity|].
  destruct (getPythonPrePrefix pre) as [prefix remaining].
  eexists; reflexivity.
Qed.

Lemma convertPatchToPython_ok patch : exists py, convertPatchToPython patch = Ok py.
Proof.
  unfold convertPatchToPython.
  destruct (patchRe_FindStringSubmatch patch) as [[version pre]|].
  - destruct (getPythonPreVersion_ok pre) as [py ->]. eexists; reflexivity.
  - eexists; reflexivity.
Qed.

(** The two outcomes of [CalculateFromString], by the number of dots. *)
Lemma CalculateFromString_by_dots version :
  let n := TrimPrefix version "v" in
  ((2 <= countChar "." n)%nat ->
   exists py, CalculateFromString version = Ok (languageVersionsOf n py))
  /\ ((countChar "." n < 2)%nat ->
      CalculateFromString version = Err (ErrExactly3Parts version)).
Proof.
  intros n. unfold CalculateFromString. fold n.
  pose proof (SplitN_3_pieces n) as HL.
  pose proof (SplitN_3_join n) as HJ.
  destruct (SplitN n "." 3) as [|a [|b [|c [|d l]]]]; cbn [List.length] in HL;
    try (split; intros; [exfalso; lia | reflexivity]);
    try (split; intros; exfalso; lia).
  destruct (convertPatchToPython_ok c) as [py ->].
  cbn [rwrap rbind]. rewrite <- (HJ a b c eq_refl).
  split; intros; [eexists; reflexivity | exfalso; lia].
Qed.

(** X1.  [CalculateFromString] asks for two dots and nothing else.  With
    [n] the input less one leading "v": when [n] has fewer than two dots
    the call fails with the three-parts error that quotes the input; in
    every other case it succeeds, whatever the parts are, and the generic
    and .NET strings are [n] itself, byte for byte, and the JavaScript and
    Go strings are "v" followed by [n]. *)
Theorem CalculateFromString_accepts_two_dots :
  forall version,
    let n := TrimPrefix version "v" in
    match CalculateFromString version with
    | Ok lv =>
        (2 <= countChar "." n)%nat
        /\ SemVer lv = n /\ DotNet lv = n
        /\ JavaScript lv = "v" ++ n /\ Go lv = "v" ++ n
    | Err e =>
        (countChar "." n < 2)%nat /\ e = ErrExactly3Parts version
    end.
Proof.
  intros version n.
  destruct (CalculateFromString_by_dots version) as [Hok Herr]. fold n in Hok, Herr.
  destruct (le_lt_dec 2 (countChar "." n)) as [H|H].
  - destruct (Hok H) as [py ->]. repeat split. exact H.
  - rewrite (Herr H). split; [exact H | reflexivity].
Qed.

(** ** The command line and the converter *)


(** X2.  The first command line hands to the converter only what the
    converter accepts: an argument that [isVersionString] takes for a
    version is converted by [CalculateFromString] without error, so the
    error branch of [convertVersion] is never taken from [Run]; the generic
    string printed is the argument less one leading "v". *)
Theorem isVersionString_converts :
  forall input,
    cmd.isVersionString input = true ->
    exists py,
      CalculateFromString input
      = Ok (languageVersionsOf (TrimPrefix input "v") py).
Proof.
  intros input H. unfold cmd.isVersionString in H.
  destruct (Contains input "."); [|discriminate H]. cbv zeta in H.
  destruct (TrimPrefix input "v") as [|c t] eqn:E; [discriminate H|].
  destruct (isDigit c); [|discriminate H].
  rewrite Split_length in H. apply Nat.leb_le in H.
  destruct (CalculateFromString_by_dots input) as [Hok _].
  rewrite E in Hok. apply Hok. lia.
Qed.

Lemma isVersionString_converts_witness :
  exists py,
    CalculateFromString "v1.2.3-alpha.1"
    = Ok (languageVersionsOf (TrimPrefix "v1.2.3-alpha.1" "v") py).
Proof. apply (isVersionString_converts "v1.2.3-alpha.1"). reflexivity. Defined.



Lemma notChar_app c a b : notChar c (a ++ b) = notChar c a && notChar c b.
Proof. apply forallb_app. Qed.







(* ================================================================== *)
(** * The formatter, and the converter applied to what it prints *)
(* ================================================================== *)

Lemma FormatInt_nonneg z : (0 <= z)%Z -> FormatInt z = FormatUint (Z.to_N z).
Proof. destruct z; [reflexivity | reflexivity | lia]. Qed.

Lemma base_app X Y Z t :
  (X ++ "." ++ Y ++ "." ++ Z) ++ t = X ++ "." ++ Y ++ "." ++ Z ++ t.
Proof.
  rewrite app_assoc_s. cbn [append]. f_equal. f_equal.
  rewrite app_assoc_s. reflexivity.
Qed.

Lemma knownKind_In kind :
  knownKind kind = true -> exists pk, In (kind, pk) prereleaseKinds.
Proof.
  unfold knownKind, prereleaseKinds. cbn [existsb fst].
  intros H. repeat (apply orb_true_iff in H; destruct H as [H|H]);
    try discriminate H;
    apply String.eqb_eq in H; subst kind; eexists; cbn [In]; eauto 6.
Qed.

(** The strings of a prerelease of a known kind. *)
Lemma buildLanguageVersions_prerelease components opts pre0 rest pk :
  Pre (Semver components) = pre0 :: rest ->
  In (VersionStr pre0, pk) prereleaseKinds ->
  buildLanguageVersions components opts
  = Ok (languageVersionsOf
          (baseOf components ++ "-" ++ VersionStr pre0 ++ preSuffixOf components
           ++ shortHashOf components opts
           ++ (if Dirty components then ".dirty" else ""))
          (baseOf components ++ pk ++ drop 1 (preSuffixOf components)
           ++ (if Dirty components then "+dirty" else ""))).
Proof.
  intros Hpre Hin. unfold buildLanguageVersions.
  rewrite (buildPreVersionStrings_of_components components opts
             pre0 rest (VersionStr pre0) pk Hpre eq_refl Hin).
  cbn [rbind genericVersionOf Major Minor Patch]. fold (baseOf components).
  unfold languageVersionsOf.
  destruct (Dirty components); cbn [append String.eqb];
    rewrite ?app_nil_r_s, ?app_assoc_s; cbn [append];
    rewrite ?app_assoc_s; cbn [append]; rewrite ?app_assoc_s; reflexivity.
Qed.

(** The formatter fails on a first prerelease identifier of no known
    kind. *)
Lemma buildLanguageVersions_unknown components opts pre0 rest :
  Pre (Semver components) = pre0 :: rest ->
  knownKind (VersionStr pre0) = false ->
  buildLanguageVersions components opts
  = Err (ErrInvalidPrereleaseType (VersionStr pre0)).
Proof.
  intros Hpre Hk. unfold knownKind, prereleaseKinds in Hk. cbn [existsb fst] in Hk.
  repeat (apply orb_false_iff in Hk; destruct Hk as [?H Hk]).
  unfold buildLanguageVersions, buildPreVersionStrings, genericVersionOf.
  rewrite Hpre. cbn [Pre].
  assert (E : forall k, String.eqb k (VersionStr pre0) = false ->
                        String.eqb (VersionStr pre0) k = false)
    by (intros k Hk'; rewrite String.eqb_sym; exact Hk').
  destruct rest as [|pre1 rest]; cbv zeta;
    rewrite (E _ H), (E _ H0), (E _ H1), (E _ H2); reflexivity.
Qed.

(** ** The converter on a formatted string *)

Lemma isWord_false_isDigit c : isWord c = false -> isDigit c = false.
Proof.
  intros H. destruct (isDigit c) eqn:E; [|reflexivity].
  rewrite (isDigit_isWord _ E) in H. discriminate H.
Qed.

(** The ordinal of ".n" followed by nothing or by a non-word byte. *)
Lemma pep440Ordinal_dot_number n b :
  isNumber n = true -> startsOffWord b = true ->
  pep440Ordinal (String "." (n ++ b)) = n.
Proof.
  intros Hn Hb. pose proof (isNumber_digits _ Hn) as Hd.
  unfold pep440Ordinal.
  destruct b as [|x b].
  - rewrite app_nil_r_s, (numRe_dot_number _ Hn). reflexivity.
  - cbn [startsOffWord] in Hb. apply negb_true_iff in Hb.
    pose proof (isWord_false_isDigit _ Hb) as Hx.
    destruct (isNumber_cons _ Hn) as [c [n' [E _]]].
    cbn [numRe_FindStringSubmatch]. unfold numRe_matchHere.
    change (isWord ".") with false. cbv iota.
    rewrite (takeWhile_app _ _ _ _ Hd Hx), (dropWhile_app _ _ _ _ Hd Hx).
    rewrite Hb. rewrite E. reflexivity.
Qed.

Lemma notChar_hash_token c n h :
  isDigit c = false -> isLowerHex c = false -> Ascii.eqb c "." = false ->
  Ascii.eqb c "+" = false ->
  isNumber n = true -> isShortHash h = true ->
  forall withHash : bool,
    notChar c (String "." n ++ (if withHash then "+" ++ h else "")) = true.
Proof.
  intros Hc Hx Hdot Hplus Hn Hh withHash.
  pose proof (isNumber_digits _ Hn) as Hd.
  destruct (isShortHash_parts _ Hh) as [_ Hhex].
  rewrite notChar_app. apply andb_true_iff. split.
  - unfold notChar. cbn [forallb]. rewrite Ascii.eqb_sym, Hdot.
    exact (digits_notChar c n Hc Hd).
  - destruct withHash; [|reflexivity].
    cbn [append]. unfold notChar. cbn [forallb].
    rewrite Ascii.eqb_sym, Hplus. exact (hex_notChar c h Hx Hhex).
Qed.

(** The back-conversion of what the formatter prints after the patch
    number: the kind, a dot and a number, then the hash if it is shown,
    then the dirty mark if the tree is dirty. *)
Lemma getPythonPreVersion_formatted kind pk n h (withHash dirty : bool) :
  In (kind, pk) prereleaseKinds ->
  isNumber n = true -> isShortHash h = true ->
  getPythonPreVersion
    ("-" ++ kind ++ "." ++ n ++ (if withHash then "+" ++ h else "")
     ++ (if dirty then ".dirty" else ""))
  = Ok (pk ++ n ++ (if dirty then "+dirty" else "")).
Proof.
  intros Hin Hn Hh. pose proof (isNumber_digits _ Hn) as Hd.
  rewrite (getPythonPreVersion_kind _ _ _ Hin).
  set (r := String "." n ++ (if withHash then "+" ++ h else "")).
  assert (Hr : Contains r "dirty" = false).
  { apply Contains_dirty_no_i.
    apply notChar_hash_token; try reflexivity; assumption. }
  set (b := if dirty then "." else "").
  assert (Hstage :
    Contains ("." ++ n ++ (if withHash then "+" ++ h else "")
              ++ (if dirty then ".dirty" else "")) "dirty" = dirty
    /\ (if dirty
        then ReplaceFirst ("." ++ n ++ (if withHash then "+" ++ h else "")
                           ++ ".dirty") "dirty"
        else "." ++ n ++ (if withHash then "+" ++ h else "") ++ "")
       = r ++ b).
  { replace ("." ++ n ++ (if withHash then "+" ++ h else "")
             ++ (if dirty then ".dirty" else ""))
      with (r ++ (if dirty then ".dirty" else ""))
      by (unfold r; cbn [append]; rewrite app_assoc_s; reflexivity).
    replace ("." ++ n ++ (if withHash then "+" ++ h else "") ++ ".dirty")
      with (r ++ String "." "dirty")
      by (unfold r; cbn [append]; rewrite app_assoc_s; reflexivity).
    replace ("." ++ n ++ (if withHash then "+" ++ h else "") ++ "")
      with (r ++ "")
      by (unfold r; cbn [append]; rewrite app_assoc_s; reflexivity).
    unfold b. destruct dirty.
    - destruct (Contains_sep "dirty" r "." "dirty") as [HC HR];
        [discriminate | reflexivity | exact Hr |].
      rewrite HC, HR. split; reflexivity.
    - rewrite app_nil_r_s. split; [exact Hr | reflexivity]. }
  destruct Hstage as [HC HS]. rewrite HC.
  replace (if dirty
           then ReplaceFirst ("." ++ n ++ (if withHash then "+" ++ h else "")
                              ++ (if dirty then ".dirty" else "")) "dirty"
           else "." ++ n ++ (if withHash then "+" ++ h else "")
                ++ (if dirty then ".dirty" else ""))
    with (r ++ b) by (rewrite <- HS; destruct dirty; reflexivity).
  assert (Hb : notChar "+" b = true /\ startsOffWord b = true)
    by (unfold b; destruct dirty; split; reflexivity).
  destruct Hb as [Hb1 Hb2].
  assert (Ha : notChar "+" (String "." n) = true).
  { unfold notChar. cbn [forallb]. apply andb_true_iff. split; [reflexivity|].
    apply (digits_notChar "+"); [reflexivity | exact Hd]. }
  assert (Hstrip : stripHash (r ++ b) = String "." (n ++ b)).
  { unfold r. destruct withHash.
    - rewrite app_assoc_s.
      replace (("+" ++ h) ++ b) with ("+" ++ h ++ b) by reflexivity.
      rewrite (stripHash_single _ _ _ Ha Hh Hb1 Hb2). reflexivity.
    - rewrite app_nil_r_s. apply stripHash_none.
      change (notChar "+" (String "." n ++ b) = true).
      rewrite notChar_app, Ha, Hb1. reflexivity. }
  rewrite Hstrip, (pep440Ordinal_dot_number _ _ Hn Hb2).
  unfold pep440Assemble.
  replace (String.eqb pk "") with false.
  2:{ simpl in Hin.
      destruct Hin as [H|[H|[H|[H|[]]]]]; injection H as <- <-; reflexivity. }
  rewrite app_assoc_s. reflexivity.
Qed.

(** The patch expression on a number followed by nothing or by text that
    begins with a byte that is no digit. *)
Lemma patchRe_number_tail Z t :
  isNumber Z = true ->
  match t with EmptyString => true | String c _ => negb (isDigit c) end = true ->
  notChar newline t = true ->
  patchRe_FindStringSubmatch (Z ++ t) = Some (Z, t).
Proof.
  intros HZ Ht Hnl. pose proof (isNumber_digits _ HZ) as Hd.
  destruct (isNumber_cons _ HZ) as [c [Z' [E _]]].
  unfold patchRe_FindStringSubmatch.
  destruct t as [|x t].
  - rewrite app_nil_r_s, (takeWhile_all _ _ Hd), (dropWhile_all _ _ Hd).
    rewrite E. reflexivity.
  - apply negb_true_iff in Ht.
    rewrite (takeWhile_app _ _ _ _ Hd Ht), (dropWhile_app _ _ _ _ Hd Ht).
    unfold notChar in Hnl. rewrite Hnl. rewrite E. reflexivity.
Qed.

(** The converter on three numbers and a tail. *)
Lemma CalculateFromString_numbers X Y Z t py :
  isNumber X = true -> isNumber Y = true -> isNumber Z = true ->
  match t with EmptyString => true | String c _ => negb (isDigit c) end = true ->
  notChar newline t = true ->
  getPythonPreVersion t = Ok py ->
  CalculateFromString (X ++ "." ++ Y ++ "." ++ Z ++ t)
  = Ok (languageVersionsOf (X ++ "." ++ Y ++ "." ++ Z ++ t)
                           (X ++ "." ++ Y ++ "." ++ Z ++ py)).
Proof.
  intros HX HY HZ Ht Hnl Hpy.
  pose proof (isNumber_digits _ HX) as HdX.
  pose proof (isNumber_digits _ HY) as HdY.
  unfold CalculateFromString.
  assert (Etrim : TrimPrefix (X ++ "." ++ Y ++ "." ++ Z ++ t) "v"
                  = X ++ "." ++ Y ++ "." ++ Z ++ t).
  { destruct (isNumber_cons _ HX) as [c [X' [-> [Hc _]]]].
    apply TrimPrefix_v_digit. exact Hc. }
  rewrite Etrim.
  rewrite SplitN_3 by (apply digits_notChar; [reflexivity | assumption]).
  unfold convertPatchToPython.
  rewrite (patchRe_number_tail _ _ HZ Ht Hnl), Hpy. reflexivity.
Qed.

(** A leading "v" before a digit is dropped and changes nothing else. *)
Lemma CalculateFromString_v c s lv :
  isDigit c = true ->
  CalculateFromString (String c s) = Ok lv ->
  CalculateFromString ("v" ++ String c s) = Ok lv.
Proof.
  intros Hc H. unfold CalculateFromString in *.
  rewrite (TrimPrefix_v_digit _ _ Hc) in H.
  change (TrimPrefix ("v" ++ String c s) "v") with (String c s).
  destruct (SplitN (String c s) "." 3) as [|a [|b [|p [|d l]]]];
    try discriminate H.
  exact H.
Qed.

Lemma preSuffixOf_number components :
  (IsExact components = false -> (0 <= Timestamp components)%Z) ->
  exists n, isNumber n = true /\ preSuffixOf components = "." ++ n.
Proof.
  intros Hts. unfold preSuffixOf.
  destruct (IsExact components); cbn [negb].
  - destruct (Pre (Semver components)) as [|pre0 [|pre1 rest]].
    + exists "0". split; reflexivity.
    + exists "0". split; reflexivity.
    + eexists. split; [apply FormatUint_isNumber | reflexivity].
  - rewrite (FormatInt_nonneg _ (Hts eq_refl)).
    eexists. split; [apply FormatUint_isNumber | reflexivity].
Qed.

Lemma formatted_tail_no_newline kind pk n h (withHash dirty : bool) :
  In (kind, pk) prereleaseKinds ->
  isNumber n = true -> isShortHash h = true ->
  notChar newline
    ("-" ++ kind ++ "." ++ n ++ (if withHash then "+" ++ h else "")
     ++ (if dirty then ".dirty" else "")) = true.
Proof.
  intros Hin Hn Hh.
  replace ("-" ++ kind ++ "." ++ n ++ (if withHash then "+" ++ h else "")
           ++ (if dirty then ".dirty" else ""))
    with (("-" ++ kind)
          ++ (String "." n ++ (if withHash then "+" ++ h else ""))
          ++ (if dirty then ".dirty" else "")).
  2:{ cbn [append]. rewrite !app_assoc_s. cbn [append].
      rewrite ?app_assoc_s. reflexivity. }
  rewrite (notChar_app newline ("-" ++ kind)).
  rewrite (notChar_app newline
             (String "." n ++ (if withHash then "+" ++ h else ""))).
  rewrite (notChar_hash_token newline n h eq_refl eq_refl eq_refl eq_refl
             Hn Hh withHash).
  replace (notChar newline ("-" ++ kind)) with true.
  2:{ simpl in Hin.
      destruct Hin as [H|[H|[H|[H|[]]]]]; injection H as <- <-; reflexivity. }
  destruct dirty; reflexivity.
Qed.

(** The converter reads back what the formatter prints: on the generic
    string, and on the JavaScript and Go strings, it returns the five
    strings the formatter built. *)
Lemma buildLanguageVersions_converts_back :
  forall components opts lv,
    buildLanguageVersions components opts = Ok lv ->
    isShortHash (ShortHash components) = true ->
    (IsExact components = false -> (0 <= Timestamp components)%Z) ->
    CalculateFromString (SemVer lv) = Ok lv
    /\ CalculateFromString (JavaScript lv) = Ok lv
    /\ CalculateFromString (Go lv) = Ok lv.
Proof.
  intros components opts lv H Hh Hts.
  set (X := FormatUint (Major (Semver components))).
  set (Y := FormatUint (Minor (Semver components))).
  set (Z := FormatUint (Patch (Semver components))).
  assert (HX : isNumber X = true) by apply FormatUint_isNumber.
  assert (HY : isNumber Y = true) by apply FormatUint_isNumber.
  assert (HZ : isNumber Z = true) by apply FormatUint_isNumber.
  assert (Hgoal : exists t py,
             lv = languageVersionsOf (X ++ "." ++ Y ++ "." ++ Z ++ t)
                                     (X ++ "." ++ Y ++ "." ++ Z ++ py)
             /\ CalculateFromString (X ++ "." ++ Y ++ "." ++ Z ++ t) = Ok lv).
  { destruct (Pre (Semver components)) as [|pre0 rest] eqn:Hpre.
    - rewrite (buildLanguageVersions_release components opts Hpre) in H.
      fold X Y Z in H. injection H as <-.
      exists (if Dirty components then "+dirty" else "").
      exists (if Dirty components then "+dirty" else "").
      split; [reflexivity|].
      apply CalculateFromString_numbers; try assumption;
        destruct (Dirty components); reflexivity.
    - destruct (knownKind (VersionStr pre0)) eqn:Hk.
      2:{ rewrite (buildLanguageVersions_unknown components opts pre0 rest
                     Hpre Hk) in H. discriminate H. }
      destruct (knownKind_In _ Hk) as [pk Hin].
      rewrite (buildLanguageVersions_prerelease components opts pre0 rest pk
                 Hpre Hin) in H.
      destruct (preSuffixOf_number components Hts) as [n [Hn En]].
      rewrite En, drop_1_dot in H. unfold shortHashOf, baseOf in H.
      fold X Y Z in H. rewrite !base_app in H. injection H as <-.
      eexists. eexists. split; [reflexivity|].
      apply CalculateFromString_numbers; try assumption.
      + reflexivity.
      + apply (formatted_tail_no_newline _ pk); assumption.
      + apply getPythonPreVersion_formatted; assumption. }
  destruct Hgoal as [t [py [-> Hc]]].
  cbn [languageVersionsOf SemVer JavaScript Go] in *.
  split; [exact Hc|].
  destruct (isNumber_cons _ HX) as [c [X' [EX [Hdc _]]]].
  rewrite EX in *. cbn [append] in Hc.
  split; apply (CalculateFromString_v c _ _ Hdc Hc).
Qed.

(* ================================================================== *)
(** * [Calculate], end to end *)
(* ================================================================== *)

(** The result of [Calculate], by the stage that decides it. *)
Lemma Calculate_stages compile opts :
  result_of (Calculate compile opts)
  = match Repository opts with
    | None => Err (Errorf "repository is required")
    | Some _ =>
        match activeFilter compile opts with
        | Err e => Err e
        | Ok filter =>
            rbind (rwrap (Wrapf "calculating version components")
                         (result_of (getVersionComponents
                                       (effectiveOptions opts filter))))
                  (fun components =>
                     buildLanguageVersions components
                                           (effectiveOptions opts filter))
        end
    end.
Proof.
  destruct (Repository opts) as [repo|] eqn:Hr.
  - destruct (activeFilter compile opts) as [filter|e] eqn:Hf.
    + exact (Calculate_result compile opts repo filter Hr Hf).
    + destruct opts as [r c o p i f pat]. cbn [Repository] in Hr. subst r.
      unfold activeFilter in Hf. cbn [TagFilter TagPattern] in Hf.
      destruct f as [g|]; [discriminate Hf|].
      destruct (String.eqb pat "") eqn:Ep; [discriminate Hf|].
      destruct (compile pat) as [re|e0] eqn:Ec; cbn [rwrap rbind] in Hf;
        [discriminate Hf|].
      injection Hf as <-.
      unfold Calculate. cbn [Repository Commitish].
      destruct (String.eqb c ""); cbn [TagPattern TagFilter];
        rewrite Ep; cbn [negb andb]; run_results; rewrite Ec; reflexivity.
  - unfold Calculate. rewrite Hr. reflexivity.
Qed.

(** What a successful [getVersionComponents] has gone through. *)
Lemma getVersionComponents_ok_inv opts c :
  result_of (getVersionComponents opts) = Ok c ->
  exists repo revision commit base v d,
    Repository opts = Some repo
    /\ revisions repo (Commitish opts) = Ok revision
    /\ lookupObject (objects repo) revision = Some commit
    /\ result_of (determineBaseVersion repo revision (IsPreRelease opts)
                                       (TagFilter opts)) = Ok (base, IsExact c)
    /\ Parse base = Ok v
    /\ result_of (workTreeIsDirty repo) = Ok d
    /\ Dirty c = d
    /\ ShortHash c = take 8 revision
    /\ Timestamp c = CommitterWhen commit
    /\ Pre (Semver c) = Pre (if negb (IsExact c) then bumpVersion v else v).
Proof.
  intros H.
  destruct (Repository opts) as [repo|] eqn:Hr.
  2:{ unfold getVersionComponents in H. rewrite Hr in H. discriminate H. }
  destruct (revisions repo (Commitish opts)) as [revision|e] eqn:Hrev.
  2:{ unfold getVersionComponents in H. rewrite Hr in H.
      revert H. run_results. unfold ResolveRevision. run_results.
      rewrite Hrev. discriminate. }
  destruct (lookupObject (objects repo) revision) as [commit|] eqn:Hobj.
  2:{ unfold getVersionComponents in H. rewrite Hr in H.
      revert H. run_results. unfold ResolveRevision, CommitObject. run_results.
      rewrite Hrev. cbn [rwrap]. run_results. rewrite Hobj. discriminate. }
  destruct (result_of (determineBaseVersion repo revision (IsPreRelease opts)
                                            (TagFilter opts)))
    as [[base isExact]|e] eqn:Hbase.
  2:{ unfold getVersionComponents in H. rewrite Hr in H.
      revert H. run_results. unfold ResolveRevision, CommitObject. run_results.
      rewrite Hrev. cbn [rwrap]. run_results. rewrite Hobj. cbn [rwrap].
      run_results. rewrite Hbase. discriminate. }
  destruct (Parse base) as [v|e] eqn:Hparse.
  2:{ unfold getVersionComponents in H. rewrite Hr in H.
      revert H. run_results. unfold ResolveRevision, CommitObject. run_results.
      rewrite Hrev. cbn [rwrap]. run_results. rewrite Hobj. cbn [rwrap].
      run_results. rewrite Hbase. cbn [rwrap]. run_results. rewrite Hparse.
      discriminate. }
  destruct (result_of (workTreeIsDirty repo)) as [d|e] eqn:Hdirty.
  2:{ unfold getVersionComponents in H. rewrite Hr in H.
      revert H. run_results. unfold ResolveRevision, CommitObject. run_results.
      rewrite Hrev. cbn [rwrap]. run_results. rewrite Hobj. cbn [rwrap].
      run_results. rewrite Hbase. cbn [rwrap]. run_results. rewrite Hparse.
      cbn [rwrap].
      destruct (String.eqb (ReleasePrefix opts) "").
      - run_results. rewrite Hdirty. discriminate.
      - run_results.
        destruct (Parse (ReleasePrefix opts)); cbn [rwrap];
          run_results; [rewrite Hdirty|]; discriminate. }
  rewrite (getVersionComponents_result opts repo revision commit base isExact
             v d Hr Hrev Hobj Hbase Hparse Hdirty) in H.
  exists repo, revision, commit, base, v, d.
  destruct (String.eqb (ReleasePrefix opts) "").
  - cbn [rbind] in H. injection H as <-.
    cbn [IsExact Dirty ShortHash Timestamp Semver]. repeat split; assumption.
  - destruct (Parse (ReleasePrefix opts)) as [nv|e]; cbn [rwrap rbind] in H;
      [|discriminate H].
    injection H as <-.
    cbn [IsExact Dirty ShortHash Timestamp Semver Pre]. repeat split; assumption.
Qed.

(** What a successful [Calculate] has gone through. *)
Lemma Calculate_ok_inv compile opts lv :
  result_of (Calculate compile opts) = Ok lv ->
  exists repo filter c,
    Repository opts = Some repo
    /\ activeFilter compile opts = Ok filter
    /\ result_of (getVersionComponents (effectiveOptions opts filter)) = Ok c
    /\ buildLanguageVersions c (effectiveOptions opts filter) = Ok lv.
Proof.
  rewrite Calculate_stages. intros H.
  destruct (Repository opts) as [repo|]; [|discriminate H].
  destruct (activeFilter compile opts) as [filter|e]; [|discriminate H].
  destruct (result_of (getVersionComponents (effectiveOptions opts filter)))
    as [c|e] eqn:Hc; cbn [rwrap rbind] in H; [|discriminate H].
  exists repo, filter, c. repeat split; assumption.
Qed.

(** X4.  [Calculate] and [CalculateFromString] agree.  In a repository
    whose revisions resolve to hashes beginning with eight lower-case
    hexadecimal digits and whose commits are not dated before 1970, the
    five strings of a successful [Calculate] are a fixed point of the
    converter: [CalculateFromString] applied to the generic string, and
    also to the JavaScript and Go strings, returns the same five strings.
    The PEP440 string that the converter derives from the generic text is
    the one the formatter built from the components, whether or not the
    hash and the dirty mark are shown. *)
Theorem Calculate_output_converts_back :
  forall compile opts repo lv,
    Repository opts = Some repo ->
    result_of (Calculate compile opts) = Ok lv ->
    (forall rev h, revisions repo rev = Ok h -> isShortHash (take 8 h) = true) ->
    (forall h c, lookupObject (objects repo) h = Some c ->
                 (0 <= CommitterWhen c)%Z) ->
    CalculateFromString (SemVer lv) = Ok lv
    /\ CalculateFromString (JavaScript lv) = Ok lv
    /\ CalculateFromString (Go lv) = Ok lv.
Proof.
  intros compile opts repo lv Hr H Hhash Htime.
  destruct (Calculate_ok_inv compile opts lv H)
    as [repo' [filter [c [Hr' [_ [Hc Hb]]]]]].
  rewrite Hr in Hr'. injection Hr' as <-.
  destruct (getVersionComponents_ok_inv _ _ Hc)
    as [repo' [revision [commit [base [v [d
         [Hr' [Hrev [Hobj [_ [_ [_ [_ [Hsh [Hts _]]]]]]]]]]]]]]].
  cbn [effectiveOptions Repository] in Hr'. rewrite Hr in Hr'.
  injection Hr' as <-.
  apply (buildLanguageVersions_converts_back c (effectiveOptions opts filter) lv Hb).
  - rewrite Hsh. exact (Hhash _ _ Hrev).
  - intros _. rewrite Hts. exact (Htime _ _ Hobj).
Qed.

Lemma Calculate_output_converts_back_witness :
  CalculateFromString "1.1.0-alpha.1700000000+bbbbbbbb.dirty"
  = Ok (languageVersionsOf "1.1.0-alpha.1700000000+bbbbbbbb.dirty"
                           "1.1.0a1700000000+dirty").
Proof.
  refine (proj1 (Calculate_output_converts_back stubCompile
                   (plainOptions (twoCommits "v1.0.0" hashB false))
                   (twoCommits "v1.0.0" hashB false)
                   (languageVersionsOf "1.1.0-alpha.1700000000+bbbbbbbb.dirty"
                                       "1.1.0a1700000000+dirty")
                   eq_refl eq_refl _ _)).
  - intros rev h. cbn [twoCommits revisions]. unfold onlyHEAD.
    destruct (String.eqb rev "HEAD"); [|discriminate].
    intros E. injection E as <-. reflexivity.
  - intros h c. cbn [twoCommits objects lookupObject].
    destruct (hash_eqb hashB h).
    + intros E. injection E as <-. cbn [CommitterWhen]. lia.
    + destruct (hash_eqb hashA h); [|discriminate].
      intros E. injection E as <-. cbn [CommitterWhen]. lia.
Defined.

(** An exact match comes from a tag found on the commit itself. *)
Lemma determineBaseVersion_exact_inv repo revision isPrerelease tagFilter base :
  result_of (determineBaseVersion repo revision isPrerelease tagFilter)
  = Ok (base, true) ->
  exists ref,
    tagAt repo isPrerelease tagFilter revision = Ok (Some ref)
    /\ base = stripModuleTagPrefixes (Short (RefName ref)).
Proof.
  intros H.
  destruct (lookupObject (objects repo) revision) as [commit|] eqn:Hobj.
  2:{ revert H. unfold determineBaseVersion, CommitObject. run_results.
      rewrite Hobj. discriminate. }
  destruct (tagAt repo isPrerelease tagFilter revision) as [[ref|]|e] eqn:Ht.
  - rewrite (determineBaseVersion_exact repo revision commit isPrerelease
               tagFilter ref Hobj Ht) in H.
    injection H as <-. exists ref. split; reflexivity.
  - rewrite (determineBaseVersion_not_exact repo isPrerelease tagFilter
               revision commit Hobj Ht) in H.
    destruct (result_of (mostRecentTag repo revision isPrerelease tagFilter))
      as [[r|]|e]; discriminate H.
  - revert H. unfold determineBaseVersion, CommitObject. run_results.
    rewrite Hobj. cbn [rwrap]. run_results.
    rewrite (lookupObject_hash _ _ _ Hobj). unfold tagAt in Ht. rewrite Ht.
    discriminate.
Qed.

Lemma activeFilter_error compile opts e :
  activeFilter compile opts = Err e ->
  exists cause, e = Wrapf "invalid tag pattern" cause.
Proof.
  unfold activeFilter.
  destruct (TagFilter opts); [discriminate|].
  destruct (String.eqb (TagPattern opts) ""); [discriminate|].
  destruct (compile (TagPattern opts)) as [re|cause]; cbn [rwrap rbind];
    [discriminate|].
  intros H. injection H as <-. eexists; reflexivity.
Qed.

(** X5.  The error "invalid prerelease type" only ever comes from a tag
    on the commit itself.  When [Calculate] fails with it, the repository
    is given, the filter (if any) was built, the revision resolved, and
    the resolver found an exact tag on the resolved commit whose version
    parses and has the rejected word for its first prerelease identifier;
    the word is none of dev, alpha, beta, rc.  A commit without an exact
    tag is formatted with the prerelease alpha and never fails so. *)
Theorem invalid_prerelease_type_needs_exact_tag :
  forall compile opts kind,
    result_of (Calculate compile opts) = Err (ErrInvalidPrereleaseType kind) ->
    exists repo filter revision ref v pre0 rest,
      Repository opts = Some repo
      /\ activeFilter compile opts = Ok filter
      /\ revisions repo (commitishOf opts) = Ok revision
      /\ tagAt repo (IsPreRelease opts) filter revision = Ok (Some ref)
      /\ Parse (stripModuleTagPrefixes (Short (RefName ref))) = Ok v
      /\ Pre v = pre0 :: rest
      /\ VersionStr pre0 = kind
      /\ knownKind kind = false.
Proof.
  intros compile opts kind H. rewrite Calculate_stages in H.
  destruct (Repository opts) as [repo|] eqn:Hr; [|discriminate H].
  destruct (activeFilter compile opts) as [filter|e] eqn:Hf.
  2:{ destruct (activeFilter_error _ _ _ Hf) as [cause ->]. discriminate H. }
  destruct (result_of (getVersionComponents (effectiveOptions opts filter)))
    as [c|e] eqn:Hc; cbn [rwrap rbind] in H; [|discriminate H].
  destruct (getVersionComponents_ok_inv _ _ Hc)
    as [repo' [revision [commit [base [v [d
         [Hr' [Hrev [Hobj [Hbase [Hparse [_ [_ [_ [_ Hpre]]]]]]]]]]]]]]].
  cbn [effectiveOptions Repository Commitish IsPreRelease TagFilter]
    in Hr', Hrev, Hbase.
  rewrite Hr in Hr'. injection Hr' as <-.
  destruct (Pre (Semver c)) as [|pre0 rest] eqn:Hp.
  { rewrite (buildLanguageVersions_release c _ Hp) in H. discriminate H. }
  destruct (knownKind (VersionStr pre0)) eqn:Hk.
  { destruct (knownKind_In _ Hk) as [pk Hin].
    rewrite (buildLanguageVersions_prerelease c _ pre0 rest pk Hp Hin) in H.
    discriminate H. }
  rewrite (buildLanguageVersions_unknown c _ pre0 rest Hp Hk) in H.
  injection H as <-.
  destruct (IsExact c) eqn:Hex.
  - cbn [negb] in Hpre.
    destruct (determineBaseVersion_exact_inv _ _ _ _ _ Hbase) as [ref [Ht ->]].
    exists repo, filter, revision, ref, v, pre0, rest.
    rewrite <- Hpre. repeat split; assumption.
  - cbn [negb] in Hpre. unfold bumpVersion in Hpre. cbn [Pre] in Hpre.
    injection Hpre as -> _. discriminate Hk.
Qed.

Lemma invalid_prerelease_type_needs_exact_tag_witness :
  exists repo filter revision ref v pre0 rest,
    Repository (plainOptions (twoCommits "v1.0.0-preview.1" hashA true)) = Some repo
    /\ activeFilter stubCompile
         (plainOptions (twoCommits "v1.0.0-preview.1" hashA true)) = Ok filter
    /\ revisions repo
         (commitishOf (plainOptions (twoCommits "v1.0.0-preview.1" hashA true)))
       = Ok revision
    /\ tagAt repo
         (IsPreRelease (plainOptions (twoCommits "v1.0.0-preview.1" hashA true)))
         filter revision = Ok (Some ref)
    /\ Parse (stripModuleTagPrefixes (Short (RefName ref))) = Ok v
    /\ Pre v = pre0 :: rest
    /\ VersionStr pre0 = "preview"
    /\ knownKind "preview" = false.
Proof.
  apply (invalid_prerelease_type_needs_exact_tag stubCompile
           (plainOptions (twoCommits "v1.0.0-preview.1" hashA true)) "preview").
  reflexivity.
Defined.

(** No exact match: the resolver found no tag on the commit itself. *)
Lemma determineBaseVersion_not_exact_inv repo revision isPrerelease tagFilter base :
  result_of (determineBaseVersion repo revision isPrerelease tagFilter)
  = Ok (base, false) ->
  tagAt repo isPrerelease tagFilter revision = Ok None.
Proof.
  intros H.
  destruct (lookupObject (objects repo) revision) as [commit|] eqn:Hobj.
  2:{ revert H. unfold determineBaseVersion, CommitObject. run_results.
      rewrite Hobj. discriminate. }
  destruct (tagAt repo isPrerelease tagFilter revision) as [[ref|]|e] eqn:Ht.
  - rewrite (determineBaseVersion_exact repo revision commit isPrerelease
               tagFilter ref Hobj Ht) in H.
    discriminate H.
  - reflexivity.
  - revert H. unfold determineBaseVersion, CommitObject. run_results.
    rewrite Hobj. cbn [rwrap]. run_results.
    rewrite (lookupObject_hash _ _ _ Hobj). unfold tagAt in Ht. rewrite Ht.
    discriminate.
Qed.

(** X16.  Where the components come from.  When [getVersionComponents]
    succeeds, the revision resolved to a commit of the store, and:
    - the short hash is the first eight bytes of the resolved hash, never
      more than eight;
    - the timestamp is the committer time of the resolved commit;
    - the dirty flag is the answer of the dirty check;
    - the commit is marked exact exactly when the resolver found a tag on
      the commit itself; and when it is not, the prerelease is alpha alone,
      whatever the prerelease of the tag that gave the base version and
      whatever the release prefix. *)
Theorem components_of_resolved_commit :
  forall opts c,
    result_of (getVersionComponents opts) = Ok c ->
    exists repo revision commit,
      Repository opts = Some repo
      /\ revisions repo (Commitish opts) = Ok revision
      /\ lookupObject (objects repo) revision = Some commit
      /\ ShortHash c = take 8 revision
      /\ (String.length (ShortHash c) <= 8)%nat
      /\ Timestamp c = CommitterWhen commit
      /\ result_of (workTreeIsDirty repo) = Ok (Dirty c)
      /\ (if IsExact c
          then exists ref,
                 tagAt repo (IsPreRelease opts) (TagFilter opts) revision
                 = Ok (Some ref)
          else tagAt repo (IsPreRelease opts) (TagFilter opts) revision = Ok None
               /\ Pre (Semver c) = [mkPR "alpha" 0 false]).
Proof.
  intros opts c H.
  destruct (getVersionComponents_ok_inv _ _ H)
    as [repo [revision [commit [base [v [d
         [Hr [Hrev [Hobj [Hbase [_ [Hd [Ed [Hsh [Hts Hpre]]]]]]]]]]]]]]].
  exists repo, revision, commit. subst d.
  repeat (split; [assumption|]).
  split.
  { rewrite Hsh. clear. generalize 8%nat as n. revert revision.
    induction revision as [|ch s IH]; intros [|n]; cbn [take String.length];
      try lia.
    specialize (IH n). lia. }
  repeat (split; [assumption|]).
  destruct (IsExact c).
  - destruct (determineBaseVersion_exact_inv _ _ _ _ _ Hbase) as [ref [Ht _]].
    exists ref. exact Ht.
  - split.
    + exact (determineBaseVersion_not_exact_inv _ _ _ _ _ Hbase).
    + exact Hpre.
Qed.

Lemma components_of_resolved_commit_witness :
  exists repo revision commit,
    Repository (plainOptions (twoCommits "v1.0.0-beta.1" hashB false)) = Some repo
    /\ revisions repo (Commitish (plainOptions (twoCommits "v1.0.0-beta.1" hashB false)))
       = Ok revision
    /\ lookupObject (objects repo) revision = Some commit
    /\ ShortHash (mkVersionComponents (mkVersion 0 0 1 alphaPre []) true
                                      "bbbbbbbb" 1700000000 false)
       = take 8 revision
    /\ (String.length
          (ShortHash (mkVersionComponents (mkVersion 0 0 1 alphaPre []) true
                                          "bbbbbbbb" 1700000000 false)) <= 8)%nat
    /\ Timestamp (mkVersionComponents (mkVersion 0 0 1 alphaPre []) true
                                      "bbbbbbbb" 1700000000 false)
       = CommitterWhen commit
    /\ result_of (workTreeIsDirty repo)
       = Ok (Dirty (mkVersionComponents (mkVersion 0 0 1 alphaPre []) true
                                        "bbbbbbbb" 1700000000 false))
    /\ (if IsExact (mkVersionComponents (mkVersion 0 0 1 alphaPre []) true
                                        "bbbbbbbb" 1700000000 false)
        then exists ref,
               tagAt repo
                 (IsPreRelease (plainOptions (twoCommits "v1.0.0-beta.1" hashB false)))
                 (TagFilter (plainOptions (twoCommits "v1.0.0-beta.1" hashB false)))
                 revision = Ok (Some ref)
        else tagAt repo
               (IsPreRelease (plainOptions (twoCommits "v1.0.0-beta.1" hashB false)))
               (TagFilter (plainOptions (twoCommits "v1.0.0-beta.1" hashB false)))
               revision = Ok None
             /\ Pre (Semver (mkVersionComponents (mkVersion 0 0 1 alphaPre []) true
                                                 "bbbbbbbb" 1700000000 false))
                = [mkPR "alpha" 0 false]).
Proof.
  apply (components_of_resolved_commit
           (plainOptions (twoCommits "v1.0.0-beta.1" hashB false))).
  reflexivity.
Defined.

(* ================================================================== *)
(** * Tags: which one is found on a commit *)
(* ================================================================== *)

(** The callback of [isExactTag] on one reference. *)
Lemma exactTagVisit_result repo hash isPrerelease tagFilter ref :
  result_of (exactTagVisit repo hash isPrerelease tagFilter ref)
  = if tagConsidered isPrerelease tagFilter ref then
      match tagTarget repo ref with
      | Ok target => Ok (if hash_eqb target hash then Some ref else None)
      | Err e => Err e
      end
    else Ok None.
Proof.
  unfold exactTagVisit, tagConsidered, tagTarget, TagObject, emit.
  destruct (RefType ref); try reflexivity.
  destruct (negb isPrerelease
            && (Contains (RefName ref) "beta" || Contains (RefName ref) "rc"));
    [reflexivity|].
  cbn [negb andb].
  destruct tagFilter as [f|].
  - destruct (f (TrimPrefix (RefName ref) "refs/tags/")); cbn [negb];
      [|reflexivity].
    destruct (tagObjects repo (RefHash ref)) as [target|[]]; reflexivity.
  - destruct (tagObjects repo (RefHash ref)) as [target|[]]; reflexivity.
Qed.

(** The queries of the callback: the tag object of a reference it
    looks at, and nothing else. *)
Lemma exactTagVisit_trace repo hash isPrerelease tagFilter ref :
  trace_of (exactTagVisit repo hash isPrerelease tagFilter ref)
  = if tagConsidered isPrerelease tagFilter ref
    then [EvTagObject (RefHash ref)] else [].
Proof.
  unfold exactTagVisit, tagConsidered, TagObject, emit.
  destruct (RefType ref); try reflexivity.
  destruct (negb isPrerelease
            && (Contains (RefName ref) "beta" || Contains (RefName ref) "rc"));
    [reflexivity|].
  cbn [negb andb].
  destruct tagFilter as [f|].
  - destruct (f (TrimPrefix (RefName ref) "refs/tags/")); cbn [negb];
      [|reflexivity].
    destruct (tagObjects repo (RefHash ref)) as [target|[]]; reflexivity.
  - destruct (tagObjects repo (RefHash ref)) as [target|[]]; reflexivity.
Qed.

(** A loop over references whose callback stops at the references that
    satisfy [p]: it returns the first of them. *)
Lemma refsForEach_find {A} (p : Reference -> bool) (g : Reference -> A)
      (cb : Reference -> M (option A)) refs :
  (forall r, In r refs ->
             result_of (cb r) = Ok (if p r then Some (g r) else None)) ->
  result_of (refsForEach refs cb) = Ok (option_map g (List.find p refs)).
Proof.
  induction refs as [|r refs IH]; intros H; [reflexivity|].
  cbn [refsForEach List.find]. rewrite result_of_bind.
  rewrite (H r (or_introl eq_refl)).
  destruct (p r).
  - reflexivity.
  - apply IH. intros r' Hr'. apply H. right. exact Hr'.
Qed.

(** What a loop over references returns was returned by the callback on
    one of them. *)
Lemma refsForEach_some {A} (cb : Reference -> M (option A)) refs a :
  result_of (refsForEach refs cb) = Ok (Some a) ->
  exists r, In r refs /\ result_of (cb r) = Ok (Some a).
Proof.
  induction refs as [|r refs IH]; [discriminate|].
  cbn [refsForEach]. rewrite result_of_bind.
  destruct (result_of (cb r)) as [[a'|]|e] eqn:E; [| |discriminate].
  - rewrite result_of_ret. intros H. injection H as <-.
    exists r. split; [left; reflexivity | exact E].
  - intros H. destruct (IH H) as [r' [Hin Hr']].
    exists r'. split; [right; exact Hin | exact Hr'].
Qed.

Lemma isExactTag_result repo hash isPrerelease tagFilter :
  result_of (isExactTag repo hash isPrerelease tagFilter)
  = match tagRefs repo with
    | Ok tags =>
        result_of (refsForEach tags
                     (exactTagVisit repo hash isPrerelease tagFilter))
    | Err e => Err (Wrapf "listing tags" e)
    end.
Proof.
  unfold isExactTag, Tags. run_results.
  destruct (tagRefs repo); reflexivity.
Qed.

(** X6.  The tag [isExactTag] finds.  A tag it returns is one of the
    listed references, a hash reference that passes the filter (which is
    given the short name), whose commit is the queried one: the target of
    the tag object for an annotated tag, the hash of the reference for a
    lightweight one; without prerelease mode its full name contains
    neither "beta" nor "rc".  When the tag objects of the references it
    looks at can be read, it returns the first listed reference of this
    kind, and none only when there is none. *)
Theorem isExactTag_first_match :
  forall repo hash isPrerelease tagFilter tags,
    tagRefs repo = Ok tags ->
    (forall ref,
        result_of (isExactTag repo hash isPrerelease tagFilter) = Ok (Some ref) ->
        In ref tags
        /\ RefType ref = HashReference
        /\ (isPrerelease = false ->
            Contains (RefName ref) "beta" = false
            /\ Contains (RefName ref) "rc" = false)
        /\ (forall f, tagFilter = Some f -> f (Short (RefName ref)) = true)
        /\ tagTarget repo ref = Ok hash)
    /\ ((forall ref, In ref tags ->
                     tagConsidered isPrerelease tagFilter ref = true ->
                     is_ok (tagTarget repo ref) = true) ->
        result_of (isExactTag repo hash isPrerelease tagFilter)
        = Ok (List.find (fun ref => tagConsidered isPrerelease tagFilter ref
                                    && tagPointsAt repo hash ref) tags)).
Proof.
  intros repo hash isPrerelease tagFilter tags Htags.
  rewrite isExactTag_result, Htags. split.
  - intros ref H. destruct (refsForEach_some _ _ _ H) as [r [Hin Hr]].
    rewrite exactTagVisit_result in Hr.
    destruct (tagConsidered isPrerelease tagFilter r) eqn:Hc; [|discriminate Hr].
    destruct (tagTarget repo r) as [target|e] eqn:Ht; [|discriminate Hr].
    destruct (hash_eqb target hash) eqn:Eh; [|discriminate Hr].
    injection Hr as <-. apply String.eqb_eq in Eh. subst target.
    unfold tagConsidered in Hc.
    destruct (RefType r); try discriminate Hc.
    apply andb_true_iff in Hc. destruct Hc as [Hvis Hfil].
    repeat split; try assumption.
    + subst isPrerelease. cbn [negb andb] in Hvis.
      apply negb_true_iff, orb_false_iff in Hvis. exact (proj1 Hvis).
    + subst isPrerelease. cbn [negb andb] in Hvis.
      apply negb_true_iff, orb_false_iff in Hvis. exact (proj2 Hvis).
    + intros f ->. exact Hfil.
  - intros Hread.
    rewrite (refsForEach_find
               (fun ref => tagConsidered isPrerelease tagFilter ref
                           && tagPointsAt repo hash ref)
               (fun ref => ref)).
    + destruct (List.find _ tags); reflexivity.
    + intros r Hin. rewrite exactTagVisit_result. unfold tagPointsAt.
      destruct (tagConsidered isPrerelease tagFilter r) eqn:Hc; [|reflexivity].
      pose proof (Hread r Hin Hc) as Hok.
      destruct (tagTarget repo r); [reflexivity | discriminate Hok].
Qed.

Lemma isExactTag_first_match_witness :
  result_of (isExactTag (twoCommits "v1.0.0" hashB true) hashA false None)
  = Ok (List.find (fun ref => tagConsidered false None ref
                              && tagPointsAt (twoCommits "v1.0.0" hashB true)
                                             hashA ref)
                  [tagV100]).
Proof.
  refine (proj2 (isExactTag_first_match (twoCommits "v1.0.0" hashB true)
                   hashA false None [tagV100] eq_refl) _).
  intros ref [<-|[]] _. reflexivity.
Defined.

Lemma trace_of_bind {A B} (m : M A) (f : A -> M B) :
  trace_of (bind m f)
  = (trace_of m ++ match result_of m with
                   | Ok a => trace_of (f a)
                   | Err _ => []
                   end)%list.
Proof.
  destruct m as [t [a|e]]; cbn [bind trace_of result_of fst snd].
  - destruct (f a); reflexivity.
  - rewrite List.app_nil_r. reflexivity.
Qed.

Lemma refsForEach_trace {A} (cb : Reference -> M (option A)) refs ev :
  In ev (trace_of (refsForEach refs cb)) ->
  exists r, In r refs /\ In ev (trace_of (cb r)).
Proof.
  induction refs as [|r refs IH]; [intros []|].
  cbn [refsForEach]. rewrite trace_of_bind. intros H.
  apply in_app_or in H. destruct H as [H|H].
  - exists r. split; [left; reflexivity | exact H].
  - destruct (result_of (cb r)) as [[a|]|e]; try (destruct H; fail).
    destruct (IH H) as [r' [Hin Hr']].
    exists r'. split; [right; exact Hin | exact Hr'].
Qed.

(** X7.  What [isExactTag] asks the repository: the list of tags, and
    besides it only the tag objects of listed references it looks at.  The
    tag object of a reference that is hidden as a beta or release
    candidate, or that the filter rejects, is never read. *)
Theorem isExactTag_queries :
  forall repo hash isPrerelease tagFilter ev,
    In ev (trace_of (isExactTag repo hash isPrerelease tagFilter)) ->
    ev = EvTags
    \/ exists tags ref,
         tagRefs repo = Ok tags /\ In ref tags
         /\ tagConsidered isPrerelease tagFilter ref = true
         /\ ev = EvTagObject (RefHash ref).
Proof.
  intros repo hash isPrerelease tagFilter ev.
  unfold isExactTag. rewrite trace_of_bind.
  change (trace_of (wrap (Wrapf "listing tags") (Tags repo))) with [EvTags].
  rewrite result_of_wrap. unfold Tags. rewrite result_of_emit.
  intros [H|H]; [left; symmetry; exact H|].
  destruct (tagRefs repo) as [tags|e]; cbn [rwrap] in H; [|destruct H].
  destruct (refsForEach_trace _ _ _ H) as [ref [Hin Hev]].
  rewrite exactTagVisit_trace in Hev.
  destruct (tagConsidered isPrerelease tagFilter ref) eqn:Hc; [|destruct Hev].
  destruct Hev as [<-|[]].
  right. exists tags, ref. repeat split; assumption.
Qed.

Lemma isExactTag_queries_witness :
  EvTagObject hashA = EvTags
  \/ exists tags ref,
       tagRefs (twoCommits "v1.0.0" hashB true) = Ok tags /\ In ref tags
       /\ tagConsidered false None ref = true
       /\ EvTagObject hashA = EvTagObject (RefHash ref).
Proof.
  apply (isExactTag_queries (twoCommits "v1.0.0" hashB true) hashA false None).
  simpl. tauto.
Defined.

(** ** The most recent tag *)

(** X8.  [mostRecentTag] starts at the commit it is given.  For a commit
    in the store:
    - when the resolver finds a tag on the commit itself, that tag is the
      most recent tag, and the walk goes no further;
    - over the whole pre-order traversal of the ancestry, with every tag
      query answering, the most recent tag is the tag of the first commit
      of the traversal that bears one, and there is none exactly when no
      commit of the traversal bears one.  The walk always comes to an
      end. *)
Theorem mostRecentTag_first_tagged :
  forall repo isPrerelease tagFilter revision commit,
    lookupObject (objects repo) revision = Some commit ->
    (forall ref,
        tagAt repo isPrerelease tagFilter revision = Ok (Some ref) ->
        result_of (mostRecentTag repo revision isPrerelease tagFilter)
        = Ok (Some ref))
    /\ (forall l,
          traversal repo commit l ->
          (forall c, In c l ->
             exists r, tagAt repo isPrerelease tagFilter (CommitHash c) = Ok r) ->
          result_of (mostRecentTag repo revision isPrerelease tagFilter)
          = Ok (firstTagged repo isPrerelease tagFilter l)).
Proof.
  intros repo isPrerelease tagFilter revision commit stored.
  pose proof (lookupObject_hash _ _ _ stored) as Hh.
  rewrite (mostRecentTag_walk repo isPrerelease tagFilter revision commit stored).
  split.
  - intros ref Ht.
    pose proof (walker_first repo commit) as WF.
    cbv zeta in WF.
    apply (commitForEach_first repo _
             (fun c => isExactTag repo (CommitHash c) isPrerelease tagFilter)
             [] commit ref (NewCommitPreorderIter commit)
             (mkIter [CommitHash commit]
                     match ParentHashes commit with
                     | [] => []
                     | _ :: _ => [filteredParentIter commit [CommitHash commit]]
                     end None)).
    + cbn [app]. eapply yields_cons; [|apply yields_nil].
      rewrite WF. reflexivity.
    + intros c [].
    + rewrite Hh. exact Ht.
    + unfold walkFuel. lia.
  - intros l [w' [Hy He]] Hok.
    pose proof (firstTagged_split repo isPrerelease tagFilter l Hok) as Hsplit.
    destruct (firstTagged repo isPrerelease tagFilter l) as [ref|].
    + destruct Hsplit as [l1 [a [l2 [-> [H1 H2]]]]].
      change (l1 ++ a :: l2)%list with (l1 ++ [a] ++ l2)%list in Hy.
      rewrite List.app_assoc in Hy.
      destruct (yields_split repo _ _ _ w' Hy) as [w1 [Hy1 _]].
      apply (commitForEach_first repo _
               (fun c => isExactTag repo (CommitHash c) isPrerelease tagFilter)
               l1 a ref _ w1 Hy1 H1 H2).
      unfold walkFuel. lia.
    + apply (commitForEach_all repo _
               (fun c => isExactTag repo (CommitHash c) isPrerelease tagFilter)
               l _ w' Hy He Hsplit).
      unfold walkFuel. lia.
Qed.

Lemma mostRecentTag_first_tagged_witness :
  result_of (mostRecentTag (twoCommits "v1.0.0" hashA true) hashA false None)
  = Ok (Some tagV100).
Proof.
  apply (proj1 (mostRecentTag_first_tagged (twoCommits "v1.0.0" hashA true)
                  false None hashA (mkCommit hashA [] 1600000000) eq_refl)).
  reflexivity.
Defined.

(** ** Module prefixes of tags *)

Lemma LastIndexSlash_app dir name :
  notChar "/" name = true ->
  LastIndexSlash (dir ++ String "/" name) = Some (String.length dir).
Proof.
  intros Hn. induction dir as [|c dir IH].
  - cbn [append LastIndexSlash String.length].
    rewrite (LastIndexSlash_none _ Hn). reflexivity.
  - cbn [append LastIndexSlash String.length]. rewrite IH. reflexivity.
Qed.

Lemma LastIndexSlash_rest s :
  match LastIndexSlash s with
  | Some i => notChar "/" (drop (S i) s) = true
  | None => notChar "/" s = true
  end.
Proof.
  induction s as [|c s IH]; [reflexivity|].
  cbn [LastIndexSlash]. destruct (LastIndexSlash s) as [i|].
  - exact IH.
  - destruct (Ascii.eqb c "/") eqn:E.
    + exact IH.
    + unfold notChar. cbn [forallb]. rewrite E. exact IH.
Qed.

Lemma TrimPrefix_notChar c s pre :
  notChar c s = true -> notChar c (TrimPrefix s pre) = true.
Proof.
  intros H. unfold TrimPrefix. destruct (HasPrefix s pre); [|exact H].
  apply forallb_drop. exact H.
Qed.

(** X9.  [stripModuleTagPrefixes] keeps the last path component of a tag
    and drops one leading "v" from it: the result never contains a slash;
    a tag "dir/name", whatever the directory part and however many
    components it has, gives what "name" gives; and the directory part is
    all that is dropped besides the "v". *)
Theorem stripModuleTagPrefixes_last_component :
  (forall tag, notChar "/" (stripModuleTagPrefixes tag) = true)
  /\ (forall dir name,
         notChar "/" name = true ->
         stripModuleTagPrefixes (dir ++ "/" ++ name) = TrimPrefix name "v"
         /\ stripModuleTagPrefixes name = TrimPrefix name "v").
Proof.
  split.
  - intros tag. unfold stripModuleTagPrefixes, path_Split.
    pose proof (LastIndexSlash_rest tag) as H.
    destruct (LastIndexSlash tag) as [i|]; apply TrimPrefix_notChar; exact H.
  - intros dir name Hn. split.
    + unfold stripModuleTagPrefixes, path_Split. cbn [append].
      rewrite (LastIndexSlash_app dir name Hn).
      replace (S (String.length dir)) with (String.length (dir ++ "/"))
        by (rewrite length_app; cbn [String.length]; lia).
      replace (dir ++ String "/" name) with ((dir ++ "/") ++ name)
        by (rewrite app_assoc_s; reflexivity).
      rewrite drop_app. reflexivity.
    + unfold stripModuleTagPrefixes, path_Split.
      rewrite (LastIndexSlash_none _ Hn). reflexivity.
Qed.

Lemma stripModuleTagPrefixes_last_component_witness :
  stripModuleTagPrefixes ("sdk/nodejs" ++ "/" ++ "v2.1.0") = TrimPrefix "v2.1.0" "v"
  /\ stripModuleTagPrefixes "v2.1.0" = TrimPrefix "v2.1.0" "v".
Proof.
  apply (proj2 stripModuleTagPrefixes_last_component "sdk/nodejs" "v2.1.0").
  reflexivity.
Defined.

(* ================================================================== *)
(** * The working tree *)
(* ================================================================== *)

(** X10.  How the dirty check degrades.  With a working tree at hand:
    - on a filesystem store the check runs git and never asks the library
      for the status; when the index cannot be refreshed the tree counts as
      dirty, without an error and without running diff-files; when
      diff-files ends with an exit error the tree counts as dirty; when it
      prints something the tree is dirty, and clean when it prints nothing;
      any other failure to run it is the error of the check;
    - on any other store no command is run, and the tree is dirty exactly
      when the library's status is not clean; a failure to get the status
      is returned, wrapped. *)
Theorem workTreeIsDirty_sources :
  forall repo wt,
    worktree repo = Ok wt ->
    (storerIsFilesystem repo = true ->
     existsb isStatusEvent (trace_of (workTreeIsDirty repo)) = false
     /\ (updateIndexOk repo = false ->
         workTreeIsDirty repo
         = ([EvWorktree; EvExec "git update-index -q --refresh"], Ok true))
     /\ (updateIndexOk repo = true ->
         (diffFiles repo = CmdExitError ->
          result_of (workTreeIsDirty repo) = Ok true)
         /\ (forall output, diffFiles repo = CmdOutput output ->
               result_of (workTreeIsDirty repo)
               = Ok (negb (String.eqb output "")))
         /\ (forall e, diffFiles repo = CmdFailed e ->
               result_of (workTreeIsDirty repo) = Err e)))
    /\ (storerIsFilesystem repo = false ->
        existsb isExecEvent (trace_of (workTreeIsDirty repo)) = false
        /\ (forall clean, Status wt = Ok clean ->
              result_of (workTreeIsDirty repo) = Ok (negb clean))
        /\ (forall e, Status wt = Err e ->
              result_of (workTreeIsDirty repo)
              = Err (Wrapf "getting git status" e))).
Proof.
  intros repo wt Hwt. unfold workTreeIsDirty, checkDirtyWithGitCommand.
  rewrite Hwt. cbn [bind wrap emit rwrap fst snd].
  split; intros Hfs; rewrite Hfs.
  - split; [|split].
    + destruct (updateIndexOk repo); [|reflexivity].
      destruct (diffFiles repo); reflexivity.
    + intros ->. reflexivity.
    + intros ->. split; [|split].
      * intros ->. reflexivity.
      * intros output ->. destruct output; reflexivity.
      * intros e ->. reflexivity.
  - split; [|split].
    + destruct (Status wt); reflexivity.
    + intros clean ->. reflexivity.
    + intros e ->. reflexivity.
Qed.

Lemma workTreeIsDirty_sources_witness :
  existsb isExecEvent (trace_of (workTreeIsDirty (twoCommits "v1.0.0" hashA false)))
  = false
  /\ (forall clean,
        Status (mkWorktree "/" (Ok false)) = Ok clean ->
        result_of (workTreeIsDirty (twoCommits "v1.0.0" hashA false))
        = Ok (negb clean))
  /\ (forall e,
        Status (mkWorktree "/" (Ok false)) = Err e ->
        result_of (workTreeIsDirty (twoCommits "v1.0.0" hashA false))
        = Err (Wrapf "getting git status" e)).
Proof.
  apply (proj2 (workTreeIsDirty_sources (twoCommits "v1.0.0" hashA false)
                  (mkWorktree "/" (Ok false)) eq_refl)).
  reflexivity.
Defined.

(* ================================================================== *)
(** * Where the hash goes, and what the converter drops *)
(* ================================================================== *)

(** X11.  The commit hash reaches the output in one place only.  The
    PEP440 string, and whether the formatter succeeds, depend neither on
    the short hash nor on the options; and with [OmitCommitHash] or
    [IsPreRelease] set, or for a version without prerelease, none of the
    five strings depends on the short hash. *)
Theorem hash_only_in_generic_prerelease :
  forall components opts h,
    (forall opts',
        match buildLanguageVersions components opts,
              buildLanguageVersions (withShortHash components h) opts' with
        | Ok lv, Ok lv' => Python lv = Python lv'
        | Err e, Err e' => e = e'
        | _, _ => False
        end)
    /\ (OmitCommitHash opts = true \/ IsPreRelease opts = true
        \/ Pre (Semver components) = [] ->
        buildLanguageVersions (withShortHash components h) opts
        = buildLanguageVersions components opts).
Proof.
  intros components opts h. split.
  - intros opts'.
    destruct (Pre (Semver components)) as [|pre0 rest] eqn:Hp.
    + rewrite (buildLanguageVersions_release components opts Hp).
      rewrite (buildLanguageVersions_release (withShortHash components h) opts' Hp).
      reflexivity.
    + destruct (knownKind (VersionStr pre0)) eqn:Hk.
      * destruct (knownKind_In _ Hk) as [pk Hin].
        rewrite (buildLanguageVersions_prerelease components opts
                   pre0 rest pk Hp Hin).
        rewrite (buildLanguageVersions_prerelease (withShortHash components h)
                   opts' pre0 rest pk Hp Hin).
        reflexivity.
      * rewrite (buildLanguageVersions_unknown components opts pre0 rest Hp Hk).
        rewrite (buildLanguageVersions_unknown (withShortHash components h)
                   opts' pre0 rest Hp Hk).
        reflexivity.
  - intros H. destruct components as [sv d sh ts ex].
    unfold withShortHash, buildLanguageVersions, buildPreVersionStrings,
      genericVersionOf.
    cbn [Semver Dirty ShortHash Timestamp IsExact Pre Major Minor Patch Build]
      in *.
    destruct H as [H|[H|H]]; rewrite H; try reflexivity.
    rewrite andb_false_r. reflexivity.
Qed.

Lemma hash_only_in_generic_prerelease_witness :
  buildLanguageVersions
    (withShortHash (mkVersionComponents (mkVersion 1 1 0 alphaPre []) false
                                        "aaaaaaaa" 1700000000 false)
                   "bbbbbbbb")
    (mkOptions None "HEAD" true "" false None "")
  = buildLanguageVersions
      (mkVersionComponents (mkVersion 1 1 0 alphaPre []) false
                           "aaaaaaaa" 1700000000 false)
      (mkOptions None "HEAD" true "" false None "").
Proof.
  apply (proj2 (hash_only_in_generic_prerelease
                  (mkVersionComponents (mkVersion 1 1 0 alphaPre []) false
                                       "aaaaaaaa" 1700000000 false)
                  (mkOptions None "HEAD" true "" false None "") "bbbbbbbb")).
  left. reflexivity.
Defined.

(** The back-conversion of a text in which it recognises no kind: only
    the dirty mark is kept. *)
Lemma getPythonPreVersion_no_kind pre :
  noKindPrefix pre = true ->
  getPythonPreVersion pre = Ok (if Contains pre "dirty" then "+dirty" else "").
Proof.
  intros H. unfold noKindPrefix in H.
  repeat (apply andb_true_iff in H; destruct H as [H ?H]).
  apply negb_true_iff in H, H0, H1, H2.
  destruct (String.eqb pre "") eqn:E.
  - apply String.eqb_eq in E. subst pre. reflexivity.
  - rewrite (getPythonPreVersion_stages pre "" pre E).
    + unfold pep440Assemble. reflexivity.
    + unfold getPythonPrePrefix. rewrite H, H0, H1, H2. reflexivity.
Qed.

(** X12.  What the converter makes of a version whose tail it does not
    understand.  For numbers X, Y, Z and a tail that is empty or begins
    with a byte that is no digit, holds no newline and does not begin with
    -dev, -alpha, -beta or -rc, the PEP440 string is X.Y.Z, followed by
    +dirty when the tail contains the word dirty: the rest of the tail
    (another prerelease word, build metadata) is dropped without an
    error.  The other four strings keep the tail.  A leading "v" changes
    nothing.  In particular a plain X.Y.Z gives itself. *)
Theorem unknown_tail_dropped_from_pep440 :
  forall X Y Z t,
    isNumber X = true -> isNumber Y = true -> isNumber Z = true ->
    match t with EmptyString => true | String c _ => negb (isDigit c) end = true ->
    notChar newline t = true ->
    noKindPrefix t = true ->
    let v := X ++ "." ++ Y ++ "." ++ Z ++ t in
    let py := X ++ "." ++ Y ++ "." ++ Z
              ++ (if Contains t "dirty" then "+dirty" else "") in
    CalculateFromString v = Ok (languageVersionsOf v py)
    /\ CalculateFromString ("v" ++ v) = Ok (languageVersionsOf v py).
Proof.
  intros X Y Z t HX HY HZ Ht Hnl Hk v py.
  assert (H : CalculateFromString v = Ok (languageVersionsOf v py)).
  { apply CalculateFromString_numbers; try assumption.
    apply getPythonPreVersion_no_kind. exact Hk. }
  split; [exact H|].
  destruct (isNumber_cons _ HX) as [c [X' [EX [Hc _]]]].
  unfold v in *. rewrite EX in *. cbn [append] in H.
  exact (CalculateFromString_v c _ _ Hc H).
Qed.

Lemma unknown_tail_dropped_from_pep440_witness :
  CalculateFromString "1.2.3-preview.4+build.5"
  = Ok (languageVersionsOf "1.2.3-preview.4+build.5" "1.2.3")
  /\ CalculateFromString "v1.2.3-preview.4+build.5"
     = Ok (languageVersionsOf "1.2.3-preview.4+build.5" "1.2.3").
Proof.
  apply (unknown_tail_dropped_from_pep440 "1" "2" "3" "-preview.4+build.5");
    reflexivity.
Defined.

(* ================================================================== *)
(** * Failures of [Calculate] *)
(* ================================================================== *)

(** X13.  A revision that cannot be found.  With the repository given and
    the filter (if any) built:
    - when the revision does not resolve, one query is made, the
      resolution, and [Calculate] fails with the resolver's error wrapped
      as "calculating version components: resolving commitish";
    - when it resolves to a hash with no commit object in the store, the
      commit lookup is the second and last query, and [Calculate] fails
      with the object-not-found error wrapped as "calculating version
      components: getting commit object".
    In both cases no tag is listed and the working tree is not looked
    at. *)
Theorem Calculate_revision_not_found :
  forall compile opts repo filter,
    Repository opts = Some repo ->
    activeFilter compile opts = Ok filter ->
    (forall e,
        revisions repo (commitishOf opts) = Err e ->
        getVersionComponents (effectiveOptions opts filter)
        = ([EvResolveRevision (commitishOf opts)],
           Err (Wrapf "resolving commitish" e))
        /\ result_of (Calculate compile opts)
           = Err (Wrapf "calculating version components"
                        (Wrapf "resolving commitish" e)))
    /\ (forall revision,
          revisions repo (commitishOf opts) = Ok revision ->
          lookupObject (objects repo) revision = None ->
          getVersionComponents (effectiveOptions opts filter)
          = ([EvResolveRevision (commitishOf opts); EvCommitObject revision],
             Err (Wrapf "getting commit object" ErrObjectNotFound))
          /\ result_of (Calculate compile opts)
             = Err (Wrapf "calculating version components"
                          (Wrapf "getting commit object" ErrObjectNotFound))).
Proof.
  intros compile opts repo filter Hr Hf.
  assert (Hg : forall r,
             getVersionComponents (effectiveOptions opts filter) = r ->
             result_of (Calculate compile opts)
             = rbind (rwrap (Wrapf "calculating version components")
                            (result_of r))
                     (fun components =>
                        buildLanguageVersions components
                                              (effectiveOptions opts filter))).
  { intros r <-. rewrite Calculate_stages, Hr, Hf. reflexivity. }
  split.
  - intros e Hrev.
    assert (E : getVersionComponents (effectiveOptions opts filter)
                = ([EvResolveRevision (commitishOf opts)],
                   Err (Wrapf "resolving commitish" e))).
    { unfold getVersionComponents, ResolveRevision.
      cbn [effectiveOptions Repository Commitish]. rewrite Hr, Hrev.
      reflexivity. }
    split; [exact E|]. rewrite (Hg _ E). reflexivity.
  - intros revision Hrev Hobj.
    assert (E : getVersionComponents (effectiveOptions opts filter)
                = ([EvResolveRevision (commitishOf opts);
                    EvCommitObject revision],
                   Err (Wrapf "getting commit object" ErrObjectNotFound))).
    { unfold getVersionComponents, ResolveRevision, CommitObject.
      cbn [effectiveOptions Repository Commitish]. rewrite Hr, Hrev.
      cbn [bind wrap emit rwrap fst snd]. rewrite Hobj. reflexivity. }
    split; [exact E|]. rewrite (Hg _ E). reflexivity.
Qed.

Lemma Calculate_revision_not_found_witness :
  getVersionComponents
    (effectiveOptions (mkOptions (Some oneCommit) "main" false "" false None "")
                      None)
  = ([EvResolveRevision "main"],
     Err (Wrapf "resolving commitish" (ErrCollaborator "reference not found")))
  /\ result_of (Calculate stubCompile
                  (mkOptions (Some oneCommit) "main" false "" false None ""))
     = Err (Wrapf "calculating version components"
                  (Wrapf "resolving commitish"
                         (ErrCollaborator "reference not found"))).
Proof.
  apply (proj1 (Calculate_revision_not_found stubCompile
                  (mkOptions (Some oneCommit) "main" false "" false None "")
                  oneCommit None eq_refl eq_refl)).
  reflexivity.
Defined.

(** X14.  A tag with a prerelease word the formatter does not know makes
    [Calculate] fail.  When the resolved commit bears an exact tag whose
    version parses and whose first prerelease identifier is none of dev,
    alpha, beta, rc (a number counts as none), and everything else
    answers (the release prefix, if given, parses; the dirty check
    returns), [Calculate] fails with "invalid prerelease type", quoting
    the identifier; a release prefix does not help, since it replaces the
    numbers only. *)
Theorem exact_tag_of_unknown_kind_fails :
  forall compile opts repo filter revision commit ref v pre0 rest d,
    Repository opts = Some repo ->
    activeFilter compile opts = Ok filter ->
    revisions repo (commitishOf opts) = Ok revision ->
    lookupObject (objects repo) revision = Some commit ->
    tagAt repo (IsPreRelease opts) filter revision = Ok (Some ref) ->
    Parse (stripModuleTagPrefixes (Short (RefName ref))) = Ok v ->
    Pre v = pre0 :: rest ->
    knownKind (VersionStr pre0) = false ->
    (ReleasePrefix opts = "" \/ exists nv, Parse (ReleasePrefix opts) = Ok nv) ->
    result_of (workTreeIsDirty repo) = Ok d ->
    result_of (Calculate compile opts)
    = Err (ErrInvalidPrereleaseType (VersionStr pre0)).
Proof.
  intros compile opts repo filter revision commit ref v pre0 rest d
         Hr Hf Hrev Hobj Ht Hparse Hpre Hk Hprefix Hd.
  rewrite Calculate_stages, Hr, Hf.
  rewrite (getVersionComponents_result (effectiveOptions opts filter)
             repo revision commit
             (stripModuleTagPrefixes (Short (RefName ref))) true v d
             Hr Hrev Hobj
             (determineBaseVersion_exact repo revision commit _ _ ref Hobj Ht)
             Hparse Hd).
  cbn [effectiveOptions ReleasePrefix negb].
  destruct Hprefix as [->|[nv Hnv]].
  - cbn [String.eqb rbind rwrap].
    apply (buildLanguageVersions_unknown _ _ pre0 rest); assumption.
  - rewrite Hnv. cbn [rwrap rbind].
    destruct (String.eqb (ReleasePrefix opts) ""); cbn [rbind rwrap];
      apply (buildLanguageVersions_unknown _ _ pre0 rest); assumption.
Qed.

Lemma exact_tag_of_unknown_kind_fails_witness :
  result_of (Calculate stubCompile
               (withReleasePrefix
                  (plainOptions (twoCommits "v1.0.0-7" hashA true)) "2.0.0"))
  = Err (ErrInvalidPrereleaseType "").
Proof.
  refine (exact_tag_of_unknown_kind_fails stubCompile
            (withReleasePrefix (plainOptions (twoCommits "v1.0.0-7" hashA true))
                               "2.0.0")
            (twoCommits "v1.0.0-7" hashA true) None hashA
            (mkCommit hashA [] 1600000000)
            (mkReference HashReference "refs/tags/v1.0.0-7" hashA)
            (mkVersion 1 0 0 [mkPR "" 7 true] []) (mkPR "" 7 true) [] false
            eq_refl eq_refl eq_refl eq_refl eq_refl eq_refl eq_refl eq_refl
            _ eq_refl).
  right. exists (mkVersion 2 0 0 [] []). reflexivity.
Defined.

(** X15.  A version that does not parse is fatal, not skipped.  With the
    repository given, the filter built, the revision resolved to a stored
    commit, and a base version determined (from a tag on the commit or on
    the nearest tagged ancestor):
    - when the base version is not a semantic version (a tag such as
      v1.2, say), [Calculate] fails with the parse error, quoting the base
      version; no other tag is tried;
    - when the base version parses and a release prefix is given that
      does not, [Calculate] fails with the parse error, quoting the
      prefix. *)
Theorem unparsable_version_is_fatal :
  forall compile opts repo filter revision commit base isExact,
    Repository opts = Some repo ->
    activeFilter compile opts = Ok filter ->
    revisions repo (commitishOf opts) = Ok revision ->
    lookupObject (objects repo) revision = Some commit ->
    result_of (determineBaseVersion repo revision (IsPreRelease opts) filter)
    = Ok (base, isExact) ->
    (forall e,
        Parse base = Err e ->
        result_of (Calculate compile opts)
        = Err (Wrapf "calculating version components"
                     (ErrParsingBaseVersion base e)))
    /\ (forall v e,
          Parse base = Ok v ->
          ReleasePrefix opts <> "" ->
          Parse (ReleasePrefix opts) = Err e ->
          result_of (Calculate compile opts)
          = Err (Wrapf "calculating version components"
                       (ErrParsingReleasePrefix (ReleasePrefix opts) e))).
Proof.
  intros compile opts repo filter revision commit base isExact
         Hr Hf Hrev Hobj Hbase.
  assert (Hstart : forall r,
             result_of (getVersionComponents (effectiveOptions opts filter))
             = Err r ->
             result_of (Calculate compile opts)
             = Err (Wrapf "calculating version components" r)).
  { intros r E. rewrite Calculate_stages, Hr, Hf, E. reflexivity. }
  split.
  - intros e Hparse. apply Hstart.
    unfold getVersionComponents.
    cbn [effectiveOptions Repository Commitish IsPreRelease TagFilter].
    rewrite Hr. run_results. unfold ResolveRevision, CommitObject. run_results.
    rewrite Hrev. cbn [rwrap]. run_results. rewrite Hobj. cbn [rwrap].
    run_results. rewrite Hbase. cbn [rwrap]. run_results. rewrite Hparse.
    reflexivity.
  - intros v e Hparse Hne Hprefix. apply Hstart.
    unfold getVersionComponents.
    cbn [effectiveOptions Repository Commitish IsPreRelease TagFilter
         ReleasePrefix].
    rewrite Hr. run_results. unfold ResolveRevision, CommitObject. run_results.
    rewrite Hrev. cbn [rwrap]. run_results. rewrite Hobj. cbn [rwrap].
    run_results. rewrite Hbase. cbn [rwrap]. run_results. rewrite Hparse.
    cbn [rwrap].
    destruct (String.eqb (ReleasePrefix opts) "") eqn:E.
    + apply String.eqb_eq in E. contradiction.
    + run_results. rewrite Hprefix. reflexivity.
Qed.

Lemma unparsable_version_is_fatal_witness :
  result_of (Calculate stubCompile (plainOptions (twoCommits "v1.2" hashB true)))
  = Err (Wrapf "calculating version components"
               (ErrParsingBaseVersion "1.2"
                  (Errorf "No Major.Minor.Patch elements found"))).
Proof.
  refine (proj1 (unparsable_version_is_fatal stubCompile
                   (plainOptions (twoCommits "v1.2" hashB true))
                   (twoCommits "v1.2" hashB true) None hashB
                   (mkCommit hashB [hashA] 1700000000) "1.2" false
                   eq_refl eq_refl eq_refl eq_refl eq_refl) _ _).
  reflexivity.
Defined.
